(** * Quote mapper: validation, normalisation, totals and text parsing

    A shallow embedding of [quote-mapper.ts] (the quote input validator and
    quote data mapper of the Xero quote skill) and the properties its
    specification states about it, followed by the summary of a quote, the
    callback server of the authorization helper and the test script, with
    further properties of the code.

    JavaScript strings are sequences of UTF-16 code units and JavaScript
    numbers are IEEE 754 binary64 values; both are modelled as such, the
    numbers through the executable specification of floating-point
    arithmetic of the standard library ([SpecFloat]). *)

From Stdlib Require Import List Bool NArith ZArith Lia String Ascii.
From Stdlib Require Import Permutation.
From Stdlib Require Import Floats.SpecFloat.
Import ListNotations.

Set Implicit Arguments.

(** ** Strings *)

Module JsString.

(** A code unit of a string, and a string. *)
Definition char := N.
Definition jsstring := list char.

(** The code units of an ASCII literal. *)
Definition u (s : string) : jsstring :=
  map N_of_ascii (list_ascii_of_string s).

Definition char_eqb (a b : char) : bool := N.eqb a b.

Fixpoint str_eqb (s t : jsstring) : bool :=
  match s, t with
  | [], [] => true
  | a :: s', b :: t' => char_eqb a b && str_eqb s' t'
  | _, _ => false
  end.

(** [WhiteSpace] and [LineTerminator] of ECMAScript: what [trim] removes,
    what [\s] matches and what [parseFloat] skips. *)
Definition isWhiteSpace (c : char) : bool :=
  ((9 <=? c) && (c <=? 13) || (c =? 32) || (c =? 160) || (c =? 5760)
   || (8192 <=? c) && (c <=? 8202) || (c =? 8232) || (c =? 8233)
   || (c =? 8239) || (c =? 8287) || (c =? 12288) || (c =? 65279))%N.

(** [\d] *)
Definition isDigit (c : char) : bool := ((48 <=? c) && (c <=? 57))%N.

Fixpoint dropWhile (p : char -> bool) (s : jsstring) : jsstring :=
  match s with
  | [] => []
  | c :: s' => if p c then dropWhile p s' else s
  end.

(** The longest prefix whose code units satisfy [p], and the rest. *)
Fixpoint span (p : char -> bool) (s : jsstring) : jsstring * jsstring :=
  match s with
  | [] => ([], [])
  | c :: s' =>
      if p c then let (a, b) := span p s' in (c :: a, b) else ([], s)
  end.

Definition trimStart (s : jsstring) : jsstring := dropWhile isWhiteSpace s.
Definition trimEnd (s : jsstring) : jsstring :=
  rev (dropWhile isWhiteSpace (rev s)).

(** [String.prototype.trim] *)
Definition trim (s : jsstring) : jsstring := trimEnd (trimStart s).

(** [s.startsWith(p)] *)
Fixpoint startsWith (p s : jsstring) : bool :=
  match p, s with
  | [], _ => true
  | a :: p', b :: s' => char_eqb a b && startsWith p' s'
  | _ :: _, [] => false
  end.

(** [s.includes(c)] for a one-unit needle. *)
Definition includes (c : char) (s : jsstring) : bool :=
  existsb (char_eqb c) s.

(** [s.split(c)] for a one-unit separator: never empty. *)
Fixpoint split (c : char) (s : jsstring) : list jsstring :=
  match s with
  | [] => [[]]
  | x :: s' =>
      if char_eqb x c then [] :: split c s'
      else match split c s' with
           | [] => [[x]]
           | p :: ps => (x :: p) :: ps
           end
  end.

(** [s.replace(/[...]/g, '')]: every code unit of the class is removed. *)
Definition removeAll (cls : char -> bool) (s : jsstring) : jsstring :=
  filter (fun c => negb (cls c)) s.

(** Decimal digits of a natural number, as [String(n)] prints an array
    index. *)
Fixpoint digitsOfPos (fuel : nat) (n : N) (acc : jsstring) : jsstring :=
  match fuel with
  | O => acc
  | S fuel' =>
      let acc' := (48 + n mod 10)%N :: acc in
      if (n <? 10)%N then acc' else digitsOfPos fuel' (n / 10)%N acc'
  end.

Definition showNat (n : nat) : jsstring :=
  digitsOfPos (S n) (N.of_nat n) [].

End JsString.

Import JsString.

(** ** Numbers *)

Module JsNumber.

(** binary64 *)
Definition prec : Z := 53.
Definition emax : Z := 1024.

(** A Number.  The values JavaScript can produce are the canonical ones
    ([valid_binary prec emax]); the operations are total on all of
    [spec_float]. *)
Definition number := spec_float.

Definition NaN : number := S754_nan.
Definition Infinity (neg : bool) : number := S754_infinity neg.
Definition zero : number := S754_zero false.

Definition add : number -> number -> number := SFadd prec emax.
Definition mul : number -> number -> number := SFmul prec emax.
Definition div : number -> number -> number := SFdiv prec emax.

(** [x <= y], [x < y] and [x === y] on numbers. *)
Definition leb : number -> number -> bool := SFleb.
Definition ltb : number -> number -> bool := SFltb.
Definition eqb : number -> number -> bool := SFeqb.

Definition isNaN (x : number) : bool :=
  match x with S754_nan => true | _ => false end.

(** The Number of an integer (rounded to nearest, ties to even). *)
Definition ofZ (n : Z) : number := binary_normalize prec emax n 0 false.

(** The Number nearest to the decimal [m * 10^k], negated when [neg]. *)
Definition ofDecimal (neg : bool) (m : N) (k : Z) : number :=
  match m with
  | N0 => S754_zero neg
  | Npos p =>
      if (0 <=? k)%Z
      then binary_round prec emax neg (p * Z.to_pos (10 ^ k)) 0
      else SFdiv prec emax (S754_finite neg p 0)
                           (S754_finite false (Z.to_pos (10 ^ (- k))) 0)
  end.

End JsNumber.

Import JsNumber.

(** ** [parseFloat] *)

Module ParseFloat.

(** What a [StrUnsignedDecimalLiteral] denotes: [Infinity], or the decimal
    [m * 10^k]. *)
Inductive literal :=
| LitInfinity
| LitDecimal (m : N) (k : Z).

(** The value of a run of decimal digits. *)
Definition digitsValue (ds : jsstring) : N :=
  fold_left (fun acc c => (10 * acc + (c - 48))%N) ds 0%N.

(** An optional sign. *)
Definition scanSign (s : jsstring) : bool * jsstring :=
  match s with
  | c :: r =>
      if char_eqb c 43%N then (false, r)
      else if char_eqb c 45%N then (true, r)
      else (false, s)
  | [] => (false, s)
  end.

(** [ExponentPart]: [e] or [E], an optional sign and at least one digit;
    it is read only when complete, and counts as 0 otherwise. *)
Definition scanExponent (s : jsstring) : Z :=
  match s with
  | c :: r =>
      if char_eqb c 101%N || char_eqb c 69%N then
        let (neg, r1) := scanSign r in
        let (ds, _) := span isDigit r1 in
        match ds with
        | [] => 0%Z
        | _ => let v := Z.of_N (digitsValue ds) in if neg then (- v)%Z else v
        end
      else 0%Z
  | [] => 0%Z
  end.

(** The longest prefix that is a [StrUnsignedDecimalLiteral]:
    [Infinity], [digits . digits? exponent?], [. digits exponent?] or
    [digits exponent?]. *)
Definition scanUnsigned (s : jsstring) : option literal :=
  if startsWith (u "Infinity") s then Some LitInfinity
  else
    let (ip, r1) := span isDigit s in
    match r1 with
    | c :: r =>
        if char_eqb c 46%N then
          let (fp, r2) := span isDigit r in
          match ip, fp with
          | [], [] => None
          | _, _ =>
              Some (LitDecimal (digitsValue (ip ++ fp))
                               (scanExponent r2 - Z.of_nat (List.length fp)))
          end
        else
          match ip with
          | [] => None
          | _ => Some (LitDecimal (digitsValue ip) (scanExponent r1))
          end
    | [] =>
        match ip with
        | [] => None
        | _ => Some (LitDecimal (digitsValue ip) 0)
        end
    end.

(** [parseFloat(s)]: leading white space is skipped, the longest prefix
    that is a decimal literal is read and rounded to a Number; [NaN] when
    there is no such prefix. *)
Definition parseFloat (s : jsstring) : number :=
  let (neg, r) := scanSign (trimStart s) in
  match scanUnsigned r with
  | None => NaN
  | Some LitInfinity => Infinity neg
  | Some (LitDecimal m k) => ofDecimal neg m k
  end.

End ParseFloat.

Import ParseFloat.

(** ** Regular expressions

    The two patterns of the validator are anchored at both ends and use
    only character classes, sequencing and repetition, so [RegExp.test] is
    whole-string matching, computed here with derivatives. *)

Module RegExp.

Inductive regex :=
| Void
| Eps
| Cls (p : char -> bool)
| Cat (r1 r2 : regex)
| Alt (r1 r2 : regex)
| Star (r : regex).

(** One given code unit, [r+] and [r{n}]. *)
Definition Chr (c : char) : regex := Cls (char_eqb c).
Definition Plus (r : regex) : regex := Cat r (Star r).
Fixpoint Rep (n : nat) (r : regex) : regex :=
  match n with
  | O => Eps
  | S n' => Cat r (Rep n' r)
  end.

Fixpoint nullable (r : regex) : bool :=
  match r with
  | Void => false
  | Eps => true
  | Cls _ => false
  | Cat r1 r2 => nullable r1 && nullable r2
  | Alt r1 r2 => nullable r1 || nullable r2
  | Star _ => true
  end.

Fixpoint deriv (c : char) (r : regex) : regex :=
  match r with
  | Void => Void
  | Eps => Void
  | Cls p => if p c then Eps else Void
  | Cat r1 r2 =>
      if nullable r1 then Alt (Cat (deriv c r1) r2) (deriv c r2)
      else Cat (deriv c r1) r2
  | Alt r1 r2 => Alt (deriv c r1) (deriv c r2)
  | Star r1 => Cat (deriv c r1) (Star r1)
  end.

(** [/^r$/.test(s)] *)
Fixpoint test (r : regex) (s : jsstring) : bool :=
  match s with
  | [] => nullable r
  | c :: s' => test (deriv c r) s'
  end.

(** The words of a pattern. *)
Inductive lang : regex -> jsstring -> Prop :=
| lang_eps : lang Eps []
| lang_cls p c : p c = true -> lang (Cls p) [c]
| lang_cat r1 r2 s1 s2 : lang r1 s1 -> lang r2 s2 -> lang (Cat r1 r2) (s1 ++ s2)
| lang_alt_l r1 r2 s : lang r1 s -> lang (Alt r1 r2) s
| lang_alt_r r1 r2 s : lang r2 s -> lang (Alt r1 r2) s
| lang_star_nil r : lang (Star r) []
| lang_star_cons r s1 s2 :
    lang r s1 -> lang (Star r) s2 -> lang (Star r) (s1 ++ s2).

End RegExp.

Import RegExp.

(** ** The quote mapper *)

Module QuoteMapper.

(** A run-time value, as far as [typeof] tells values apart here. *)
Inductive value :=
| VUndefined
| VNull
| VBool (b : bool)
| VNum (x : number)
| VStr (s : jsstring).

(** [typeof v === 'number'] *)
Definition isNumber (v : value) : bool :=
  match v with VNum _ => true | _ => false end.

(** [interface ParsedLineItem] *)
Record ParsedLineItem := {
  description : jsstring;
  quantity : number;
  unitAmount : number;
  accountCode : option jsstring
}.

(** [interface ParsedQuoteInput].  [QuoteData], the result type of
    [toQuoteData], is declared in the client module; the object
    [toQuoteData] builds has these same fields, so it is a value of this
    record as well. *)
Record ParsedQuoteInput := {
  contactName : jsstring;
  contactEmail : option jsstring;
  lineItems : list ParsedLineItem;
  reference : option jsstring;
  termsAndConditions : option jsstring;
  date : option jsstring
}.

(** The data [validateQuoteData] receives at run time.  Its type
    annotation is [ParsedQuoteInput], but types are erased and the function
    is the one that checks the data against them: it tests for a missing
    name, list or description and for the run-time type of the two
    numbers, so these fields range over what those tests tell apart. *)
Record RawLineItem := {
  rawDescription : option jsstring;
  rawQuantity : value;
  rawUnitAmount : value;
  rawAccountCode : option jsstring
}.

Record RawQuoteInput := {
  rawContactName : option jsstring;
  rawContactEmail : option jsstring;
  rawLineItems : option (list RawLineItem);
  rawReference : option jsstring;
  rawTermsAndConditions : option jsstring;
  rawDate : option jsstring
}.

(** Well-typed data, seen at run time. *)
Definition rawItem (item : ParsedLineItem) : RawLineItem :=
  {| rawDescription := Some (description item);
     rawQuantity := VNum (quantity item);
     rawUnitAmount := VNum (unitAmount item);
     rawAccountCode := accountCode item |}.

Definition rawInput (data : ParsedQuoteInput) : RawQuoteInput :=
  {| rawContactName := Some (contactName data);
     rawContactEmail := contactEmail data;
     rawLineItems := Some (map rawItem (lineItems data));
     rawReference := reference data;
     rawTermsAndConditions := termsAndConditions data;
     rawDate := date data |}.

(** [!s || s.trim() === ''] for an optional string. *)
Definition blank (s : option jsstring) : bool :=
  match s with
  | None => true
  | Some [] => true
  | Some s' => str_eqb (trim s') []
  end.

(** [if (s)] for an optional string: defined and not empty. *)
Definition given (s : option jsstring) : option jsstring :=
  match s with
  | Some (c :: s') => Some (c :: s')
  | _ => None
  end.

(** [typeof v !== 'number' || v <= 0] and [typeof v !== 'number' || v < 0] *)
Definition notPositive (v : value) : bool :=
  match v with VNum x => leb x zero | _ => true end.
Definition negative (v : value) : bool :=
  match v with VNum x => ltb x zero | _ => true end.

(** [/^[^\s@]+@[^\s@]+\.[^\s@]+$/] *)
Definition notSpaceAt (c : char) : bool :=
  negb (isWhiteSpace c || char_eqb c 64%N).
Definition emailRegex : regex :=
  Cat (Plus (Cls notSpaceAt))
      (Cat (Chr 64%N)
           (Cat (Plus (Cls notSpaceAt))
                (Cat (Chr 46%N) (Plus (Cls notSpaceAt))))).

(** [/^\d{4}-\d{2}-\d{2}$/] *)
Definition dateRegex : regex :=
  Cat (Rep 4 (Cls isDigit))
      (Cat (Chr 45%N)
           (Cat (Rep 2 (Cls isDigit))
                (Cat (Chr 45%N) (Rep 2 (Cls isDigit))))).

(** The messages. *)
Definition msgContactName : jsstring := u "Contact name is required".
Definition msgNoLineItems : jsstring := u "At least one line item is required".
Definition msgLineItem (index : nat) (what : string) : jsstring :=
  u "Line item " ++ showNat (index + 1) ++ u what.
Definition msgDescription (index : nat) : jsstring :=
  msgLineItem index ": description is required".
Definition msgQuantity (index : nat) : jsstring :=
  msgLineItem index ": quantity must be a positive number".
Definition msgUnitAmount (index : nat) : jsstring :=
  msgLineItem index ": unit amount must be a non-negative number".
Definition msgEmail : jsstring := u "Invalid email address format".
Definition msgDate : jsstring := u "Date must be in YYYY-MM-DD format".

(** [errors.push(msg)], and a push under a condition. *)
Definition push (msg : jsstring) (errors : list jsstring) : list jsstring :=
  errors ++ [msg].
Definition pushIf (b : bool) (msg : jsstring) (errors : list jsstring)
  : list jsstring :=
  if b then push msg errors else errors.

(** The body of the [forEach] callback. *)
Definition checkItem (item : RawLineItem) (index : nat)
  (errors : list jsstring) : list jsstring :=
  let errors := pushIf (blank (rawDescription item)) (msgDescription index) errors in
  let errors := pushIf (notPositive (rawQuantity item)) (msgQuantity index) errors in
  pushIf (negative (rawUnitAmount item)) (msgUnitAmount index) errors.

(** [items.forEach((item, index) => ...)], from [index] on. *)
Fixpoint forEachFrom (index : nat) (items : list RawLineItem)
  (errors : list jsstring) : list jsstring :=
  match items with
  | [] => errors
  | item :: rest => forEachFrom (S index) rest (checkItem item index errors)
  end.

Record Validation := { valid : bool; errors : list jsstring }.

Definition validateQuoteData (data : RawQuoteInput) : Validation :=
  let errors := [] in
  let errors := pushIf (blank (rawContactName data)) msgContactName errors in
  let errors :=
    match rawLineItems data with
    | None | Some [] => push msgNoLineItems errors
    | Some items => forEachFrom 0 items errors
    end in
  let errors :=
    match given (rawContactEmail data) with
    | Some email => pushIf (negb (test emailRegex email)) msgEmail errors
    | None => errors
    end in
  let errors :=
    match given (rawDate data) with
    | Some d => pushIf (negb (test dateRegex d)) msgDate errors
    | None => errors
    end in
  {| valid := Nat.eqb (List.length errors) 0; errors := errors |}.

(** [new Date()], as far as [toISOString] shows it. *)
Record Date := {
  year : Z;
  month : nat;
  day : nat;
  hours : nat;
  minutes : nat;
  seconds : nat;
  milliseconds : nat
}.

(** A number left-padded with zeros to [width] digits. *)
Definition pad (width : nat) (n : nat) : jsstring :=
  let ds := showNat n in
  repeat 48%N (width - List.length ds) ++ ds.

(** The year of an ISO date: four digits, or a sign and six digits outside
    of 0..9999. *)
Definition isoYear (y : Z) : jsstring :=
  if ((0 <=? y) && (y <=? 9999))%Z then pad 4 (Z.to_nat y)
  else (if (y <? 0)%Z then 45%N else 43%N) :: pad 6 (Z.to_nat (Z.abs y)).

(** [YYYY-MM-DD] *)
Definition isoDay (d : Date) : jsstring :=
  isoYear (year d) ++ u "-" ++ pad 2 (month d) ++ u "-" ++ pad 2 (day d).

(** [d.toISOString()]: [YYYY-MM-DDTHH:mm:ss.sssZ] *)
Definition toISOString (d : Date) : jsstring :=
  isoDay d ++ u "T" ++ pad 2 (hours d) ++ u ":" ++ pad 2 (minutes d)
    ++ u ":" ++ pad 2 (seconds d) ++ u "." ++ pad 3 (milliseconds d) ++ u "Z".

(** [a || b] on optional strings. *)
Definition orElse (a : option jsstring) (b : jsstring) : jsstring :=
  match given a with
  | Some s => s
  | None => b
  end.

(** [now] is what [new Date()] returns at the call. *)
Definition toQuoteData (now : Date) (input : ParsedQuoteInput)
  : ParsedQuoteInput :=
  {| contactName := trim (contactName input);
     contactEmail := option_map trim (contactEmail input);
     lineItems :=
       map (fun item =>
              {| description := trim (description item);
                 quantity := quantity item;
                 unitAmount := unitAmount item;
                 accountCode := Some (orElse (accountCode item) (u "200")) |})
           (lineItems input);
     reference := option_map trim (reference input);
     termsAndConditions := option_map trim (termsAndConditions input);
     date := Some (orElse (date input)
                          (hd [] (split 84%N (toISOString now)))) |}.

Record Totals := {
  subtotal : number;
  lineItemCount : nat;
  totalQuantity : number
}.

Definition calculateTotals (lineItems : list ParsedLineItem) : Totals :=
  {| subtotal :=
       fold_left (fun sum item => add sum (mul (quantity item) (unitAmount item)))
                 lineItems zero;
     lineItemCount := List.length lineItems;
     totalQuantity :=
       fold_left (fun sum item => add sum (quantity item)) lineItems zero |}.

(** The result of a function that may throw an [Error]. *)
Inductive result :=
| Ok (x : number)
| Throw (message : jsstring).

(** An argument of type [string | number]. *)
Inductive textOrNumber :=
| Num (x : number)
| Text (s : jsstring).

(** [[$€,]] *)
Definition currencyMark (c : char) : bool :=
  ((c =? 36) || (c =? 8364) || (c =? 44))%N.

Definition parseCurrency (value : textOrNumber) : result :=
  match value with
  | Num x => Ok x
  | Text s =>
      let cleaned := trim (removeAll currencyMark s) in
      let parsed := parseFloat cleaned in
      if isNaN parsed then Throw (u "Invalid currency format: " ++ s)
      else Ok parsed
  end.

(** [const [numerator, denominator] = parts]: a missing element is
    [undefined], and [isNaN(undefined)] holds. *)
Definition firstTwo (parts : list number) : option (number * number) :=
  match parts with
  | numerator :: denominator :: _ => Some (numerator, denominator)
  | _ => None
  end.

Definition parseQuantity (value : textOrNumber) : result :=
  match value with
  | Num x => Ok x
  | Text s =>
      if includes 47%N s then
        match firstTwo (map (fun n => parseFloat (trim n)) (split 47%N s)) with
        | Some (numerator, denominator) =>
            if isNaN numerator || isNaN denominator || eqb denominator zero
            then Throw (u "Invalid fraction format: " ++ s)
            else Ok (div numerator denominator)
        | None => Throw (u "Invalid fraction format: " ++ s)
        end
      else
        let parsed := parseFloat (trim s) in
        if isNaN parsed || leb parsed zero
        then Throw (u "Invalid quantity: " ++ s)
        else Ok parsed
  end.

End QuoteMapper.

Import QuoteMapper.

(** ** The summary of a quote

    [formatQuoteSummary], with [toFixed(2)] as the language defines it.
    Where a Number is put into the text as it is ([Number::toString]), the
    language leaves the last digit of the shortest decimal open: the
    summary is given for any such function. *)

Module QuoteSummary.

Section Summary.

(** [Number::toString] *)
Variable toString : number -> jsstring.

(** The decimal digits of a natural number, with no leading zero. *)
Definition digits (n : N) : jsstring :=
  digitsOfPos (S (N.to_nat (N.size n))) n [].

(** The integer [n] for which [n / 100] is nearest to [m * 2^e]; of two
    such, the larger. *)
Definition hundredths (m : positive) (e : Z) : N :=
  Z.to_N (if (0 <=? e)%Z then 100 * Zpos m * 2 ^ e
          else (200 * Zpos m + 2 ^ (- e)) / 2 ^ (1 - e))%Z.

(** [10^21 <= m * 2^e] *)
Definition atLeast1e21 (m : positive) (e : Z) : bool :=
  (if (0 <=? e)%Z then 10 ^ 21 <=? Zpos m * 2 ^ e
   else 10 ^ 21 * 2 ^ (- e) <=? Zpos m)%Z.

(** The digits of [n], filled with zeros to three at least, and a point
    before the last two. *)
Definition withPoint (n : N) : jsstring :=
  let m := digits n in
  let k := List.length m in
  let m := if (k <=? 2)%nat then repeat 48%N (3 - k) ++ m else m in
  let k := List.length m in
  firstn (k - 2) m ++ u "." ++ skipn (k - 2) m.

(** [x.toFixed(2)] *)
Definition toFixed2 (x : number) : jsstring :=
  match x with
  | S754_nan => u "NaN"
  | S754_infinity s => if s then u "-Infinity" else u "Infinity"
  | S754_zero _ => withPoint 0
  | S754_finite s m e =>
      (if s then u "-" else [])
      ++ (if atLeast1e21 m e then toString (S754_finite false m e)
          else withPoint (hundredths m e))
  end.

Definition lineFeed : jsstring := [10%N].

(** The multiplication sign, U+00D7. *)
Definition times : jsstring := [215%N].

(** The body of the [forEach] callback. *)
Definition addItem (item : ParsedLineItem) (index : nat) (summary : jsstring)
  : jsstring :=
  let lineTotal := mul (quantity item) (unitAmount item) in
  let summary :=
    summary ++ u "  " ++ showNat (index + 1) ++ u ". " ++ description item
            ++ lineFeed in
  summary ++ u "     Qty: " ++ toString (quantity item) ++ u " " ++ times
          ++ u " $" ++ toFixed2 (unitAmount item)
          ++ u " = $" ++ toFixed2 lineTotal ++ lineFeed.

(** [items.forEach((item, index) => ...)], from [index] on. *)
Fixpoint forEachItem (index : nat) (items : list ParsedLineItem)
  (summary : jsstring) : jsstring :=
  match items with
  | [] => summary
  | item :: rest => forEachItem (S index) rest (addItem item index summary)
  end.

Definition formatQuoteSummary (input : ParsedQuoteInput) : jsstring :=
  let totals := calculateTotals (lineItems input) in
  let summary := u "Quote for: " ++ contactName input ++ lineFeed in
  let summary :=
    match given (contactEmail input) with
    | Some email => summary ++ u "Email: " ++ email ++ lineFeed
    | None => summary
    end in
  let summary := summary ++ lineFeed ++ u "Line Items:" ++ lineFeed in
  let summary := forEachItem 0 (lineItems input) summary in
  let summary := summary ++ lineFeed ++ u "Subtotal: $" ++ toFixed2 (subtotal totals) in
  let summary :=
    match given (reference input) with
    | Some r => summary ++ lineFeed ++ u "Reference: " ++ r
    | None => summary
    end in
  match given (date input) with
  | Some d => summary ++ lineFeed ++ u "Date: " ++ d
  | None => summary
  end.

End Summary.

End QuoteSummary.

(** ** The authorization helper

    The callback server of [oauth-helper.ts]: its request handler, with
    the calls it makes to the Xero client and to the file system, and how
    the script ends.  What the handler does is written as the sequence of
    its actions; what the calls answer is given by the [World], and what
    [url.parse] makes of the URL comes with the request.  What is printed
    on the console is left out. *)

Module OAuthHelper.

Section Handler.

(** The token set of the Xero client ([any] in the source). *)
Variable TokenSet : Type.

(** A thrown value: an [Error] with its message, or something else. *)
Inductive thrown :=
| ErrorWith (message : jsstring)
| NotAnError.

(** An entry of the parsed query: missing, given once or given more than
    once. *)
Inductive queryValue :=
| QMissing
| QOne (s : jsstring)
| QMany (l : list jsstring).

(** What the handler reads of a parsed URL: the path, and the entry
    [code] of the query. *)
Record UrlObject := {
  pathname : option jsstring;
  code : queryValue
}.

(** [req.url], and what [url.parse(req.url || '', true)] makes of it: the
    parsed URL, or a thrown value (a [URIError] for credentials in the URL
    that cannot be decoded). *)
Record Request := {
  url : option jsstring;
  parsed : UrlObject + thrown
}.

Record Tenant := {
  tenantId : jsstring;
  tenantName : jsstring
}.

(** What the calls of the handler answer: a value, or a thrown value
    ([writeFile]: serializing the credentials and writing them). *)
Record World := {
  apiCallback : TokenSet + thrown;
  updateTenants : option (list Tenant) + thrown;
  writeFile : unit + thrown;
  now : Date
}.

(** [{ tokenSet, tenantId, updatedAt }] *)
Record Credentials := {
  tokenSet : TokenSet;
  savedTenantId : jsstring;
  updatedAt : jsstring
}.

Inductive action :=
| CallApiCallback (url : jsstring)
| CallUpdateTenants
| WriteCredentials (credentials : Credentials)
| WriteHead (status : nat) (contentType : option jsstring)
| End (body : jsstring)
| CloseServer
| Resolve
| Reject (error : thrown).

(** A computation that acts and then returns or throws. *)
Definition M (A : Type) : Type := (list action * (A + thrown))%type.

Definition ret (A : Type) (a : A) : M A := ([], inl a).

Definition bind (A B : Type) (m : M A) (f : A -> M B) : M B :=
  let (t, r) := m in
  match r with
  | inl a => let (t', r') := f a in (t ++ t', r')
  | inr e => (t, inr e)
  end.

Definition emit (a : action) : M unit := ([a], inl tt).

Definition throw (A : Type) (e : thrown) : M A := ([], inr e).

(** An awaited call, with what the world answers. *)
Definition call (A : Type) (a : action) (answer : A + thrown) : M A :=
  ([a], answer).

(** [try { m } catch (error) { h error }] *)
Definition tryCatch (m : M unit) (h : thrown -> M unit) : M unit :=
  let (t, r) := m in
  match r with
  | inl _ => (t, inl tt)
  | inr e => let (t', r') := h e in (t ++ t', r')
  end.

Notation "x <- m ;; k" := (bind m (fun x => k))
  (at level 61, m at next level, right associativity).
Notation "m ;;; k" := (bind m (fun _ => k))
  (at level 61, right associativity).

(** [if (code)] *)
Definition truthy (q : queryValue) : bool :=
  match q with
  | QMissing => false
  | QOne [] => false
  | _ => true
  end.

(** [req.url || ''] *)
Definition urlOrEmpty (req : Request) : jsstring :=
  match url req with
  | Some (c :: s) => c :: s
  | _ => []
  end.

(** [url.parse(req.url || '', true)] *)
Definition parse (req : Request) : M UrlObject := ([], parsed req).

(** [reqUrl.pathname === '/callback'] *)
Definition isCallback (reqUrl : UrlObject) : bool :=
  match pathname reqUrl with
  | Some p => str_eqb p (u "/callback")
  | None => false
  end.

Definition html : option jsstring := Some (u "text/html").

(** [error instanceof Error ? error.message : 'Unknown error'] *)
Definition messageOf (e : thrown) : jsstring :=
  match e with
  | ErrorWith message => message
  | NotAnError => u "Unknown error"
  end.

Definition quote : jsstring := [34%N].
Definition newline : jsstring := [10%N].

(** The page of the answer 200. *)
Definition successPage (t : Tenant) : jsstring :=
  newline
  ++ u "            <html>" ++ newline
  ++ u "              <head><title>Xero Authorization Success</title></head>" ++ newline
  ++ u "              <body style=" ++ quote
  ++ u "font-family: sans-serif; max-width: 600px; margin: 50px auto; padding: 20px;"
  ++ quote ++ u ">" ++ newline
  ++ u "                <h1 style=" ++ quote ++ u "color: #13B5EA;" ++ quote ++ u ">"
  ++ [10003%N] ++ u " Authorization Successful</h1>" ++ newline
  ++ u "                <p>You've successfully connected to Xero organisation: <strong>"
  ++ tenantName t ++ u "</strong></p>" ++ newline
  ++ u "                <p>Tenant ID: <code>" ++ tenantId t ++ u "</code></p>" ++ newline
  ++ u "                <p>You can close this window and return to your terminal.</p>"
  ++ newline
  ++ u "              </body>" ++ newline
  ++ u "            </html>" ++ newline
  ++ u "          ".

(** [saveTokens(tokenSet, tenantId)] *)
Definition saveTokens (w : World) (tokens : TokenSet) (id : jsstring) : M unit :=
  let credentials :=
    {| tokenSet := tokens; savedTenantId := id;
       updatedAt := toISOString (now w) |} in
  call (WriteCredentials credentials) (writeFile w).

(** The body of the [try] of the request handler. *)
Definition answer (w : World) (req : Request) : M unit :=
  reqUrl <- parse req ;;
  if isCallback reqUrl then
    if negb (truthy (code reqUrl)) then
      emit (WriteHead 400 html) ;;;
      emit (End (u "<h1>Error: No authorization code received</h1>")) ;;;
      emit CloseServer ;;;
      emit (Reject (ErrorWith (u "No authorization code received")))
    else
      tokens <- call (CallApiCallback (urlOrEmpty req)) (apiCallback w) ;;
      tenants <- call CallUpdateTenants (updateTenants w) ;;
      match tenants with
      | None | Some [] => throw unit (ErrorWith (u "No Xero organisations found"))
      | Some (first :: _) =>
          saveTokens w tokens (tenantId first) ;;;
          emit (WriteHead 200 html) ;;;
          emit (End (successPage first)) ;;;
          emit CloseServer ;;;
          emit Resolve
      end
  else
    emit (WriteHead 404 None) ;;;
    emit (End (u "Not Found")).

(** The request handler: what it does, in order. *)
Definition onRequest (w : World) (req : Request) : list action :=
  fst (tryCatch (answer w req)
         (fun error =>
            emit (WriteHead 500 html) ;;;
            emit (End (u "<h1>Error: " ++ messageOf error ++ u "</h1>")) ;;;
            emit CloseServer ;;;
            emit (Reject error))).

(** How the promise of [startAuthFlow] is settled by a run: the first
    [resolve] or [reject] counts. *)
Fixpoint settled (t : list action) : option (unit + thrown) :=
  match t with
  | [] => None
  | Resolve :: _ => Some (inl tt)
  | Reject e :: _ => Some (inr e)
  | _ :: t' => settled t'
  end.

(** [startAuthFlow().then(() => process.exit(0)).catch(() => process.exit(1))]:
    the exit code, if the script ends. *)
Definition exitCode (t : list action) : option nat :=
  match settled t with
  | Some (inl _) => Some 0
  | Some (inr _) => Some 1
  | None => None
  end.

(** The statuses and the credentials of a run. *)
Definition statuses (t : list action) : list nat :=
  flat_map (fun a => match a with WriteHead s _ => [s] | _ => [] end) t.

Definition written (t : list action) : list Credentials :=
  flat_map (fun a => match a with WriteCredentials c => [c] | _ => [] end) t.

Definition bodies (t : list action) : list jsstring :=
  flat_map (fun a => match a with End b => [b] | _ => [] end) t.

End Handler.

End OAuthHelper.

(** ** The test script

    The script that creates a sample quote to verify the setup: it
    validates the sample, prints its summary, connects to Xero and has the
    quote created.  The Xero service is another module: what its calls
    answer is given by the [World].  Of what is printed, the summary is
    kept. *)

Module TestScript.

Section Script.

(** [Number::toString], for the summary. *)
Variable toString : number -> jsstring.

(** A thrown value, and what [createQuote] resolves to. *)
Variables Thrown QuoteResult : Type.

Record World := {
  loaded : Date;
  newService : unit + Thrown;
  initialize : unit + Thrown;
  createQuote : ParsedQuoteInput -> QuoteResult + Thrown;
  called : Date
}.

(** [sampleQuote], made when the script is loaded. *)
Definition sampleQuote (loaded : Date) : ParsedQuoteInput :=
  {| contactName := u "Test Customer Ltd";
     contactEmail := Some (u "test@example.com");
     lineItems :=
       [ {| description := u "Website Design & Development";
            quantity := ofZ 1; unitAmount := ofZ 2500; accountCode := None |};
         {| description := u "Hosting Setup (annual)";
            quantity := ofZ 1; unitAmount := ofZ 250; accountCode := None |};
         {| description := u "Training Session";
            quantity := ofZ 2; unitAmount := ofZ 150; accountCode := None |} ];
     reference := Some (u "TEST-001");
     termsAndConditions := Some (u "Payment due within 30 days");
     date := Some (hd [] (split 84%N (toISOString loaded))) |}.

Inductive event :=
| PrintSummary (text : jsstring)
| NewService
| Initialize
| CreateQuote (quoteData : ParsedQuoteInput)
| Exit (code : nat).

(** [testQuoteCreation()] with the [then] and [catch] that follow it: a
    run ends with [process.exit]. *)
Definition testQuoteCreation (w : World) : list event :=
  let sample := sampleQuote (loaded w) in
  let validation := validateQuoteData (rawInput sample) in
  if negb (valid validation) then [Exit 1]
  else
    PrintSummary (QuoteSummary.formatQuoteSummary toString sample) ::
    NewService ::
    match newService w with
    | inr _ => [Exit 1]
    | inl _ =>
        Initialize ::
        match initialize w with
        | inr _ => [Exit 1]
        | inl _ =>
            let quoteData := toQuoteData (called w) sample in
            CreateQuote quoteData ::
            match createQuote w quoteData with
            | inr _ => [Exit 1]
            | inl _ => [Exit 0]
            end
        end
    end.

(** The exit codes and the quotes sent of a run. *)
Definition exits (t : list event) : list nat :=
  flat_map (fun e => match e with Exit c => [c] | _ => [] end) t.

Definition sent (t : list event) : list ParsedQuoteInput :=
  flat_map (fun e => match e with CreateQuote q => [q] | _ => [] end) t.

End Script.

End TestScript.

(** * Notions used in the statements *)

(** ** The parts of the error list *)

(** Equality of strings is decidable. *)
Definition jsstring_eq_dec : forall s t : jsstring, {s = t} + {s <> t} :=
  list_eq_dec N.eq_dec.

(** What each of the four parts of [validateQuoteData] pushes. *)
Definition nameErrors (data : RawQuoteInput) : list jsstring :=
  pushIf (blank (rawContactName data)) msgContactName [].

Definition itemsErrors (data : RawQuoteInput) : list jsstring :=
  match rawLineItems data with
  | None | Some [] => [msgNoLineItems]
  | Some items => forEachFrom 0 items []
  end.

Definition emailErrors (data : RawQuoteInput) : list jsstring :=
  match given (rawContactEmail data) with
  | Some email => pushIf (negb (test emailRegex email)) msgEmail []
  | None => []
  end.

Definition dateErrors (data : RawQuoteInput) : list jsstring :=
  match given (rawDate data) with
  | Some d => pushIf (negb (test dateRegex d)) msgDate []
  | None => []
  end.

(** A string that does not begin with a unit of [p]. *)
Definition headFree (p : char -> bool) (s : jsstring) : Prop :=
  match s with
  | [] => True
  | c :: _ => p c = false
  end.

(** ** The constraints of the data model

    Written from the specification (section 3 and 4.4), independently of
    the code of the validator. *)

(** Some unit of the string is not white space. *)
Definition nonBlank (s : jsstring) : Prop :=
  exists c, In c s /\ isWhiteSpace c = false.

(** A string that is missing, or made of white space only. *)
Definition missingOrBlank (s : option jsstring) : Prop :=
  match s with
  | None => True
  | Some s' => forallb isWhiteSpace s' = true
  end.

(** A value that is not a number, or a number [<= 0]. *)
Definition notNumberOrNotPositive (v : value) : Prop :=
  isNumber v = false \/ exists x, v = VNum x /\ leb x zero = true.

(** A value that is not a number, or a number [< 0]. *)
Definition notNumberOrNegative (v : value) : Prop :=
  isNumber v = false \/ exists x, v = VNum x /\ ltb x zero = true.

(** [local@domain.tld]: three non-empty parts without white space or [@]. *)
Definition emailPart (p : jsstring) : Prop :=
  p <> [] /\ Forall (fun c => isWhiteSpace c = false /\ c <> 64%N) p.
Definition emailShape (e : jsstring) : Prop :=
  exists l d t,
    e = l ++ 64%N :: d ++ 46%N :: t /\ emailPart l /\ emailPart d /\ emailPart t.

(** [YYYY-MM-DD]: ten units, digits but for the two hyphens. *)
Definition isDateShape (d : jsstring) : bool :=
  match d with
  | [y1; y2; y3; y4; h1; m1; m2; h2; d1; d2] =>
      isDigit y1 && isDigit y2 && isDigit y3 && isDigit y4 && char_eqb h1 45%N
      && isDigit m1 && isDigit m2 && char_eqb h2 45%N && isDigit d1 && isDigit d2
  | _ => false
  end.

Record validItem (item : RawLineItem) : Prop := {
  valid_description : exists d, rawDescription item = Some d /\ nonBlank d;
  valid_quantity : exists q, rawQuantity item = VNum q /\ ltb zero q = true;
  valid_unitAmount : exists a, rawUnitAmount item = VNum a /\ leb zero a = true
}.

Record validRequest (data : RawQuoteInput) : Prop := {
  valid_contactName : exists n, rawContactName data = Some n /\ nonBlank n;
  valid_lineItems :
    exists items, rawLineItems data = Some items /\ items <> []
                  /\ Forall validItem items;
  valid_contactEmail : forall e, rawContactEmail data = Some e -> emailShape e;
  valid_date : forall d, rawDate data = Some d -> isDateShape d = true
}.

(** The message about the item at the 1-based position [p]. *)
Definition itemMessage (p : nat) (what : string) : jsstring :=
  u "Line item " ++ showNat p ++ u what.

(** ** What the validator lets through

    The checks of [validateQuoteData], read as conditions on the data:
    they differ from the constraints of the data model in what they let
    through (a quantity is only required not to be [<= 0], an empty e-mail
    address or date is not looked at). *)

Record acceptedItem (item : RawLineItem) : Prop := {
  accepted_description : exists d, rawDescription item = Some d /\ nonBlank d;
  accepted_quantity : exists q, rawQuantity item = VNum q /\ leb q zero = false;
  accepted_unitAmount : exists a, rawUnitAmount item = VNum a /\ ltb a zero = false
}.

Record accepted (data : RawQuoteInput) : Prop := {
  accepted_contactName : exists n, rawContactName data = Some n /\ nonBlank n;
  accepted_lineItems :
    exists items, rawLineItems data = Some items /\ items <> []
                  /\ Forall acceptedItem items;
  accepted_contactEmail :
    forall e, rawContactEmail data = Some e -> e <> [] -> emailShape e;
  accepted_date :
    forall d, rawDate data = Some d -> d <> [] -> isDateShape d = true
}.

(** The item at the 1-based position [p] of a request. *)
Definition itemAt (data : RawQuoteInput) (p : nat) (item : RawLineItem) : Prop :=
  exists items,
    rawLineItems data = Some items /\ 1 <= p /\ nth_error items (p - 1) = Some item.

(** A day of the calendar, as [new Date()] gives it. *)
Definition calendarDay (d : Date) : Prop :=
  1 <= month d <= 12 /\ 1 <= day d <= 31.

(** What a parser returns, whatever it says when it raises. *)
Definition outcome (r : result) : option number :=
  match r with
  | Ok x => Some x
  | Throw _ => None
  end.

(** ** Runs of the authorization callback *)

(** The credentials [saveTokens] writes for a token set and a tenant. *)
Definition credentialsFor (TokenSet : Type) (w : OAuthHelper.World TokenSet)
  (tokens : TokenSet) (t : OAuthHelper.Tenant) : OAuthHelper.Credentials TokenSet :=
  {| OAuthHelper.tokenSet := tokens;
     OAuthHelper.savedTenantId := OAuthHelper.tenantId t;
     OAuthHelper.updatedAt := toISOString (OAuthHelper.now w) |}.

(** The request asks for [/callback], with a code or without one. *)
Definition asksCallback (req : OAuthHelper.Request) (withCode : bool) : Prop :=
  exists reqUrl,
    OAuthHelper.parsed req = inl reqUrl
    /\ OAuthHelper.isCallback reqUrl = true
    /\ OAuthHelper.truthy (OAuthHelper.code reqUrl) = withCode.

(** The request asks for another path. *)
Definition asksElsewhere (req : OAuthHelper.Request) : Prop :=
  exists reqUrl,
    OAuthHelper.parsed req = inl reqUrl /\ OAuthHelper.isCallback reqUrl = false.

(** Every step of the success path went well. *)
Definition allWentWell (TokenSet : Type) (w : OAuthHelper.World TokenSet)
  (req : OAuthHelper.Request) (tokens : TokenSet) (first : OAuthHelper.Tenant) : Prop :=
  asksCallback req true
  /\ OAuthHelper.apiCallback w = inl tokens
  /\ (exists others, OAuthHelper.updateTenants w = inl (Some (first :: others)))
  /\ OAuthHelper.writeFile w = inl tt.

(** What can fail on the way, and with what: parsing the URL, the token
    exchange, asking for the organisations, an empty answer to that, and
    writing the credentials. *)
Inductive fails (TokenSet : Type) (w : OAuthHelper.World TokenSet)
  (req : OAuthHelper.Request) : OAuthHelper.thrown -> Prop :=
| ParseFails e :
    OAuthHelper.parsed req = inr e -> fails w req e
| ExchangeFails e :
    asksCallback req true -> OAuthHelper.apiCallback w = inr e -> fails w req e
| TenantsFail tokens e :
    asksCallback req true -> OAuthHelper.apiCallback w = inl tokens ->
    OAuthHelper.updateTenants w = inr e -> fails w req e
| NoTenants tokens :
    asksCallback req true -> OAuthHelper.apiCallback w = inl tokens ->
    OAuthHelper.updateTenants w = inl None
    \/ OAuthHelper.updateTenants w = inl (Some []) ->
    fails w req (OAuthHelper.ErrorWith (u "No Xero organisations found"))
| WriteFails tokens first others e :
    asksCallback req true -> OAuthHelper.apiCallback w = inl tokens ->
    OAuthHelper.updateTenants w = inl (Some (first :: others)) ->
    OAuthHelper.writeFile w = inr e -> fails w req e.

(** The page of the answer 500. *)
Definition failurePage (e : OAuthHelper.thrown) : jsstring :=
  u "<h1>Error: " ++ OAuthHelper.messageOf e ++ u "</h1>".

(** ** Text that is, or begins with, a number *)

(** A decimal number, written out in full: an optional sign, digits with
    an optional fraction or a fraction alone, and an optional exponent. *)
Definition opt (r : regex) : regex := Alt Eps r.
Definition signRegex : regex := opt (Alt (Chr 43%N) (Chr 45%N)).
Definition unsignedDecimal : regex :=
  Cat (Alt (Cat (Plus (Cls isDigit))
                (opt (Cat (Chr 46%N) (Star (Cls isDigit)))))
           (Cat (Chr 46%N) (Plus (Cls isDigit))))
      (opt (Cat (Alt (Chr 101%N) (Chr 69%N))
                (Cat signRegex (Plus (Cls isDigit))))).
Definition decimalNumber : regex := Cat signRegex unsignedDecimal.
Definition isDecimalNumber (s : jsstring) : bool := test decimalNumber s.

(** The units of a word, one after the other. *)
Definition word (w : jsstring) : regex :=
  fold_right (fun c r => Cat (Chr c) r) Eps w.

(** [StrDecimalLiteral], the grammar of what [parseFloat] reads: a decimal
    number or Infinity, with an optional sign. *)
Definition strDecimalLiteral : regex :=
  Cat signRegex (Alt (word (u "Infinity")) unsignedDecimal).

(** The text begins with a number: after an optional sign comes a digit,
    a dot and a digit, or the word Infinity. *)
Definition unsignedStart (s : jsstring) : bool :=
  startsWith (u "Infinity") s
  || match s with
     | c :: r =>
         isDigit c
         || char_eqb c 46%N && match r with d :: _ => isDigit d | [] => false end
     | [] => false
     end.
Definition beginsWithNumber (s : jsstring) : bool :=
  match s with
  | c :: r =>
      if char_eqb c 43%N || char_eqb c 45%N then unsignedStart r
      else unsignedStart s
  | [] => false
  end.

(** A unit that would continue a run of digits or open an exponent. *)
Definition continuesNumber (c : char) : bool :=
  isDigit c || char_eqb c 101%N || char_eqb c 69%N.

(** The pound sign. *)
Definition pound : char := 163%N.

(** The currency symbols the documentation names ([£], [$], [€]) and the
    thousands separator. *)
Definition symbolOrSeparator (c : char) : bool :=
  ((c =? 163) || (c =? 36) || (c =? 8364) || (c =? 44))%N.

(** ** Whole numbers

    The non-negative integers below 2^53 are Numbers, and sums and
    products of them that stay below 2^53 are computed without
    rounding. *)

(** The Number of a positive integer below 2^53: its bits, shifted up to
    53 digits. *)
Definition canonical (sx : bool) (p : positive) : number :=
  let d := Zpos (digits2_pos p) in
  S754_finite sx (Pos.shiftl p (Z.to_N (53 - d))) (d - 53).

(** The integer part of a finite Number. *)
Definition toZ (x : number) : Z :=
  match x with
  | S754_finite s m e =>
      let v := Z.shiftl (Zpos m) e in if s then (- v)%Z else v
  | _ => 0%Z
  end.

(** A Number that is a non-negative integer below 2^53. *)
Definition whole (x : number) : Prop :=
  (0 <= toZ x < 2 ^ 53)%Z /\ x = ofZ (toZ x).

Definition wholeItem (item : ParsedLineItem) : Prop :=
  whole (quantity item) /\ whole (unitAmount item).

(** The totals of whole items, computed on the integers. *)
Definition exactSubtotal (l : list ParsedLineItem) : Z :=
  fold_right (fun item s => (toZ (quantity item) * toZ (unitAmount item) + s)%Z)
             0%Z l.
Definition exactQuantity (l : list ParsedLineItem) : Z :=
  fold_right (fun item s => (toZ (quantity item) + s)%Z) 0%Z l.

(** ** Binary fractions

    The same holds of the multiples of a power of two [2^(-j)], such as
    0.5 and 0.25: their sums and products are computed without rounding
    while the numerators stay below 2^53. *)

(** The Number [n * 2^(-j)]: [n] over [2^j]. *)
Definition fraction (j : Z) (n : Z) : number :=
  binary_normalize prec emax n (- j) false.

(** The numerator of a finite Number over [2^j]. *)
Definition numerator (j : Z) (x : number) : Z :=
  match x with
  | S754_finite s m e =>
      let v := Z.shiftl (Zpos m) (e + j) in if s then (- v)%Z else v
  | _ => 0%Z
  end.

(** A Number that is a non-negative multiple of [2^(-j)], with a numerator
    below 2^53. *)
Definition binaryFraction (j : Z) (x : number) : Prop :=
  (0 <= numerator j x < 2 ^ 53)%Z /\ x = fraction j (numerator j x).

Definition fractionItem (jq ju : Z) (item : ParsedLineItem) : Prop :=
  binaryFraction jq (quantity item) /\ binaryFraction ju (unitAmount item).

(** The totals of such items, computed on the numerators. *)
Definition subtotalNumerator (jq ju : Z) (l : list ParsedLineItem) : Z :=
  fold_right (fun item s =>
                (numerator jq (quantity item) * numerator ju (unitAmount item) + s)%Z)
             0%Z l.
Definition quantityNumerator (jq : Z) (l : list ParsedLineItem) : Z :=
  fold_right (fun item s => (numerator jq (quantity item) + s)%Z) 0%Z l.

(** The positive number [p], shifted to 53 bits, over [2^j]. *)
Definition canonicalOver (j : Z) (sx : bool) (p : positive) : number :=
  let d := Zpos (digits2_pos p) in
  S754_finite sx (Pos.shiftl p (Z.to_N (53 - d))) (d - 53 - j).

(** ** Runs of the test script *)

(** The sample quote as it is sent: with the default account code. *)
Definition sampleSent (loaded : Date) : ParsedQuoteInput :=
  {| contactName := u "Test Customer Ltd";
     contactEmail := Some (u "test@example.com");
     lineItems :=
       map (fun item =>
              {| description := description item; quantity := quantity item;
                 unitAmount := unitAmount item; accountCode := Some (u "200") |})
           (lineItems (TestScript.sampleQuote loaded));
     reference := Some (u "TEST-001");
     termsAndConditions := Some (u "Payment due within 30 days");
     date := Some (isoDay loaded) |}.

(** ** What the summary shows *)

(** A whole amount, as the summary shows it. *)
Definition shown (n : Z) : jsstring :=
  QuoteSummary.digits (Z.to_N n) ++ u ".00".

(** The two lines of an item, its amounts computed on the integers. *)
Definition wholeLines (toString : number -> jsstring) (position : nat)
  (item : ParsedLineItem) : jsstring :=
  u "  " ++ showNat position ++ u ". " ++ description item ++ QuoteSummary.lineFeed
  ++ u "     Qty: " ++ toString (quantity item) ++ u " " ++ QuoteSummary.times
  ++ u " $" ++ shown (toZ (unitAmount item))
  ++ u " = $" ++ shown (toZ (quantity item) * toZ (unitAmount item))
  ++ QuoteSummary.lineFeed.

(** A part of the summary that is there for a non-empty string only. *)
Definition optionalPart (before : jsstring) (o : option jsstring) (after : jsstring)
  : jsstring :=
  match given o with
  | Some s => before ++ s ++ after
  | None => []
  end.

(** The summary of a quote of whole numbers, its amounts computed on the
    integers. *)
Definition wholeSummary (toString : number -> jsstring) (input : ParsedQuoteInput)
  : jsstring :=
  u "Quote for: " ++ contactName input ++ QuoteSummary.lineFeed
  ++ optionalPart (u "Email: ") (contactEmail input) QuoteSummary.lineFeed
  ++ QuoteSummary.lineFeed ++ u "Line Items:" ++ QuoteSummary.lineFeed
  ++ List.concat (map (fun entry => wholeLines toString (fst entry) (snd entry))
                 (combine (seq 1 (List.length (lineItems input))) (lineItems input)))
  ++ QuoteSummary.lineFeed ++ u "Subtotal: $" ++ shown (exactSubtotal (lineItems input))
  ++ optionalPart (QuoteSummary.lineFeed ++ u "Reference: ") (reference input) []
  ++ optionalPart (QuoteSummary.lineFeed ++ u "Date: ") (date input) [].

(** [n] hundredths is the amount nearest to [m * 2^e], and the larger one
    of two: [n - 1/2 <= 100 * m * 2^e < n + 1/2]. *)
Definition nearestHundredths (n : Z) (m : positive) (e : Z) : Prop :=
  ((2 * n - 1) * 2 ^ Z.max 0 (- e) <= 200 * Zpos m * 2 ^ Z.max 0 e
   /\ 200 * Zpos m * 2 ^ Z.max 0 e < (2 * n + 1) * 2 ^ Z.max 0 (- e))%Z.

(** ** Normalized requests *)

(** No white space at either end. *)
Definition trimmed (s : jsstring) : Prop :=
  headFree isWhiteSpace s /\ headFree isWhiteSpace (rev s).

Definition trimmedIfAny (o : option jsstring) : Prop :=
  match o with
  | Some s => trimmed s
  | None => True
  end.

(** An optional string that is set: there, and not empty. *)
Definition present (o : option jsstring) : Prop :=
  exists s, o = Some s /\ s <> [].

Record normalizedItem (item : ParsedLineItem) : Prop := {
  normalized_description : trimmed (description item);
  normalized_accountCode : present (accountCode item)
}.

Record normalized (r : ParsedQuoteInput) : Prop := {
  normalized_contactName : trimmed (contactName r);
  normalized_contactEmail : trimmedIfAny (contactEmail r);
  normalized_lineItems : Forall normalizedItem (lineItems r);
  normalized_reference : trimmedIfAny (reference r);
  normalized_termsAndConditions : trimmedIfAny (termsAndConditions r);
  normalized_date : present (date r)
}.

(** The units of an ISO day: digits, and the signs of the year. *)
Definition dayUnit (c : char) : Prop :=
  isDigit c = true \/ c = 45%N \/ c = 43%N.

(** ** Sample data *)

(** The request of the end-to-end example. *)
Definition acme : ParsedQuoteInput :=
  {| contactName := u "Acme Ltd";
     contactEmail := None;
     lineItems :=
       [ {| description := u "Consulting"; quantity := ofZ 5;
            unitAmount := ofZ 150; accountCode := None |};
         {| description := u "Travel"; quantity := ofZ 2;
            unitAmount := ofZ 75; accountCode := None |} ];
     reference := None;
     termsAndConditions := None;
     date := None |}.

(** The same request with an e-mail address and a date. *)
Definition acmeDated (d : jsstring) : ParsedQuoteInput :=
  {| contactName := contactName acme;
     contactEmail := Some (u "sales@acme.example");
     lineItems := lineItems acme;
     reference := Some (u "REF-123");
     termsAndConditions := None;
     date := Some d |}.

(** A request with nothing right: no name, an item with a blank
    description, quantity 0 and a string as unit amount. *)
Definition broken : RawQuoteInput :=
  {| rawContactName := None;
     rawContactEmail := Some (u "nobody");
     rawLineItems :=
       Some [ {| rawDescription := Some (u "Widget"); rawQuantity := VNum (ofZ 1);
                 rawUnitAmount := VNum (ofZ 3); rawAccountCode := None |};
              {| rawDescription := Some (u "  "); rawQuantity := VNum (ofZ 0);
                 rawUnitAmount := VStr (u "12"); rawAccountCode := None |} ];
     rawReference := None;
     rawTermsAndConditions := None;
     rawDate := Some (u "tomorrow") |}.

(** [n] tenths of an hour, at 1 an hour. *)
Definition tenths (n : N) : ParsedLineItem :=
  {| description := u "hours"; quantity := ofDecimal false n (-1);
     unitAmount := ofZ 1; accountCode := None |}.

(** [nq / 2^jq] units at [nu / 2^ju] each. *)
Definition portions (jq ju nq nu : Z) : ParsedLineItem :=
  {| description := u "portions"; quantity := fraction jq nq;
     unitAmount := fraction ju nu; accountCode := None |}.

(** [q] units at [a] each. *)
Definition units (q a : Z) : ParsedLineItem :=
  {| description := u "units"; quantity := ofZ q; unitAmount := ofZ a;
     accountCode := None |}.

(** A request that is right but for its quantity, which is [NaN]. *)
Definition nanQuantity : RawQuoteInput :=
  {| rawContactName := Some (u "Acme Ltd");
     rawContactEmail := None;
     rawLineItems :=
       Some [ {| rawDescription := Some (u "Consulting"); rawQuantity := VNum NaN;
                 rawUnitAmount := VNum (ofZ 150); rawAccountCode := None |} ];
     rawReference := None;
     rawTermsAndConditions := None;
     rawDate := None |}.

(** A request whose numbers are not numbers one can count with. *)
Definition unbounded : RawQuoteInput :=
  {| rawContactName := Some (u "Acme Ltd");
     rawContactEmail := None;
     rawLineItems :=
       Some [ {| rawDescription := Some (u "Consulting"); rawQuantity := VNum NaN;
                 rawUnitAmount := VNum (Infinity false); rawAccountCode := None |} ];
     rawReference := None;
     rawTermsAndConditions := None;
     rawDate := None |}.

(** [Number::toString] as it is on whole numbers. *)
Definition wholeToString (x : number) : jsstring :=
  QuoteSummary.digits (Z.to_N (toZ x)).

(** The Number nearest to 1.005. *)
Definition onePointOhOhFive : number :=
  S754_finite false 4526117625507348 (-52).

(** A request with a quantity that is not a number one can count with. *)
Definition spoiled : ParsedQuoteInput :=
  {| contactName := u "Acme Ltd";
     contactEmail := None;
     lineItems :=
       [ units 5 150;
         {| description := u "hours"; quantity := NaN;
            unitAmount := ofZ 75; accountCode := None |} ];
     reference := Some (u "REF-123");
     termsAndConditions := None;
     date := None |}.

(** A moment of 3 November 2026. *)
Definition someDay : Date :=
  {| year := 2026; month := 11; day := 3;
     hours := 9; minutes := 5; seconds := 0; milliseconds := 7 |}.

(** The callback of a granted authorization, and a world in which every
    call succeeds. *)
Definition grantedRequest : OAuthHelper.Request :=
  {| OAuthHelper.url := Some (u "/callback?code=abc123");
     OAuthHelper.parsed :=
       inl {| OAuthHelper.pathname := Some (u "/callback");
              OAuthHelper.code := OAuthHelper.QOne (u "abc123") |} |}.

Definition acmeTenant : OAuthHelper.Tenant :=
  {| OAuthHelper.tenantId := u "tenant-1"; OAuthHelper.tenantName := u "Acme Ltd" |}.

Definition goodWorld : OAuthHelper.World jsstring :=
  {| OAuthHelper.apiCallback := inl (u "token-set");
     OAuthHelper.updateTenants := inl (Some [acmeTenant]);
     OAuthHelper.writeFile := inl tt;
     OAuthHelper.now := someDay |}.

(** A world in which the organisation list is empty. *)
Definition emptyWorld : OAuthHelper.World jsstring :=
  {| OAuthHelper.apiCallback := inl (u "token-set");
     OAuthHelper.updateTenants := inl (Some []);
     OAuthHelper.writeFile := inl tt;
     OAuthHelper.now := someDay |}.

(** A Xero service that answers every call. *)
Definition readyWorld : TestScript.World jsstring jsstring :=
  {| TestScript.loaded := someDay;
     TestScript.newService := inl tt;
     TestScript.initialize := inl tt;
     TestScript.createQuote := fun _ => inl (u "QU-0001");
     TestScript.called := someDay |}.

(** * Properties *)

(** ** Strings *)

Section StringFacts.

Lemma str_eqb_eq (s t : jsstring) : str_eqb s t = true <-> s = t.
Proof.
  revert t; induction s as [|a s IH]; intros [|b t]; simpl;
    try (split; [discriminate | congruence]); try tauto.
  unfold char_eqb. rewrite andb_true_iff, N.eqb_eq, IH.
  split; [intros [-> ->]; reflexivity | intros [= -> ->]; auto].
Qed.

Lemma str_eqb_nil (s : jsstring) : str_eqb s [] = true <-> s = [].
Proof. apply str_eqb_eq. Qed.

Lemma dropWhile_headFree p s : headFree p (dropWhile p s).
Proof.
  induction s as [|c s IH]; simpl; [exact I|].
  destruct (p c) eqn:E; [exact IH | exact E].
Qed.

Lemma dropWhile_fixed p s : headFree p s -> dropWhile p s = s.
Proof. destruct s as [|c s]; simpl; [reflexivity | intros ->; reflexivity]. Qed.

Lemma dropWhile_app_keep p s c t :
  p c = false -> exists t', dropWhile p (s ++ c :: t) = t' ++ c :: t.
Proof.
  intros Hc. induction s as [|a s [t' IH]]; simpl.
  - rewrite Hc. now exists [].
  - destruct (p a); [now exists t' | now exists (a :: s)].
Qed.

Lemma dropWhile_all p s : forallb p s = true -> dropWhile p s = [].
Proof.
  induction s as [|c s IH]; simpl; [reflexivity|].
  destruct (p c); simpl; [exact IH | discriminate].
Qed.

Lemma trimEnd_headFree s : headFree isWhiteSpace s -> headFree isWhiteSpace (trimEnd s).
Proof.
  unfold trimEnd. destruct s as [|c s]; simpl; [trivial|]. intros Hc.
  destruct (dropWhile_app_keep isWhiteSpace (rev s) c [] Hc) as [t' ->].
  rewrite rev_app_distr. simpl. exact Hc.
Qed.

Lemma trim_headFree s : headFree isWhiteSpace (trim s).
Proof. apply trimEnd_headFree, dropWhile_headFree. Qed.

Lemma trim_rev_headFree s : headFree isWhiteSpace (rev (trim s)).
Proof.
  unfold trim, trimEnd. rewrite rev_involutive. apply dropWhile_headFree.
Qed.

(** A string with no white space at either end is left alone. *)
Lemma trim_fixed s :
  headFree isWhiteSpace s -> headFree isWhiteSpace (rev s) -> trim s = s.
Proof.
  intros H1 H2. unfold trim, trimEnd, trimStart.
  rewrite (dropWhile_fixed _ _ H1), (dropWhile_fixed _ _ H2).
  apply rev_involutive.
Qed.

Lemma trim_idempotent s : trim (trim s) = trim s.
Proof. apply trim_fixed; [apply trim_headFree | apply trim_rev_headFree]. Qed.

Lemma trim_all_space s : forallb isWhiteSpace s = true -> trim s = [].
Proof.
  intros H. unfold trim, trimStart. now rewrite (dropWhile_all _ _ H).
Qed.

Lemma dropWhile_nil_all p s : dropWhile p s = [] -> forallb p s = true.
Proof.
  induction s as [|c s IH]; simpl; [reflexivity|].
  destruct (p c); simpl; [exact IH | discriminate].
Qed.

Lemma trim_nil_all_space s : trim s = [] -> forallb isWhiteSpace s = true.
Proof.
  unfold trim, trimEnd, trimStart. intros H.
  apply (f_equal (@rev char)) in H. rewrite rev_involutive in H. simpl in H.
  apply dropWhile_nil_all in H. rewrite forallb_forall in H.
  assert (E : dropWhile isWhiteSpace s = []).
  { destruct (dropWhile isWhiteSpace s) as [|c t] eqn:D; [reflexivity|].
    pose proof (dropWhile_headFree isWhiteSpace s) as F. rewrite D in F.
    simpl in F. rewrite (H c) in F; [discriminate|].
    apply in_rev. rewrite rev_involutive. now left. }
  now apply dropWhile_nil_all.
Qed.

(** The digits [showNat] prints. *)
Lemma digitsOfPos_digits fuel n acc :
  Forall (fun c => isDigit c = true) acc ->
  Forall (fun c => isDigit c = true) (digitsOfPos fuel n acc).
Proof.
  revert n acc; induction fuel as [|fuel IH]; intros n acc Hacc; simpl; [exact Hacc|].
  assert (Hd : isDigit (48 + n mod 10)%N = true).
  { unfold isDigit. pose proof (N.mod_upper_bound n 10%N ltac:(discriminate)) as Hk.
    revert Hk. generalize (n mod 10)%N. intros k Hk.
    apply andb_true_iff; split; apply N.leb_le; lia. }
  destruct (n <? 10)%N; [|apply IH]; constructor; assumption.
Qed.

Lemma showNat_digits n : Forall (fun c => isDigit c = true) (showNat n).
Proof. apply digitsOfPos_digits. constructor. Qed.

Lemma digitsOfPos_not_nil fuel n acc : digitsOfPos (S fuel) n acc <> [].
Proof.
  revert n acc; induction fuel as [|fuel IH]; intros n acc; simpl.
  - destruct (n <? 10)%N; discriminate.
  - destruct (n <? 10)%N; [discriminate|]. apply IH.
Qed.

Lemma showNat_not_nil n : showNat n <> [].
Proof. apply digitsOfPos_not_nil. Qed.

(** Splitting at the first separator. *)
Lemma split_first sep a b :
  Forall (fun c => char_eqb c sep = false) a ->
  split sep (a ++ sep :: b) = a :: split sep b.
Proof.
  induction 1 as [|c a Hc _ IH]; simpl.
  - unfold char_eqb. now rewrite N.eqb_refl.
  - now rewrite Hc, IH.
Qed.

Lemma split_not_nil sep s : split sep s <> [].
Proof.
  destruct s as [|c s]; simpl; [discriminate|].
  destruct (char_eqb c sep); [discriminate|].
  destruct (split sep s); discriminate.
Qed.

(** A digit is neither white space, a sign, a dot nor an [I]. *)
Lemma digit_facts c :
  isDigit c = true ->
  isWhiteSpace c = false /\ char_eqb c 43%N = false /\ char_eqb c 45%N = false
  /\ char_eqb c 46%N = false /\ char_eqb c 73%N = false.
Proof.
  unfold isDigit, isWhiteSpace, char_eqb. intros H.
  apply andb_true_iff in H as [H1 H2]. apply N.leb_le in H1, H2.
  repeat split;
    repeat match goal with
           | |- _ || _ = false => apply orb_false_iff; split
           | |- _ && _ = false => apply andb_false_iff
           | |- (_ =? _)%N = false => apply N.eqb_neq; lia
           end.
  - right. apply N.leb_gt. lia.
  - left. apply N.leb_gt. lia.
Qed.

End StringFacts.

(** ** Regular expressions: [test] decides [lang] *)

Section RegExpFacts.

Lemma nullable_lang r : nullable r = true <-> lang r [].
Proof.
  induction r as [| |p|r1 IH1 r2 IH2|r1 IH1 r2 IH2|r IH]; simpl.
  - split; [discriminate | inversion 1].
  - split; [constructor | reflexivity].
  - split; [discriminate | inversion 1].
  - rewrite andb_true_iff, IH1, IH2. split.
    + intros [H1 H2]. exact (lang_cat H1 H2).
    + intros H. inversion H as [| |? ? s1 s2 H1 H2| | | |]; subst.
      match goal with E : _ ++ _ = [] |- _ => apply app_eq_nil in E as [-> ->] end.
      auto.
  - rewrite orb_true_iff, IH1, IH2. split.
    + intros [H|H]; [now apply lang_alt_l | now apply lang_alt_r].
    + inversion 1; subst; auto.
  - split; [constructor | reflexivity].
Qed.

Lemma lang_star_step r c s :
  lang (Star r) (c :: s) ->
  exists s1 s2, s = s1 ++ s2 /\ lang r (c :: s1) /\ lang (Star r) s2.
Proof.
  intros H. remember (Star r) as r' eqn:Er. remember (c :: s) as w eqn:Ew.
  induction H as [| | | | | |r0 s1 s2 H1 _ H2 IH2]; try discriminate.
  injection Er as ->. destruct s1 as [|a s1]; simpl in Ew.
  - apply IH2; auto.
  - injection Ew as -> <-. now exists s1, s2.
Qed.

Lemma deriv_lang r : forall c s, lang (deriv c r) s <-> lang r (c :: s).
Proof.
  induction r as [| |p|r1 IH1 r2 IH2|r1 IH1 r2 IH2|r IH]; intros c s; simpl.
  - split; inversion 1.
  - split; inversion 1.
  - destruct (p c) eqn:E; split; intros H.
    + inversion H; subst. now constructor.
    + inversion H; subst. constructor.
    + inversion H.
    + inversion H; subst. congruence.
  - assert (Hcat : lang (Cat (deriv c r1) r2) s -> lang (Cat r1 r2) (c :: s)).
    { inversion 1 as [| |? ? s1 s2 H1 H2| | | |]; subst.
      apply IH1 in H1. exact (lang_cat H1 H2). }
    assert (Hinv : lang (Cat r1 r2) (c :: s) ->
                   lang (Cat (deriv c r1) r2) s \/ (lang r1 [] /\ lang r2 (c :: s))).
    { intros H. inversion H as [| |? ? s1 s2 H1 H2 E| | | |]; subst.
      destruct s1 as [|a s1]; simpl in *.
      - subst. now right.
      - match goal with E : _ :: _ = _ :: _ |- _ => injection E as -> <- end.
        left. apply lang_cat; [now apply IH1 | assumption]. }
    destruct (nullable r1) eqn:N; split; intros H.
    + inversion H; subst; [now apply Hcat|].
      apply (@lang_cat r1 r2 [] (c :: s)); [now apply nullable_lang | now apply IH2].
    + destruct (Hinv H) as [H'|[_ H']];
        [now apply lang_alt_l | apply lang_alt_r; now apply IH2].
    + now apply Hcat.
    + destruct (Hinv H) as [H'|[H' _]]; [assumption|].
      apply nullable_lang in H'. congruence.
  - split; intros H; inversion H; subst.
    + apply lang_alt_l. now apply IH1.
    + apply lang_alt_r. now apply IH2.
    + apply lang_alt_l. now apply IH1.
    + apply lang_alt_r. now apply IH2.
  - split; intros H.
    + inversion H as [| |? ? s1 s2 H1 H2| | | |]; subst.
      apply IH in H1. exact (lang_star_cons H1 H2).
    + apply lang_star_step in H as (s1 & s2 & -> & H1 & H2).
      apply lang_cat; [now apply IH | assumption].
Qed.

Theorem test_lang r s : test r s = true <-> lang r s.
Proof.
  revert r; induction s as [|c s IH]; intros r; simpl.
  - apply nullable_lang.
  - rewrite IH. apply deriv_lang.
Qed.

(** One or more units of a class. *)
Lemma lang_plus_cls p s :
  s <> [] -> forallb p s = true -> lang (Plus (Cls p)) s.
Proof.
  destruct s as [|c s]; [congruence|]. intros _. simpl.
  rewrite andb_true_iff. intros [Hc Hs].
  apply (@lang_cat (Cls p) (Star (Cls p)) [c] s); [now constructor|].
  induction s as [|a s IH]; [constructor|].
  simpl in Hs. apply andb_true_iff in Hs as [Ha Hs].
  apply (@lang_star_cons (Cls p) [a] s); [now constructor | auto].
Qed.

Lemma lang_chr c : lang (Chr c) [c].
Proof. constructor. unfold char_eqb. apply N.eqb_refl. Qed.

End RegExpFacts.

(** ** Numbers: comparisons with zero *)

Section NumberFacts.

Lemma positive_not_leb_zero (x : number) : ltb zero x = true -> leb x zero = false.
Proof.
  unfold ltb, leb, SFltb, SFleb, zero.
  destruct x as [s|s| |s m e]; try destruct s; simpl; congruence.
Qed.

Lemma nonnegative_not_ltb_zero (x : number) : leb zero x = true -> ltb x zero = false.
Proof.
  unfold ltb, leb, SFltb, SFleb, zero.
  destruct x as [s|s| |s m e]; try destruct s; simpl; congruence.
Qed.

End NumberFacts.

(** ** The validator *)

Section ValidatorFacts.

Lemma pushIf_app b msg errs : pushIf b msg errs = errs ++ pushIf b msg [].
Proof. destruct b; simpl; [reflexivity | now rewrite app_nil_r]. Qed.

Lemma checkItem_app item index errs :
  checkItem item index errs = errs ++ checkItem item index [].
Proof.
  unfold checkItem.
  rewrite (pushIf_app (negative _)), (pushIf_app (notPositive _)),
    (pushIf_app (blank _)).
  rewrite (pushIf_app (negative _) _ (pushIf _ _ _)),
    (pushIf_app (notPositive _) _ (pushIf _ _ [])).
  now rewrite !app_assoc.
Qed.

Lemma forEachFrom_app items : forall index errs,
  forEachFrom index items errs = errs ++ forEachFrom index items [].
Proof.
  induction items as [|item rest IH]; intros index errs; simpl.
  - now rewrite app_nil_r.
  - rewrite IH, (IH _ (checkItem item index [])), checkItem_app.
    now rewrite app_assoc.
Qed.

Lemma forEachFrom_cons item rest index :
  forEachFrom index (item :: rest) [] =
  checkItem item index [] ++ forEachFrom (S index) rest [].
Proof. simpl. apply forEachFrom_app. Qed.

(** The error list, part by part, in the order of the checks. *)
Lemma errors_parts data :
  errors (validateQuoteData data) =
  nameErrors data ++ itemsErrors data ++ emailErrors data ++ dateErrors data.
Proof.
  unfold validateQuoteData, nameErrors, itemsErrors, emailErrors, dateErrors.
  cbn [errors].
  destruct (blank _), (rawLineItems data) as [[|r l]|],
    (given (rawContactEmail data)), (given (rawDate data));
    try destruct (negb (test emailRegex _));
    try destruct (negb (test dateRegex _));
    cbv beta iota delta [pushIf push]; cbn [app];
    rewrite ?(forEachFrom_app (r :: l) 0 [msgContactName]);
    cbn [app]; rewrite ?app_nil_r, <- ?app_assoc; reflexivity.
Qed.

Lemma valid_iff_no_errors data :
  valid (validateQuoteData data) = true <-> errors (validateQuoteData data) = [].
Proof.
  unfold validateQuoteData. cbn [valid errors].
  rewrite Nat.eqb_eq. apply length_zero_iff_nil.
Qed.

(** Every message about a line item begins with [L]. *)
Lemma checkItem_heads item index :
  Forall (fun m => hd 0%N m = 76%N) (checkItem item index []).
Proof.
  unfold checkItem, pushIf, push.
  destruct (blank _), (notPositive _), (negative _); simpl;
    repeat constructor.
Qed.

Lemma forEachFrom_heads items : forall index,
  Forall (fun m => hd 0%N m = 76%N) (forEachFrom index items []).
Proof.
  induction items as [|item rest IH]; intros index.
  - constructor.
  - rewrite forEachFrom_cons. apply Forall_app. split; [apply checkItem_heads | apply IH].
Qed.

(** The first unit of each message of the other parts. *)
Lemma nameErrors_heads data : Forall (fun m => hd 0%N m = 67%N) (nameErrors data).
Proof. unfold nameErrors, pushIf. destruct (blank _); repeat constructor. Qed.

Lemma itemsErrors_heads data :
  Forall (fun m => hd 0%N m = 76%N \/ hd 0%N m = 65%N) (itemsErrors data).
Proof.
  unfold itemsErrors. destruct (rawLineItems data) as [[|r l]|].
  - constructor; [now right | constructor].
  - eapply Forall_impl; [|apply forEachFrom_heads]. intros; now left.
  - constructor; [now right | constructor].
Qed.

Lemma emailErrors_heads data : Forall (fun m => hd 0%N m = 73%N) (emailErrors data).
Proof.
  unfold emailErrors, pushIf. destruct (given _); [|constructor].
  destruct (negb _); repeat constructor.
Qed.

Lemma dateErrors_heads data : Forall (fun m => hd 0%N m = 68%N) (dateErrors data).
Proof.
  unfold dateErrors, pushIf. destruct (given _); [|constructor].
  destruct (negb _); repeat constructor.
Qed.

(** A message is not in a list of messages that all begin otherwise. *)
Lemma not_In_by_head (P : jsstring -> Prop) msg l :
  Forall P l -> ~ P msg -> ~ In msg l.
Proof. intros H Hn Hin. rewrite Forall_forall in H. exact (Hn (H _ Hin)). Qed.

(** The message of an item is pushed when its check fails. *)
Lemma forEachFrom_In items : forall index k item msg,
  nth_error items k = Some item ->
  In msg (checkItem item (index + k) []) ->
  In msg (forEachFrom index items []).
Proof.
  induction items as [|it rest IH]; intros index k item msg Hk Hin.
  - destruct k; discriminate.
  - rewrite forEachFrom_cons. apply in_or_app. destruct k as [|k]; simpl in Hk.
    + injection Hk as ->. rewrite Nat.add_0_r in Hin. now left.
    + right. apply (IH (S index) k item); [assumption|].
      now rewrite Nat.add_succ_comm.
Qed.

End ValidatorFacts.

(** ** The patterns of the validator *)

Section PatternFacts.

Ltac lang_inv :=
  repeat match goal with
         | H : lang (Cat _ _) _ |- _ => inversion H; subst; clear H
         | H : lang (Cls _) _ |- _ => inversion H; subst; clear H
         | H : lang Eps _ |- _ => inversion H; subst; clear H
         end.

Lemma lang_rep_cls p n : forall s,
  lang (Rep n (Cls p)) s <-> (List.length s = n /\ forallb p s = true).
Proof.
  induction n as [|n IH]; intros s; simpl.
  - split.
    + inversion 1. auto.
    + intros [E _]. apply length_zero_iff_nil in E as ->. constructor.
  - split.
    + intros H. lang_inv. simpl.
      match goal with H : lang (Rep n _) _ |- _ => apply IH in H as [<- ->] end.
      match goal with H : p _ = true |- _ => rewrite H end. auto.
    + destruct s as [|c s]; simpl; [intros [[=] _]|].
      rewrite andb_true_iff. intros [[= E] [Hc Hs]].
      apply (@lang_cat (Cls p) (Rep n (Cls p)) [c] s); [now constructor|].
      apply IH. auto.
Qed.

Lemma lang_chr_inv c s : lang (Chr c) s -> s = [c].
Proof.
  unfold Chr. inversion 1; subst.
  match goal with H : char_eqb _ _ = true |- _ => apply N.eqb_eq in H as -> end.
  reflexivity.
Qed.

(** The date pattern accepts exactly the strings of the date shape. *)
Lemma lang_dateRegex d : lang dateRegex d <-> isDateShape d = true.
Proof.
  unfold dateRegex. split.
  - intros H.
    inversion H as [| |? ? ys r1 Hy H1| | | |]; subst; clear H.
    inversion H1 as [| |? ? h1 r2 Hh1 H2| | | |]; subst; clear H1.
    inversion H2 as [| |? ? ms r3 Hm H3| | | |]; subst; clear H2.
    inversion H3 as [| |? ? h2 ds Hh2 Hd| | | |]; subst; clear H3.
    apply lang_chr_inv in Hh1 as ->. apply lang_chr_inv in Hh2 as ->.
    apply (lang_rep_cls isDigit 4) in Hy as [Ly Hy].
    apply (lang_rep_cls isDigit 2) in Hm as [Lm Hm].
    apply (lang_rep_cls isDigit 2) in Hd as [Ld Hd].
    destruct ys as [|y1 [|y2 [|y3 [|y4 [|? ?]]]]]; try discriminate.
    destruct ms as [|m1 [|m2 [|? ?]]]; try discriminate.
    destruct ds as [|d1 [|d2 [|? ?]]]; try discriminate.
    cbn [forallb] in Hy, Hm, Hd. cbn [app isDateShape].
    repeat match goal with
           | H : _ && _ = true |- _ => apply andb_true_iff in H as [? H]
           end.
    repeat match goal with H : isDigit _ = true |- _ => rewrite H; clear H end.
    reflexivity.
  - intros S.
    destruct d as [|y1 [|y2 [|y3 [|y4 [|h1 [|m1 [|m2 [|h2 [|d1 [|d2 [|x d]]]]]]]]]]];
      try discriminate.
    cbn [isDateShape] in S.
    repeat match goal with
           | H : _ && _ = true |- _ => apply andb_true_iff in H as [H ?]
           end.
    repeat match goal with
           | H : char_eqb _ _ = true |- _ => apply N.eqb_eq in H; subst
           end.
    apply (@lang_cat _ _ [y1; y2; y3; y4] [45; m1; m2; 45; d1; d2]%N).
    { apply (lang_rep_cls isDigit 4). cbn [forallb List.length].
      repeat match goal with H : isDigit _ = true |- _ => rewrite H; clear H end.
      auto. }
    apply (@lang_cat _ _ [45%N] [m1; m2; 45; d1; d2]%N); [apply lang_chr|].
    apply (@lang_cat _ _ [m1; m2] [45; d1; d2]%N).
    { apply (lang_rep_cls isDigit 2). cbn [forallb List.length].
      repeat match goal with H : isDigit _ = true |- _ => rewrite H; clear H end.
      auto. }
    apply (@lang_cat _ _ [45%N] [d1; d2]); [apply lang_chr|].
    apply (lang_rep_cls isDigit 2). cbn [forallb List.length].
    repeat match goal with H : isDigit _ = true |- _ => rewrite H; clear H end.
      auto.
Qed.

Lemma test_dateRegex d : test dateRegex d = isDateShape d.
Proof.
  destruct (isDateShape d) eqn:S.
  - now apply test_lang, lang_dateRegex.
  - destruct (test dateRegex d) eqn:T; [|reflexivity].
    apply test_lang, lang_dateRegex in T. congruence.
Qed.

(** The e-mail pattern accepts the strings of the e-mail shape. *)
Lemma emailPart_lang p : emailPart p -> lang (Plus (Cls notSpaceAt)) p.
Proof.
  intros [Hne Hall]. apply lang_plus_cls; [assumption|].
  apply forallb_forall. rewrite Forall_forall in Hall. intros c Hc.
  destruct (Hall c Hc) as [Hw Hat]. unfold notSpaceAt, char_eqb.
  rewrite Hw. simpl. apply negb_true_iff. now apply N.eqb_neq.
Qed.

Lemma test_emailRegex e : emailShape e -> test emailRegex e = true.
Proof.
  intros (l & d & t & -> & Hl & Hd & Ht). apply test_lang. unfold emailRegex.
  apply lang_cat; [now apply emailPart_lang|].
  apply (@lang_cat _ _ [64%N] (d ++ 46%N :: t)); [apply lang_chr|].
  apply lang_cat; [now apply emailPart_lang|].
  apply (@lang_cat _ _ [46%N] t); [apply lang_chr | now apply emailPart_lang].
Qed.

End PatternFacts.

(** ** Claims about the validator *)

Section ValidatorClaims.

Lemma nonBlank_not_blank s : nonBlank s -> blank (Some s) = false.
Proof.
  intros (c & Hin & Hc). destruct s as [|a s]; [destruct Hin|].
  unfold blank. destruct (str_eqb (trim (a :: s)) []) eqn:E; [|reflexivity].
  apply str_eqb_nil, trim_nil_all_space in E.
  rewrite forallb_forall in E. rewrite (E c Hin) in Hc. discriminate.
Qed.

Lemma missingOrBlank_blank s : missingOrBlank s -> blank s = true.
Proof.
  destruct s as [[|a s]|]; simpl; try reflexivity.
  intros H. apply str_eqb_nil. now apply trim_all_space.
Qed.

Lemma notPositive_spec v : notNumberOrNotPositive v -> notPositive v = true.
Proof.
  intros [H|(x & -> & H)]; [|exact H]. destruct v; try reflexivity; discriminate.
Qed.

Lemma negative_spec v : notNumberOrNegative v -> negative v = true.
Proof.
  intros [H|(x & -> & H)]; [|exact H]. destruct v; try reflexivity; discriminate.
Qed.

Lemma checkItem_valid item index : validItem item -> checkItem item index [] = [].
Proof.
  intros [(d & Ed & Hd) (q & Eq & Hq) (a & Ea & Ha)].
  unfold checkItem. rewrite Ed, Eq, Ea. cbn [notPositive negative].
  rewrite (nonBlank_not_blank Hd), (positive_not_leb_zero _ Hq),
    (nonnegative_not_ltb_zero _ Ha).
  reflexivity.
Qed.

Lemma forEachFrom_valid items : forall index,
  Forall validItem items -> forEachFrom index items [] = [].
Proof.
  induction items as [|item rest IH]; intros index H; [reflexivity|].
  inversion H; subst. rewrite forEachFrom_cons, checkItem_valid, IH; auto.
Qed.

(** C1.  Every quote request that meets the constraints of the data model
    (a contact name that is not blank, at least one line item, each with a
    description that is not blank, a number [> 0] as quantity and a number
    [>= 0] as unit amount, an e-mail address, if any, of the shape
    [local@domain.tld], and a date, if any, of the shape [YYYY-MM-DD]) is
    accepted by [validateQuoteData]: [valid] is [true] and the error list
    is empty. *)
Theorem valid_request_accepted (data : RawQuoteInput) :
  validRequest data ->
  validateQuoteData data = {| valid := true; errors := [] |}.
Proof.
  intros [(n & En & Hn) (items & Ei & Hne & Hitems) Hemail Hdate].
  assert (E : errors (validateQuoteData data) = []).
  { rewrite errors_parts.
    unfold nameErrors, itemsErrors, emailErrors, dateErrors, given.
    rewrite En, Ei, (nonBlank_not_blank Hn).
    destruct items as [|item rest]; [congruence|].
    rewrite (forEachFrom_valid 0 Hitems).
    destruct (rawContactEmail data) as [[|c e]|]; cbn [pushIf app];
      try rewrite (test_emailRegex (Hemail _ eq_refl)); cbn [negb app];
      destruct (rawDate data) as [[|c' d]|]; cbn [pushIf app];
      try rewrite test_dateRegex, (Hdate _ eq_refl); reflexivity. }
  pose proof (proj2 (valid_iff_no_errors data) E) as V.
  destruct (validateQuoteData data) as [v es]. simpl in *. now subst.
Qed.

(** The other parts of the error list never hold the message about the
    contact name. *)
Lemma count_other_parts data :
  count_occ jsstring_eq_dec
    (itemsErrors data ++ emailErrors data ++ dateErrors data) msgContactName = 0.
Proof.
  apply count_occ_not_In. rewrite !in_app_iff. intros [H|[H|H]]; revert H.
  - apply (not_In_by_head _ (itemsErrors_heads data)). intros [?|?]; discriminate.
  - apply (not_In_by_head _ (emailErrors_heads data)). discriminate.
  - apply (not_In_by_head _ (dateErrors_heads data)). discriminate.
Qed.


Lemma itemsErrors_In data items k item msg :
  rawLineItems data = Some items ->
  nth_error items k = Some item ->
  In msg (checkItem item k []) ->
  In msg (errors (validateQuoteData data)).
Proof.
  intros Ei Hk Hin. rewrite errors_parts. apply in_or_app. right.
  apply in_or_app. left. unfold itemsErrors. rewrite Ei.
  destruct items as [|it rest]; [destruct k; discriminate|].
  exact (@forEachFrom_In (it :: rest) 0 k item msg Hk Hin).
Qed.

Lemma checkItem_In item index :
  (blank (rawDescription item) = true ->
   In (msgDescription index) (checkItem item index []))
  /\ (notPositive (rawQuantity item) = true ->
      In (msgQuantity index) (checkItem item index []))
  /\ (negative (rawUnitAmount item) = true ->
      In (msgUnitAmount index) (checkItem item index [])).
Proof.
  unfold checkItem, pushIf, push.
  repeat split; intros ->;
    repeat match goal with
           | |- context [if ?b then _ else _] => destruct b
           end; cbn [app]; auto using in_eq, in_cons.
Qed.


(** An empty date is not looked at. *)
Lemma empty_date_skipped (data : RawQuoteInput) :
  rawDate data = Some [] -> dateErrors data = [].
Proof. intros E. unfold dateErrors. now rewrite E. Qed.


(** C9, as the code has it.  A date that is a non-empty string is accepted
    exactly when it has the shape [\d{4}-\d{2}-\d{2}]; nothing checks that
    it is a day of the calendar, so [2025-13-99] gets no date error.  A
    date that is the empty string is taken as not given ([if (data.date)]):
    it gets no date error either, whatever its shape. *)
Theorem date_checked_by_shape_only :
  (forall (data : RawQuoteInput) (d : jsstring),
      rawDate data = Some d -> d <> [] ->
      (~ In msgDate (errors (validateQuoteData data)) <-> isDateShape d = true))
  /\ (forall data : RawQuoteInput,
         rawDate data = Some (u "2025-13-99") ->
         ~ In msgDate (errors (validateQuoteData data)))
  /\ (forall data : RawQuoteInput,
         rawDate data = Some [] ->
         ~ In msgDate (errors (validateQuoteData data))).
Proof.
  assert (G : forall data d, rawDate data = Some d -> d <> [] ->
              (~ In msgDate (errors (validateQuoteData data)) <-> isDateShape d = true)).
  { intros data d Ed Hd. rewrite errors_parts, !in_app_iff.
    assert (Hdate : dateErrors data = if isDateShape d then [] else [msgDate]).
    { unfold dateErrors, given. rewrite Ed. destruct d as [|c d]; [congruence|].
      rewrite test_dateRegex. now destruct (isDateShape (c :: d)). }
    rewrite Hdate. split.
    - intros H. destruct (isDateShape d); [reflexivity|].
      exfalso. apply H. do 3 right. now left.
    - intros -> [H|[H|[H|[]]]]; revert H.
      + apply (not_In_by_head _ (nameErrors_heads data)). discriminate.
      + apply (not_In_by_head _ (itemsErrors_heads data)). intros [?|?]; discriminate.
      + apply (not_In_by_head _ (emailErrors_heads data)). discriminate. }
  split; [exact G|]. split.
  - intros data Ed. apply (G data _ Ed); [discriminate | reflexivity].
  - intros data Ed. rewrite errors_parts, !in_app_iff, (empty_date_skipped data Ed).
    intros [H|[H|[H|[]]]]; revert H.
    + apply (not_In_by_head _ (nameErrors_heads data)). discriminate.
    + apply (not_In_by_head _ (itemsErrors_heads data)). intros [?|?]; discriminate.
    + apply (not_In_by_head _ (emailErrors_heads data)). discriminate.
Qed.

(** C9, as stated, fails: the empty string is a date that is present and
    has not the shape, and yet it is accepted. *)
Lemma empty_date_accepted :
  rawDate (rawInput (acmeDated [])) = Some []
  /\ isDateShape [] = false
  /\ test dateRegex [] = false
  /\ validateQuoteData (rawInput (acmeDated []))
     = {| valid := true; errors := [] |}.
Proof. repeat split; vm_compute; reflexivity. Qed.

End ValidatorClaims.

(** ** Witnesses for the validator *)

Section ValidatorWitnesses.

Lemma acmeDated_valid : validRequest (rawInput (acmeDated (u "2025-11-06"))).
Proof.
  constructor.
  - eexists. split; [reflexivity|]. exists 65%N. split; [now left | reflexivity].
  - eexists. split; [reflexivity|]. split; [discriminate|].
    repeat constructor;
      try (eexists; split; [reflexivity|]; try reflexivity;
           try (exists 84%N; split; [simpl; tauto | reflexivity]);
           try (exists 67%N; split; [simpl; tauto | reflexivity])).
  - intros e [= <-]. exists (u "sales"), (u "acme"), (u "example").
    split; [reflexivity|].
    repeat split; try discriminate; repeat constructor; try discriminate.
  - intros d [= <-]. reflexivity.
Defined.

Lemma valid_request_accepted_witness :
  validRequest (rawInput (acmeDated (u "2025-11-06")))
  /\ validateQuoteData (rawInput (acmeDated (u "2025-11-06")))
     = {| valid := true; errors := [] |}.
Proof.
  split; [exact acmeDated_valid|].
  apply (@valid_request_accepted (rawInput (acmeDated (u "2025-11-06")))).
  exact acmeDated_valid.
Defined.



Lemma date_checked_by_shape_only_witness :
  ~ In msgDate (errors (validateQuoteData (rawInput (acmeDated (u "2025-13-99")))))
  /\ In msgDate (errors (validateQuoteData (rawInput (acmeDated (u "2025-1-9"))))).
Proof.
  split.
  - apply (proj1 date_checked_by_shape_only
             (rawInput (acmeDated (u "2025-13-99"))) (u "2025-13-99") eq_refl);
      [discriminate | reflexivity].
  - vm_compute. tauto.
Defined.

End ValidatorWitnesses.

(** ** The mapper: [toQuoteData] *)

Section MapperFacts.

Lemma pad_units width n : Forall dayUnit (pad width n).
Proof.
  unfold pad. apply Forall_app. split.
  - apply Forall_forall. intros c Hc. apply repeat_spec in Hc as ->. now left.
  - eapply Forall_impl; [|apply showNat_digits]. intros c Hc. now left.
Qed.

Lemma isoDay_units d : Forall dayUnit (isoDay d).
Proof.
  assert (Hyphen : Forall dayUnit [45%N]).
  { constructor; [right; now left | constructor]. }
  unfold isoDay, isoYear. change (u "-") with [45%N].
  repeat first [apply pad_units | exact Hyphen | apply Forall_app; split].
  destruct ((0 <=? year d)%Z && (year d <=? 9999)%Z); [apply pad_units|].
  constructor; [|apply pad_units].
  destruct (year d <? 0)%Z; [right; now left | right; now right].
Qed.

Lemma isoDay_not_nil d : isoDay d <> [].
Proof.
  unfold isoDay. intros E. apply app_eq_nil in E as [_ E]. discriminate.
Qed.

(** The day is what comes before the [T] of an ISO string. *)
Lemma isoString_day now : hd [] (split 84%N (toISOString now)) = isoDay now.
Proof.
  unfold toISOString. change (u "T" ++ ?x) with (84%N :: x).
  rewrite split_first; [reflexivity|].
  eapply Forall_impl; [|apply isoDay_units].
  intros c [H|[->| ->]]; [|reflexivity..].
  unfold isDigit in H. apply andb_true_iff in H as [_ H].
  apply N.leb_le in H. unfold char_eqb. apply N.eqb_neq. lia.
Qed.

Lemma orElse_present a b : present a -> orElse a b = match a with Some s => s | None => b end.
Proof. intros (s & -> & Hs). destruct s; [congruence | reflexivity]. Qed.

Lemma orElse_not_nil a b : b <> [] -> orElse a b <> [].
Proof.
  intros Hb. unfold orElse, given. destruct a as [[|c s]|]; try assumption. discriminate.
Qed.

Lemma trimmed_trim s : trimmed (trim s).
Proof. split; [apply trim_headFree | apply trim_rev_headFree]. Qed.

Lemma trimmed_fixed s : trimmed s -> trim s = s.
Proof. intros [H1 H2]. now apply trim_fixed. Qed.

Lemma trimmedIfAny_fixed o : trimmedIfAny o -> option_map trim o = o.
Proof. destruct o as [s|]; simpl; [intros H; now rewrite trimmed_fixed | reflexivity]. Qed.

Lemma trimmedIfAny_trim o : trimmedIfAny (option_map trim o).
Proof. destruct o as [s|]; simpl; [apply trimmed_trim | exact I]. Qed.

(** What [toQuoteData] returns is normalized. *)
Lemma toQuoteData_normalized now r : normalized (toQuoteData now r).
Proof.
  constructor; cbn [toQuoteData contactName contactEmail lineItems reference
                      termsAndConditions date].
  - apply trimmed_trim.
  - apply trimmedIfAny_trim.
  - apply Forall_forall. intros item Hin. apply in_map_iff in Hin as (it & <- & _).
    constructor; cbn [description accountCode]; [apply trimmed_trim|].
    eexists. split; [reflexivity|]. apply orElse_not_nil. discriminate.
  - apply trimmedIfAny_trim.
  - apply trimmedIfAny_trim.
  - eexists. split; [reflexivity|]. apply orElse_not_nil.
    rewrite isoString_day. apply isoDay_not_nil.
Qed.

(** A normalized request is mapped to itself. *)
Lemma normalized_fixed now r : normalized r -> toQuoteData now r = r.
Proof.
  intros [Hn He Hi Hr Ht Hd]. destruct r as [n e items ref terms d].
  cbn [contactName contactEmail lineItems reference termsAndConditions date] in *.
  unfold toQuoteData.
  cbn [contactName contactEmail lineItems reference termsAndConditions date].
  rewrite (trimmed_fixed Hn), (trimmedIfAny_fixed _ He), (trimmedIfAny_fixed _ Hr),
    (trimmedIfAny_fixed _ Ht), (orElse_present _ Hd).
  destruct Hd as (s & -> & _). f_equal.
  induction Hi as [|item rest [Hdesc Hcode] _ IH]; [reflexivity|].
  cbn [map]. rewrite IH. f_equal. destruct item as [desc q a code].
  cbn [description accountCode quantity unitAmount] in *.
  rewrite (trimmed_fixed Hdesc), (orElse_present _ Hcode).
  destruct Hcode as (c & -> & _). reflexivity.
Qed.

(** C6.  [toQuoteData] leaves a normalized request as it is (its strings
    trimmed, the account code of every line item set, the date present),
    and what it returns is normalized: applying it twice gives what
    applying it once gives, whenever the two calls are made. *)
Theorem toQuoteData_idempotent (now now' : Date) (r : ParsedQuoteInput) :
  (normalized r -> toQuoteData now r = r)
  /\ toQuoteData now' (toQuoteData now r) = toQuoteData now r.
Proof.
  split; [apply normalized_fixed|].
  apply normalized_fixed, toQuoteData_normalized.
Qed.

Lemma acmeNormalized_normalized : normalized (toQuoteData someDay acme).
Proof.
  constructor; cbn.
  - split; reflexivity.
  - exact I.
  - repeat constructor; cbn; try reflexivity;
      (eexists; split; [reflexivity | discriminate]).
  - exact I.
  - exact I.
  - eexists. split; [reflexivity | discriminate].
Defined.

Lemma toQuoteData_idempotent_witness :
  toQuoteData someDay (toQuoteData someDay acme) = toQuoteData someDay acme
  /\ toQuoteData someDay (toQuoteData someDay (toQuoteData someDay acme))
     = toQuoteData someDay (toQuoteData someDay acme).
Proof.
  split.
  - apply (proj1 (toQuoteData_idempotent someDay someDay (toQuoteData someDay acme))).
    exact acmeNormalized_normalized.
  - apply (proj2 (toQuoteData_idempotent someDay someDay (toQuoteData someDay acme))).
Defined.

(** C2.  The request for Acme Ltd with the line items Consulting (5 at
    150) and Travel (2 at 75) is valid; [toQuoteData] gives every line item
    the account code 200 and the current day as date; [calculateTotals]
    returns the subtotal 900, the line item count 2 and the total quantity
    7. *)
Theorem acme_end_to_end (now : Date) :
  validateQuoteData (rawInput acme) = {| valid := true; errors := [] |}
  /\ Forall (fun item => accountCode item = Some (u "200"))
            (lineItems (toQuoteData now acme))
  /\ date (toQuoteData now acme) = Some (isoDay now)
  /\ calculateTotals (lineItems acme)
     = {| subtotal := ofZ 900; lineItemCount := 2; totalQuantity := ofZ 7 |}
  /\ calculateTotals (lineItems (toQuoteData now acme))
     = calculateTotals (lineItems acme).
Proof.
  split; [vm_compute; reflexivity|].
  split; [repeat constructor|].
  split; [cbn [toQuoteData date acme orElse given]; now rewrite isoString_day|].
  split; vm_compute; reflexivity.
Qed.

End MapperFacts.

(** ** Numbers given as numbers *)

Section PassThrough.

(** C10.  An argument that is a number already is returned as it is by
    [parseCurrency] and by [parseQuantity], which neither check its range
    or sign nor raise: the number -5 comes back from [parseQuantity],
    while the string [-5] makes it raise. *)
Theorem numbers_pass_through :
  (forall x : number, parseCurrency (Num x) = Ok x /\ parseQuantity (Num x) = Ok x)
  /\ parseQuantity (Num (ofZ (-5))) = Ok (ofZ (-5))
  /\ parseQuantity (Text (u "-5")) = Throw (u "Invalid quantity: -5").
Proof.
  split; [intros x; split; reflexivity|].
  split; [reflexivity | vm_compute; reflexivity].
Qed.

End PassThrough.

(** ** Rounding never yields [NaN] *)

Section RoundingFacts.

Open Scope Z_scope.

Lemma iter_pos_invariant (A : Type) (P : A -> Prop) (f : A -> A) :
  (forall x, P x -> P (f x)) -> forall n x, P x -> P (iter_pos f n x).
Proof. intros Hf. induction n as [n IH|n IH|]; simpl; auto. Qed.

Lemma shr_1_nonneg mrs : 0 <= shr_m mrs -> 0 <= shr_m (shr_1 mrs).
Proof.
  destruct mrs as [m r s]. simpl.
  destruct m as [|[p|p|]|[p|p|]]; simpl; lia.
Qed.

Lemma shr_nonneg mrs e n : 0 <= shr_m mrs -> 0 <= shr_m (fst (shr mrs e n)).
Proof.
  intros H. destruct n as [|n|n]; simpl; auto.
  apply iter_pos_invariant; auto using shr_1_nonneg.
Qed.

Lemma shr_record_of_loc_m m l : shr_m (shr_record_of_loc m l) = m.
Proof. destruct l as [|[]]; reflexivity. Qed.

Lemma shr_fexp_nonneg m e l :
  0 <= m -> 0 <= shr_m (fst (shr_fexp prec emax m e l)).
Proof.
  intros H. unfold shr_fexp. apply shr_nonneg. now rewrite shr_record_of_loc_m.
Qed.

Lemma round_nearest_even_nonneg m l : 0 <= m -> 0 <= round_nearest_even m l.
Proof.
  intros H. destruct l as [|[]]; simpl; try lia. destruct (Z.even m); lia.
Qed.

Lemma binary_round_aux_not_nan sx mx ex lx :
  0 <= mx -> isNaN (binary_round_aux prec emax sx mx ex lx) = false.
Proof.
  intros H. unfold binary_round_aux.
  pose proof (shr_fexp_nonneg ex lx H) as H1.
  destruct (shr_fexp prec emax mx ex lx) as [mrs' e']. simpl in H1.
  pose proof (shr_fexp_nonneg e' loc_Exact
                (round_nearest_even_nonneg (loc_of_shr_record mrs') H1)) as H2.
  destruct (shr_fexp prec emax _ e' loc_Exact) as [mrs'' e'']. simpl in H2.
  destruct (shr_m mrs'') as [|m|m]; [reflexivity| |lia].
  destruct (e'' <=? emax - prec); reflexivity.
Qed.

Lemma binary_round_not_nan sx mx ex :
  isNaN (binary_round prec emax sx mx ex) = false.
Proof.
  unfold binary_round. destruct (shl_align _ _ _) as [mz ez].
  apply binary_round_aux_not_nan. lia.
Qed.

Lemma div_finite_not_nan sx mx ex sy my ey :
  isNaN (SFdiv prec emax (S754_finite sx mx ex) (S754_finite sy my ey)) = false.
Proof.
  unfold SFdiv, SFdiv_core_binary.
  set (s := _ - _ - Z.min _ _).
  set (m' := match s with Z.pos _ => Z.shiftl (Z.pos mx) s | 0 => Z.pos mx | Z.neg _ => 0 end).
  assert (Hm : 0 <= m').
  { unfold m'. destruct s; try lia. apply Z.shiftl_nonneg. lia. }
  pose proof (Z_div_mod m' (Z.pos my) ltac:(lia)) as D.
  destruct (Z.div_eucl m' (Z.pos my)) as [q r].
  apply binary_round_aux_not_nan. nia.
Qed.

Lemma ofDecimal_not_nan neg m k : isNaN (ofDecimal neg m k) = false.
Proof.
  unfold ofDecimal. destruct m as [|p]; [reflexivity|].
  destruct (0 <=? k); [apply binary_round_not_nan | apply div_finite_not_nan].
Qed.

End RoundingFacts.

(** ** [parseFloat]: when there is a number to read *)

Section ParseFloatFacts.

Lemma span_nil_head p s :
  fst (span p s) = [] <-> match s with c :: _ => p c = false | [] => True end.
Proof.
  destruct s as [|c s]; simpl; [tauto|].
  destruct (p c); [|tauto]. destruct (span p s). simpl.
  split; discriminate.
Qed.

Lemma span_rest_head p s : headFree p (snd (span p s)).
Proof.
  induction s as [|c s IH]; simpl; [exact I|].
  destruct (p c) eqn:E; [|exact E]. now destruct (span p s).
Qed.

(** A literal is read exactly when the text begins as one. *)
Lemma scanUnsigned_some s :
  (exists l, scanUnsigned s = Some l) <-> unsignedStart s = true.
Proof.
  unfold scanUnsigned, unsignedStart.
  destruct (startsWith (u "Infinity") s); [split; eauto|].
  rewrite orb_false_l.
  destruct s as [|c s]; simpl; [split; [intros [? [=]] | discriminate]|].
  destruct (isDigit c) eqn:Dc; simpl.
  - destruct (span isDigit s) as [ip r1].
    destruct r1 as [|x r]; [split; eauto|].
    destruct (char_eqb x 46%N); [destruct (span isDigit r)|]; split; eauto.
  - destruct (char_eqb c 46%N); simpl; [|split; [intros [? [=]] | discriminate]].
    pose proof (span_nil_head isDigit s) as Hs.
    destruct (span isDigit s) as [fp r2]. simpl in Hs.
    destruct fp as [|d fp].
    + destruct s as [|d s']; [split; [intros [? [=]] | discriminate]|].
      rewrite (proj1 Hs eq_refl). split; [intros [? [=]] | discriminate].
    + split; [intros _|eauto].
      destruct s as [|d' s']; [discriminate (proj2 Hs I)|].
      destruct (isDigit d'); [reflexivity|]. discriminate (proj2 Hs eq_refl).
Qed.

Lemma scanSign_begins s :
  beginsWithNumber s = unsignedStart (snd (scanSign s)).
Proof.
  unfold beginsWithNumber, scanSign. destruct s as [|c r]; [reflexivity|].
  destruct (char_eqb c 43%N); [reflexivity|].
  destruct (char_eqb c 45%N); reflexivity.
Qed.

(** [parseFloat] gives [NaN] exactly when, white space skipped, the text
    does not begin with a number. *)
Theorem parseFloat_nan s :
  isNaN (parseFloat s) = negb (beginsWithNumber (trimStart s)).
Proof.
  unfold parseFloat. rewrite scanSign_begins.
  destruct (scanSign (trimStart s)) as [neg r]. cbn [snd].
  pose proof (scanUnsigned_some r) as H.
  destruct (scanUnsigned r) as [[|m k]|].
  - rewrite (proj1 H (ex_intro _ _ eq_refl)). reflexivity.
  - rewrite (proj1 H (ex_intro _ _ eq_refl)). apply ofDecimal_not_nan.
  - destruct (unsignedStart r); [|reflexivity].
    destruct (proj2 H eq_refl) as [? [=]].
Qed.

Lemma trimStart_trim s : trimStart (trim s) = trim s.
Proof. apply dropWhile_fixed, trim_headFree. Qed.

End ParseFloatFacts.

(** ** The grammar of what [parseFloat] reads *)

Section LiteralGrammar.

Lemma startsWith_app p s : startsWith p s = true <-> exists q, s = p ++ q.
Proof.
  revert s; induction p as [|a p IH]; intros s; simpl.
  - split; [intros _; now exists s | reflexivity].
  - destruct s as [|b s]; [split; [discriminate | intros [q [=]]]|].
    unfold char_eqb. rewrite andb_true_iff, N.eqb_eq, IH. split.
    + intros [-> [q ->]]. now exists q.
    + intros [q [= -> ->]]. split; [reflexivity | now exists q].
Qed.

Lemma lang_word w : lang (word w) w.
Proof.
  induction w as [|c w IH]; simpl; [constructor|].
  apply (@lang_cat (Chr c) (word w) [c] w); [apply lang_chr | exact IH].
Qed.

Lemma lang_word_inv w s : lang (word w) s -> s = w.
Proof.
  revert s; induction w as [|c w IH]; intros s H; simpl in H.
  - now inversion H.
  - inversion H as [| |? ? s1 s2 H1 H2| | | |]; subst.
    apply lang_chr_inv in H1 as ->. simpl. f_equal. now apply IH.
Qed.

Lemma lang_opt_nil r : lang (opt r) [].
Proof. apply lang_alt_l. constructor. Qed.

Lemma lang_sign_inv s : lang signRegex s -> s = [] \/ s = [43%N] \/ s = [45%N].
Proof.
  unfold signRegex, opt. intros H. inversion H as [| | |? ? ? H1|? ? ? H1| |]; subst.
  - inversion H1. now left.
  - inversion H1 as [| | |? ? ? H2|? ? ? H2| |]; subst;
      apply lang_chr_inv in H2 as ->; auto.
Qed.

Lemma lang_plus_head p s :
  lang (Plus (Cls p)) s -> exists c r, s = c :: r /\ p c = true.
Proof.
  unfold Plus. intros H. inversion H as [| |? ? s1 s2 H1 H2| | | |]; subst.
  inversion H1; subst. simpl. eauto.
Qed.

(** A decimal number begins with a digit, or with a dot and a digit. *)
Lemma lang_unsigned_head s :
  lang unsignedDecimal s ->
  exists c r, s = c :: r
              /\ (isDigit c = true
                  \/ c = 46%N /\ exists d r', r = d :: r' /\ isDigit d = true).
Proof.
  unfold unsignedDecimal. intros H.
  inversion H as [| |? ? s1 s2 H1 _| | | |]; subst.
  inversion H1 as [| | |? ? ? H2|? ? ? H2| |]; subst.
  - inversion H2 as [| |? ? t1 t2 H3 _| | | |]; subst.
    apply lang_plus_head in H3 as (c & r & -> & Hc).
    exists c, ((r ++ t2) ++ s2). split; [now rewrite <- !app_assoc | now left].
  - inversion H2 as [| |? ? t1 t2 H3 H4| | | |]; subst.
    apply lang_chr_inv in H3 as ->.
    apply lang_plus_head in H4 as (d & r & -> & Hd).
    exists 46%N, ((d :: r) ++ s2). split; [reflexivity|].
    right. split; [reflexivity|]. now exists d, (r ++ s2).
Qed.

Lemma lang_unsigned_digit c : isDigit c = true -> lang unsignedDecimal [c].
Proof.
  intros Hc. unfold unsignedDecimal.
  apply (@lang_cat _ _ [c] []); [|apply lang_opt_nil].
  apply lang_alt_l. apply (@lang_cat _ _ [c] []); [|apply lang_opt_nil].
  apply lang_plus_cls; [discriminate | simpl; now rewrite Hc].
Qed.

Lemma lang_unsigned_dot d : isDigit d = true -> lang unsignedDecimal [46%N; d].
Proof.
  intros Hd. unfold unsignedDecimal.
  apply (@lang_cat _ _ [46%N; d] []); [|apply lang_opt_nil].
  apply lang_alt_r. apply (@lang_cat _ _ [46%N] [d]); [apply lang_chr|].
  apply lang_plus_cls; [discriminate | simpl; now rewrite Hd].
Qed.

Lemma unsignedStart_prefix s :
  unsignedStart s = true <->
  exists p q, s = p ++ q /\ lang (Alt (word (u "Infinity")) unsignedDecimal) p.
Proof.
  unfold unsignedStart. split.
  - intros H. apply orb_true_iff in H as [H|H].
    + apply startsWith_app in H as [q ->].
      exists (u "Infinity"), q. split; [reflexivity|]. apply lang_alt_l, lang_word.
    + destruct s as [|c r]; [discriminate|].
      apply orb_true_iff in H as [H|H].
      * exists [c], r. split; [reflexivity|]. now apply lang_alt_r, lang_unsigned_digit.
      * apply andb_true_iff in H as [Hc Hd]. apply N.eqb_eq in Hc as ->.
        destruct r as [|d r']; [discriminate|].
        exists [46%N; d], r'. split; [reflexivity|]. now apply lang_alt_r, lang_unsigned_dot.
  - intros (p & q & -> & H). inversion H as [| | |? ? ? H1|? ? ? H1| |]; subst.
    + apply (@lang_word_inv (u "Infinity")) in H1 as ->. apply orb_true_iff. left.
      apply startsWith_app. now exists q.
    + apply lang_unsigned_head in H1 as (c & r & -> & [Hc|[-> (d & r' & -> & Hd)]]).
      * simpl. rewrite Hc. apply orb_true_r.
      * simpl. rewrite Hd. reflexivity.
Qed.

(** A text begins with a number exactly when one of its prefixes is a
    [StrDecimalLiteral]. *)
Theorem beginsWithNumber_prefix s :
  beginsWithNumber s = true <->
  exists p q, s = p ++ q /\ lang strDecimalLiteral p.
Proof.
  unfold beginsWithNumber, strDecimalLiteral. split.
  - intros H. destruct s as [|c r]; [discriminate|].
    destruct (char_eqb c 43%N || char_eqb c 45%N) eqn:S.
    + apply unsignedStart_prefix in H as (p & q & -> & Hp).
      exists (c :: p), q. split; [reflexivity|].
      apply (@lang_cat _ _ [c] p); [|exact Hp].
      apply lang_alt_r. unfold char_eqb in S.
      apply orb_true_iff in S as [S|S]; apply N.eqb_eq in S as ->;
        [apply lang_alt_l | apply lang_alt_r]; apply lang_chr.
    + apply unsignedStart_prefix in H as (p & q & E & Hp).
      exists p, q. split; [exact E|].
      apply (@lang_cat _ _ [] p); [apply lang_opt_nil | exact Hp].
  - intros (p & q & -> & H).
    inversion H as [| |? ? sg body Hs Hb| | | |]; subst.
    assert (U : unsignedStart (body ++ q) = true)
      by (apply unsignedStart_prefix; now exists body, q).
    apply lang_sign_inv in Hs as [-> |[-> | ->]]; try exact U.
    simpl app. destruct (body ++ q) as [|c r] eqn:E; [discriminate|].
    destruct (char_eqb c 43%N || char_eqb c 45%N) eqn:S; [|exact U].
    exfalso. clear U.
    inversion Hb as [| | |? ? ? H1|? ? ? H1| |]; subst.
    + apply (@lang_word_inv (u "Infinity")) in H1 as ->. injection E as <- _. discriminate.
    + apply lang_unsigned_head in H1 as (c' & r' & -> & [Hc|[-> _]]);
        injection E as <- _; [|discriminate].
      destruct (digit_facts c' Hc) as (_ & H43 & H45 & _).
      rewrite H43, H45 in S. discriminate.
Qed.

(** [parseFloat] gives [NaN] exactly when, white space skipped, no prefix
    of the text is a [StrDecimalLiteral]. *)
Corollary parseFloat_nan_grammar s :
  isNaN (parseFloat s) = true <->
  ~ exists p q, trimStart s = p ++ q /\ lang strDecimalLiteral p.
Proof.
  rewrite parseFloat_nan, <- beginsWithNumber_prefix.
  destruct (beginsWithNumber (trimStart s)); simpl; split;
    congruence || discriminate || auto.
Qed.

End LiteralGrammar.

(** ** Claims about [parseCurrency] and [parseQuantity] *)

Section ParserClaims.

Lemma span_app p a b :
  forallb p a = true -> headFree p b -> span p (a ++ b) = (a, b).
Proof.
  induction a as [|c a IH]; simpl.
  - intros _ Hb. destruct b as [|c b]; [reflexivity|]. simpl in *. now rewrite Hb.
  - intros H Hb. apply andb_true_iff in H as [-> H]. now rewrite IH.
Qed.

(** Digits, a dot and digits, followed by text that continues neither,
    are read as the decimal they spell. *)
Lemma parseFloat_decimal ip fp rest :
  ip <> [] -> forallb isDigit ip = true -> forallb isDigit fp = true ->
  headFree continuesNumber rest ->
  parseFloat (ip ++ 46%N :: fp ++ rest)
  = ofDecimal false (digitsValue (ip ++ fp)) (- Z.of_nat (List.length fp)).
Proof.
  intros Hne Hip Hfp Hrest.
  destruct ip as [|c ip]; [congruence|]. cbn [forallb] in Hip.
  apply andb_true_iff in Hip as [Hc Hip].
  destruct (digit_facts c Hc) as (Hw & Hplus & Hminus & Hdot & HI).
  unfold parseFloat, trimStart. cbn [app dropWhile]. rewrite Hw.
  unfold scanSign. rewrite Hplus, Hminus.
  unfold scanUnsigned. cbn [startsWith u map list_ascii_of_string].
  replace (char_eqb (N_of_ascii "I") c) with false
    by (symmetry; unfold char_eqb in *; rewrite N.eqb_sym; exact HI).
  cbn [andb].
  change (c :: ip ++ 46%N :: fp ++ rest) with ((c :: ip) ++ 46%N :: fp ++ rest).
  rewrite span_app; [|cbn [forallb]; now rewrite Hc|reflexivity].
  unfold char_eqb at 1. rewrite N.eqb_refl.
  assert (Hhead : headFree isDigit rest).
  { destruct rest as [|x rest]; [exact I|]. simpl in *. unfold continuesNumber in Hrest.
    now apply orb_false_iff in Hrest as [Hrest%orb_false_iff _]. }
  rewrite span_app; [|assumption..].
  assert (Hexp : scanExponent rest = 0%Z).
  { destruct rest as [|x rest]; [reflexivity|]. simpl in Hrest. unfold continuesNumber in Hrest.
    apply orb_false_iff in Hrest as [Hd%orb_false_iff HE]. destruct Hd as [_ He].
    unfold scanExponent. now rewrite He, HE. }
  rewrite Hexp. destruct fp; reflexivity.
Qed.

Lemma includes_false_split c s : includes c s = false -> split c s = [s].
Proof.
  unfold includes. induction s as [|x s IH]; simpl; [reflexivity|].
  intros H. apply orb_false_iff in H as [Hx Hs].
  unfold char_eqb in *. rewrite N.eqb_sym, Hx, (IH Hs). reflexivity.
Qed.

Lemma split_two_includes c s a b rest :
  split c s = a :: b :: rest -> includes c s = true.
Proof.
  intros H. destruct (includes c s) eqn:E; [reflexivity|].
  rewrite (includes_false_split _ _ E) in H. discriminate.
Qed.

Lemma trim_begins_nan s :
  isNaN (parseFloat (trim s)) = negb (beginsWithNumber (trim s)).
Proof. now rewrite parseFloat_nan, trimStart_trim. Qed.

(** What [parseCurrency] does with any text: it removes every [$], [€]
    and [,] and the white space around what is left, and reads the longest
    decimal number the remainder begins with. *)
Lemma parseCurrency_leading_number (s : jsstring) :
  let remainder := trim (removeAll currencyMark s) in
  (parseCurrency (Text s) = Throw (u "Invalid currency format: " ++ s)
   <-> beginsWithNumber remainder = false)
  /\ (beginsWithNumber remainder = true ->
      parseCurrency (Text s) = Ok (parseFloat remainder)
      /\ isNaN (parseFloat remainder) = false)
  /\ (forall ip fp rest,
         remainder = ip ++ 46%N :: fp ++ rest ->
         ip <> [] -> forallb isDigit ip = true -> forallb isDigit fp = true ->
         headFree continuesNumber rest ->
         parseCurrency (Text s)
         = Ok (ofDecimal false (digitsValue (ip ++ fp))
                         (- Z.of_nat (List.length fp))))
  /\ parseCurrency (Text (u "$1,500.00")) = Ok (ofZ 1500)
  /\ parseCurrency (Text (u "not-a-number"))
     = Throw (u "Invalid currency format: not-a-number").
Proof.
  intros remainder.
  assert (Hnan : isNaN (parseFloat remainder) = negb (beginsWithNumber remainder))
    by apply trim_begins_nan.
  split; [|split; [|split; [|split; vm_compute; reflexivity]]];
    unfold parseCurrency; fold remainder; rewrite Hnan.
  - destruct (beginsWithNumber remainder); cbn [negb]; split;
      (reflexivity || discriminate).
  - intros ->. split; reflexivity.
  - intros ip fp rest Hr Hne Hip Hfp Hrest.
    assert (E : parseFloat remainder
                = ofDecimal false (digitsValue (ip ++ fp)) (- Z.of_nat (List.length fp)))
      by (rewrite Hr; exact (@parseFloat_decimal ip fp rest Hne Hip Hfp Hrest)).
    rewrite E in *. rewrite ofDecimal_not_nan in Hnan.
    now rewrite <- Hnan.
Qed.

(** Without a pound sign, what the code removes is what the
    documentation says is stripped. *)
Lemma removeAll_documented (s : jsstring) :
  includes pound s = false ->
  removeAll symbolOrSeparator s = removeAll currencyMark s.
Proof.
  unfold includes, removeAll. induction s as [|c s IH]; cbn [existsb filter]; intros H.
  - reflexivity.
  - apply orb_false_iff in H as [Hc Hs]. rewrite (IH Hs).
    unfold symbolOrSeparator, currencyMark, char_eqb, pound in *.
    rewrite N.eqb_sym in Hc. rewrite Hc. reflexivity.
Qed.

(** C4, as the code has it.  Of a text without a pound sign,
    [parseCurrency] strips the currency symbols and the thousands
    separators, and the white space around what is left, and reads the
    longest decimal number the remainder begins with, whatever follows it:
    it raises exactly when the remainder does not begin with a number (none
    of its prefixes is a numeric literal, [beginsWithNumber_prefix]), and
    returns the number read otherwise (the decimal spelt by digits, a dot
    and digits, when that is how the remainder begins); [$1,500.00] gives
    1500 and [not-a-number] raises.  Nothing is said of a text with a pound
    sign. *)
Theorem parseCurrency_reads_leading_number (s : jsstring) :
  includes pound s = false ->
  let remainder := trim (removeAll symbolOrSeparator s) in
  (parseCurrency (Text s) = Throw (u "Invalid currency format: " ++ s)
   <-> beginsWithNumber remainder = false)
  /\ (beginsWithNumber remainder = true ->
      parseCurrency (Text s) = Ok (parseFloat remainder)
      /\ isNaN (parseFloat remainder) = false)
  /\ (forall ip fp rest,
         remainder = ip ++ 46%N :: fp ++ rest ->
         ip <> [] -> forallb isDigit ip = true -> forallb isDigit fp = true ->
         headFree continuesNumber rest ->
         parseCurrency (Text s)
         = Ok (ofDecimal false (digitsValue (ip ++ fp))
                         (- Z.of_nat (List.length fp))))
  /\ parseCurrency (Text (u "$1,500.00")) = Ok (ofZ 1500)
  /\ parseCurrency (Text (u "not-a-number"))
     = Throw (u "Invalid currency format: not-a-number").
Proof.
  intros Hpound. rewrite (removeAll_documented s Hpound).
  exact (parseCurrency_leading_number s).
Qed.

Lemma parseCurrency_reads_leading_number_witness :
  parseCurrency (Text (u "$ 2,499.50 each"))
  = Ok (ofDecimal false 249950 (-2)).
Proof.
  apply (proj1 (proj2 (proj2 (@parseCurrency_reads_leading_number
                                (u "$ 2,499.50 each") eq_refl)))
           (u "2499") (u "50") (u " each"));
    try reflexivity; discriminate.
Defined.

(** C4, as stated, fails: the remainder [12abc] is not a number, and yet
    nothing is raised. *)
Lemma parseCurrency_accepts_trailing_text :
  isDecimalNumber (trim (removeAll currencyMark (u "12abc"))) = false
  /\ parseCurrency (Text (u "12abc")) = Ok (ofZ 12).
Proof. split; vm_compute; reflexivity. Qed.

(** The pound sign, which the documentation names among the symbols
    stripped, is not among those removed. *)
Lemma parseCurrency_pound_kept :
  parseCurrency (Text (163%N :: u "50.00"))
  = Throw (u "Invalid currency format: " ++ 163%N :: u "50.00").
Proof. vm_compute. reflexivity. Qed.

(** C3, as the code has it.  Without a [/], [parseQuantity] reads the
    longest decimal number the trimmed text begins with, whatever follows
    it: it raises exactly when there is none or when the number read is
    [<= 0], and returns the number otherwise.  With a [/], it reads the
    numbers the first two parts begin with: it raises when either part
    begins with none or when the second number is zero, and it returns the
    quotient of the two when that quotient is positive; [1/2] gives 0.5 and
    [3/0] raises. *)
Theorem parseQuantity_reads_leading_numbers (s : jsstring) :
  (includes 47%N s = false ->
   (parseQuantity (Text s) = Throw (u "Invalid quantity: " ++ s)
    <-> beginsWithNumber (trim s) = false \/ leb (parseFloat (trim s)) zero = true)
   /\ (beginsWithNumber (trim s) = true -> leb (parseFloat (trim s)) zero = false ->
       parseQuantity (Text s) = Ok (parseFloat (trim s))))
  /\ (forall a b rest,
         split 47%N s = a :: b :: rest ->
         let n := parseFloat (trim a) in
         let d := parseFloat (trim b) in
         (beginsWithNumber (trim a) = false \/ beginsWithNumber (trim b) = false
          \/ eqb d zero = true ->
          parseQuantity (Text s) = Throw (u "Invalid fraction format: " ++ s))
         /\ (beginsWithNumber (trim a) = true -> beginsWithNumber (trim b) = true ->
             eqb d zero = false -> ltb zero (div n d) = true ->
             parseQuantity (Text s) = Ok (div n d)))
  /\ parseQuantity (Text (u "1/2")) = Ok (ofDecimal false 5 (-1))
  /\ parseQuantity (Text (u "3/0")) = Throw (u "Invalid fraction format: 3/0").
Proof.
  split; [|split; [|split; vm_compute; reflexivity]].
  - intros Hinc. unfold parseQuantity. rewrite Hinc, trim_begins_nan.
    destruct (beginsWithNumber (trim s)), (leb (parseFloat (trim s)) zero);
      cbn [negb orb]; (split; [split|]); try tauto; try discriminate;
      try (intros [?|?]; discriminate); intuition discriminate.
  - intros a b rest Hsplit n d. unfold parseQuantity.
    rewrite (split_two_includes _ _ Hsplit), Hsplit. cbn [map firstTwo].
    rewrite !trim_begins_nan. fold d. fold n. split.
    + intros [-> |[-> | ->]]; cbn [negb orb]; rewrite ?orb_true_r; reflexivity.
    + intros -> -> -> _. reflexivity.
Qed.

Lemma parseQuantity_reads_leading_numbers_witness :
  parseQuantity (Text (u "3 / 4 cup")) = Ok (div (ofZ 3) (ofZ 4))
  /\ parseQuantity (Text (u "2.5 hours")) = Ok (ofDecimal false 25 (-1)).
Proof.
  split.
  - apply (proj2 (proj1 (proj2 (parseQuantity_reads_leading_numbers (u "3 / 4 cup")))
                    (u "3 ") (u " 4 cup") [] eq_refl)); reflexivity.
  - apply (proj2 (proj1 (parseQuantity_reads_leading_numbers (u "2.5 hours")) eq_refl));
      reflexivity.
Defined.

(** C3, as stated, fails: [2 hours] has a part that is not numeric, and
    yet nothing is raised. *)
Lemma parseQuantity_accepts_trailing_text :
  isDecimalNumber (trim (u "2 hours")) = false
  /\ parseQuantity (Text (u "2 hours")) = Ok (ofZ 2).
Proof. split; vm_compute; reflexivity. Qed.

(** The sign of a fraction is not checked, that of a plain decimal is. *)
Lemma parseQuantity_fraction_sign_unchecked :
  parseQuantity (Text (u "-1/2")) = Ok (ofDecimal true 5 (-1))
  /\ leb (ofDecimal true 5 (-1)) zero = true
  /\ parseQuantity (Text (u "-0.5")) = Throw (u "Invalid quantity: -0.5")
  /\ parseQuantity (Text (u "0/5")) = Ok zero.
Proof. repeat split; vm_compute; reflexivity. Qed.

End ParserClaims.

(** ** Whole numbers are added and multiplied exactly *)

Section WholeNumbers.

Open Scope Z_scope.

Lemma digits2_bounds p :
  2 ^ (Zpos (digits2_pos p) - 1) <= Zpos p < 2 ^ Zpos (digits2_pos p).
Proof.
  induction p as [p IH|p IH|]; cbn [digits2_pos]; rewrite ?Pos2Z.inj_succ.
  - replace (Z.succ (Zpos (digits2_pos p)) - 1) with (Z.succ (Zpos (digits2_pos p) - 1)) by lia.
    rewrite !Z.pow_succ_r by lia. lia.
  - replace (Z.succ (Zpos (digits2_pos p)) - 1) with (Z.succ (Zpos (digits2_pos p) - 1)) by lia.
    rewrite !Z.pow_succ_r by lia. lia.
  - simpl. lia.
Qed.

Lemma digits2_unique p d :
  2 ^ (d - 1) <= Zpos p < 2 ^ d -> Zpos (digits2_pos p) = d.
Proof.
  intros [H1 H2]. destruct (digits2_bounds p) as [B1 B2].
  destruct (Z.lt_trichotomy (Zpos (digits2_pos p)) d) as [L|[E|G]]; [exfalso|exact E|exfalso].
  - assert (2 ^ Zpos (digits2_pos p) <= 2 ^ (d - 1)) by (apply Z.pow_le_mono_r; lia). lia.
  - assert (2 ^ d <= 2 ^ (Zpos (digits2_pos p) - 1)) by (apply Z.pow_le_mono_r; lia). lia.
Qed.

Lemma iter_pos_nat (A : Type) (f : A -> A) n : forall x,
  iter_pos f n x = Nat.iter (Pos.to_nat n) f x.
Proof.
  induction n as [n IH|n IH|]; intros x; cbn [iter_pos].
  - rewrite !IH, Pos2Nat.inj_xI. 
    replace (S (2 * Pos.to_nat n))%nat with (Pos.to_nat n + (Pos.to_nat n + 1))%nat by lia.
    rewrite !Nat.iter_add. reflexivity.
  - rewrite !IH, Pos2Nat.inj_xO.
    replace (2 * Pos.to_nat n)%nat with (Pos.to_nat n + Pos.to_nat n)%nat by lia.
    now rewrite Nat.iter_add.
  - reflexivity.
Qed.

Lemma shr_zeros n : forall m q,
  Zpos m = Zpos q * 2 ^ Z.of_nat n ->
  Nat.iter n shr_1 {| shr_m := Zpos m; shr_r := false; shr_s := false |}
  = {| shr_m := Zpos q; shr_r := false; shr_s := false |}.
Proof.
  induction n as [|n IH]; intros m q H.
  - change (2 ^ Z.of_nat 0) with 1 in H. assert (E : m = q) by lia. now subst.
  - rewrite Nat.iter_succ_r. rewrite Nat2Z.inj_succ, Z.pow_succ_r in H by lia.
    assert (0 < 2 ^ Z.of_nat n) by (apply Z.pow_pos_nonneg; lia).
    destruct m as [m|m|]; cbn [shr_1 orb].
    + exfalso. lia.
    + apply IH. lia.
    + exfalso. nia.
Qed.

Lemma shiftl_value p n : Zpos (Pos.shiftl p n) = Zpos p * 2 ^ Z.of_N n.
Proof.
  destruct n as [|n]; [simpl; lia|]. cbn [Pos.shiftl Z.of_N].
  induction n as [|n IH] using Pos.peano_ind.
  - cbn [Pos.iter]. rewrite Pos2Z.inj_xO. lia.
  - rewrite Pos.iter_succ, Pos2Z.inj_xO, IH, Pos2Z.inj_succ, Z.pow_succ_r by lia. lia.
Qed.

Lemma round_aux_exact sx m p k :
  0 <= k -> Zpos m = Zpos p * 2 ^ k ->
  Zpos (digits2_pos p) <= 53 -> 53 - Zpos (digits2_pos p) <= k ->
  binary_round_aux prec emax sx (Zpos m) (- k) loc_Exact = canonical sx p.
Proof.
  intros Hk Hm Hd Hdk. unfold canonical. set (d := Zpos (digits2_pos p)) in *.
  assert (Dm : Zpos (digits2_pos m) = d + k).
  { apply digits2_unique. rewrite Hm. pose proof (digits2_bounds p) as B. fold d in B.
    assert (E1 : 2 ^ (d + k - 1) = 2 ^ (d - 1) * 2 ^ k)
      by (rewrite <- Z.pow_add_r by lia; f_equal; lia).
    assert (E2 : 2 ^ (d + k) = 2 ^ d * 2 ^ k)
      by (rewrite <- Z.pow_add_r by lia; f_equal; lia).
    rewrite E1, E2.
    assert (0 < 2 ^ k) by (apply Z.pow_pos_nonneg; lia). nia. }
  set (c := Pos.shiftl p (Z.to_N (53 - d))).
  assert (Hc : Zpos c = Zpos p * 2 ^ (53 - d)).
  { unfold c. rewrite shiftl_value, Z2N.id by lia. reflexivity. }
  assert (Dc : Zpos (digits2_pos c) = 53).
  { apply digits2_unique. rewrite Hc. pose proof (digits2_bounds p) as B. fold d in B.
    assert (E1 : 2 ^ (53 - 1) = 2 ^ (d - 1) * 2 ^ (53 - d))
      by (rewrite <- Z.pow_add_r by lia; f_equal; lia).
    assert (E2 : 2 ^ 53 = 2 ^ d * 2 ^ (53 - d))
      by (rewrite <- Z.pow_add_r by lia; f_equal; lia).
    rewrite E1, E2.
    assert (0 < 2 ^ (53 - d)) by (apply Z.pow_pos_nonneg; lia). nia. }
  assert (S1 : shr_fexp prec emax (Zpos m) (- k) loc_Exact
               = ({| shr_m := Zpos c; shr_r := false; shr_s := false |}, d - 53)).
  { unfold shr_fexp. cbn [Zdigits2 shr_record_of_loc]. rewrite Dm.
    unfold fexp, emin, prec, emax.
    replace (Z.max (d + k + - k - 53) (3 - 1024 - 53) - - k) with (d - 53 + k) by lia.
    destruct (d - 53 + k) as [|n|n] eqn:En; [| |lia]; unfold shr.
    - f_equal; [|lia]. f_equal. f_equal. apply Pos2Z.inj. rewrite Hm, Hc. f_equal. f_equal. lia.
    - f_equal; [|lia]. rewrite iter_pos_nat. apply shr_zeros.
      rewrite Hm, Hc, positive_nat_Z, <- Z.mul_assoc, <- Z.pow_add_r by lia.
      f_equal. f_equal. lia. }
  unfold binary_round_aux. rewrite S1. cbn [shr_m loc_of_shr_record round_nearest_even].
  assert (S2 : shr_fexp prec emax (Zpos c) (d - 53) loc_Exact
               = ({| shr_m := Zpos c; shr_r := false; shr_s := false |}, d - 53)).
  { unfold shr_fexp. cbn [Zdigits2 shr_record_of_loc]. rewrite Dc.
    unfold fexp, emin, prec, emax.
    replace (Z.max (53 + (d - 53) - 53) (3 - 1024 - 53) - (d - 53)) with 0 by lia.
    reflexivity. }
  rewrite S2. cbn [shr_m]. unfold prec, emax.
  replace (d - 53 <=? 1024 - 53) with true by (symmetry; apply Z.leb_le; lia).
  reflexivity.
Qed.

Lemma digits2_le_53 p : Zpos p < 2 ^ 53 <-> Zpos (digits2_pos p) <= 53.
Proof.
  destruct (digits2_bounds p) as [B1 B2]. split; intros H.
  - destruct (Z_le_gt_dec (Zpos (digits2_pos p)) 53) as [L|G]; [exact L|exfalso].
    assert (2 ^ 53 <= 2 ^ (Zpos (digits2_pos p) - 1)) by (apply Z.pow_le_mono_r; lia).
    lia.
  - assert (2 ^ Zpos (digits2_pos p) <= 2 ^ 53) by (apply Z.pow_le_mono_r; lia). lia.
Qed.

Lemma round_exact sx m p k :
  0 <= k -> Zpos m = Zpos p * 2 ^ k -> Zpos p < 2 ^ 53 ->
  binary_round prec emax sx m (- k) = canonical sx p.
Proof.
  intros Hk Hm Hp. apply digits2_le_53 in Hp.
  set (d := Zpos (digits2_pos p)) in *.
  assert (Dm : Zpos (digits2_pos m) = d + k).
  { apply digits2_unique. rewrite Hm. pose proof (digits2_bounds p) as B. fold d in B.
    assert (E1 : 2 ^ (d + k - 1) = 2 ^ (d - 1) * 2 ^ k)
      by (rewrite <- Z.pow_add_r by lia; f_equal; lia).
    assert (E2 : 2 ^ (d + k) = 2 ^ d * 2 ^ k)
      by (rewrite <- Z.pow_add_r by lia; f_equal; lia).
    rewrite E1, E2.
    assert (0 < 2 ^ k) by (apply Z.pow_pos_nonneg; lia). nia. }
  unfold binary_round. rewrite Dm. unfold fexp, emin, prec, emax, shl_align.
  replace (Z.max (d + k + - k - 53) (3 - 1024 - 53) - - k) with (d - 53 + k) by lia.
  replace (Z.max (d + k + - k - 53) (3 - 1024 - 53)) with (- (53 - d)) by lia.
  destruct (d - 53 + k) as [|n|n] eqn:En.
  - apply round_aux_exact; fold d; lia || assumption.
  - apply round_aux_exact; fold d; lia || assumption.
  - replace (d - 53) with (- (53 - d)) by lia.
    apply round_aux_exact; fold d; try lia.
    change (Pos.iter xO m n) with (Pos.shiftl m (Npos n)).
    rewrite shiftl_value, Hm, <- Z.mul_assoc, <- Z.pow_add_r by lia.
    f_equal. f_equal. lia.
Qed.

Lemma ofZ_pos p : Zpos p < 2 ^ 53 -> ofZ (Zpos p) = canonical false p.
Proof.
  intros H. unfold ofZ, binary_normalize.
  apply (@round_exact false p p 0); [lia | lia | exact H].
Qed.

Lemma shl_align_value m e e' :
  e' <= e -> Zpos (fst (shl_align m e e')) = Zpos m * 2 ^ (e - e').
Proof.
  intros H. unfold shl_align. destruct (e' - e) as [|n|n] eqn:En; cbn [fst].
  - replace (e - e') with 0 by lia. lia.
  - lia.
  - change (Pos.iter xO m n) with (Pos.shiftl m (Npos n)).
    rewrite shiftl_value. f_equal. f_equal. lia.
Qed.

Lemma canonical_value sx p :
  Zpos p < 2 ^ 53 ->
  exists m e, canonical sx p = S754_finite sx m e /\ -52 <= e <= 0
              /\ Zpos m = Zpos p * 2 ^ (- e)
              /\ e = Zpos (digits2_pos p) - 53.
Proof.
  intros H. apply digits2_le_53 in H. unfold canonical.
  do 2 eexists. split; [reflexivity|]. split; [lia|]. split; [|reflexivity].
  rewrite shiftl_value, Z2N.id by lia. f_equal. f_equal. lia.
Qed.

(** Every non-negative integer below 2^53 is a whole number. *)
Lemma toZ_ofZ n : 0 <= n < 2 ^ 53 -> toZ (ofZ n) = n.
Proof.
  intros Hn. destruct n as [|p|p]; [reflexivity| |lia].
  rewrite ofZ_pos by lia.
  destruct (@canonical_value false p ltac:(lia)) as (m & e & -> & He & Hm & _).
  cbn [toZ]. remember (- e) as k eqn:Ek.
  replace e with (- k) by lia.
  rewrite <- Z.shiftr_opp_r, Z.opp_involutive, Z.shiftr_div_pow2, Hm by lia.
  apply Z.div_mul. apply Z.pow_nonzero; lia.
Qed.

Lemma whole_ofZ n : 0 <= n < 2 ^ 53 -> whole (ofZ n).
Proof. intros Hn. unfold whole. now rewrite toZ_ofZ. Qed.

(** The sum of two whole numbers, when below 2^53, is not rounded. *)
Theorem add_exact a b :
  0 <= a -> 0 <= b -> a + b < 2 ^ 53 -> add (ofZ a) (ofZ b) = ofZ (a + b).
Proof.
  intros Ha Hb Hab.
  destruct a as [|a|a]; [|destruct b as [|b|b]|]; try lia.
  - destruct b as [|b|b]; try lia; [reflexivity|].
    rewrite Z.add_0_l, (@ofZ_pos b) by lia. reflexivity.
  - rewrite Z.add_0_r, (@ofZ_pos a) by lia. reflexivity.
  - change (Z.pos a + Z.pos b) with (Z.pos (a + b)) in *.
    rewrite (@ofZ_pos a), (@ofZ_pos b), (@ofZ_pos (a + b)) by lia.
    destruct (@canonical_value false a ltac:(lia)) as (ma & ea & -> & Hea & Hma & _).
    destruct (@canonical_value false b ltac:(lia)) as (mb & eb & -> & Heb & Hmb & _).
    unfold add, SFadd. cbn [cond_Zopp].
    set (ez := Z.min ea eb).
    pose proof (@shl_align_value ma ea ez ltac:(lia)) as Xa.
    pose proof (@shl_align_value mb eb ez ltac:(lia)) as Xb.
    destruct (shl_align ma ea ez) as [xa ?], (shl_align mb eb ez) as [xb ?].
    cbn [fst] in *. change (Z.pos xa + Z.pos xb) with (Z.pos (xa + xb)).
    cbn [binary_normalize]. replace ez with (- - ez) at 1 by lia.
    apply round_exact; [lia| |lia].
    rewrite !Pos2Z.inj_add, Xa, Xb, Hma, Hmb, <- !Z.mul_assoc, <- !Z.pow_add_r by lia.
    replace (- ea + (ea - ez)) with (- ez) by lia.
    replace (- eb + (eb - ez)) with (- ez) by lia. lia.
Qed.

Lemma digits2_mul a b :
  Zpos (digits2_pos a) + Zpos (digits2_pos b) - 1 <= Zpos (digits2_pos (a * b)).
Proof.
  destruct (digits2_bounds a) as [A1 _], (digits2_bounds b) as [B1 _],
    (digits2_bounds (a * b)) as [_ C2].
  set (da := Zpos (digits2_pos a)) in *. set (db := Zpos (digits2_pos b)) in *.
  set (dc := Zpos (digits2_pos (a * b))) in *.
  assert (E : 2 ^ (da + db - 2) = 2 ^ (da - 1) * 2 ^ (db - 1))
    by (rewrite <- Z.pow_add_r by lia; f_equal; lia).
  assert (L : 2 ^ (da + db - 2) < 2 ^ dc).
  { rewrite E. rewrite Pos2Z.inj_mul in C2.
    assert (0 < 2 ^ (da - 1)) by (apply Z.pow_pos_nonneg; lia).
    assert (0 < 2 ^ (db - 1)) by (apply Z.pow_pos_nonneg; lia). nia. }
  apply Z.pow_lt_mono_r_iff in L; lia.
Qed.

(** Nor is their product. *)
Theorem mul_exact a b :
  0 <= a < 2 ^ 53 -> 0 <= b < 2 ^ 53 -> a * b < 2 ^ 53 ->
  mul (ofZ a) (ofZ b) = ofZ (a * b).
Proof.
  intros Ha Hb Hab.
  destruct a as [|a|a]; [|destruct b as [|b|b]|]; try lia.
  - destruct b as [|b|b]; try lia; [reflexivity|].
    rewrite Z.mul_0_l, (@ofZ_pos b) by lia. reflexivity.
  - rewrite Z.mul_0_r, (@ofZ_pos a) by lia. reflexivity.
  - change (Z.pos a * Z.pos b) with (Z.pos (a * b)) in *.
    rewrite (@ofZ_pos a), (@ofZ_pos b), (@ofZ_pos (a * b)) by lia.
    destruct (@canonical_value false a ltac:(lia)) as (ma & ea & -> & Hea & Hma & Ea).
    destruct (@canonical_value false b ltac:(lia)) as (mb & eb & -> & Heb & Hmb & Eb).
    unfold mul, SFmul. cbn [xorb].
    replace (ea + eb) with (- (- ea + - eb)) by lia.
    pose proof (digits2_mul a b) as D.
    pose proof (proj1 (digits2_le_53 (a * b)) Hab) as D'.
    apply round_aux_exact; try lia.
    rewrite Pos2Z.inj_mul, Hma, Hmb, Z.pow_add_r by lia.
    rewrite Pos2Z.inj_mul. ring.
Qed.

Lemma exactSubtotal_nonneg l : Forall wholeItem l -> 0 <= exactSubtotal l.
Proof.
  induction 1 as [|item l [[Hq _] [Ha _]] _ IH]; simpl; [lia|]. nia.
Qed.

Lemma exactQuantity_nonneg l : Forall wholeItem l -> 0 <= exactQuantity l.
Proof.
  induction 1 as [|item l [[Hq _] _] _ IH]; simpl; lia.
Qed.

Lemma subtotal_exact l : forall n,
  0 <= n -> Forall wholeItem l -> n + exactSubtotal l < 2 ^ 53 ->
  fold_left (fun sum item => add sum (mul (quantity item) (unitAmount item))) l (ofZ n)
  = ofZ (n + exactSubtotal l).
Proof.
  induction l as [|item l IH]; intros n Hn Hl Hb.
  - simpl. now rewrite Z.add_0_r.
  - inversion Hl as [|? ? [[Hq Eq] [Ha Ea]] Hl']; subst.
    pose proof (exactSubtotal_nonneg Hl') as Hs.
    unfold exactSubtotal in Hb. cbn [fold_right] in Hb. fold (exactSubtotal l) in Hb.
    unfold exactSubtotal at 1. cbn [fold_left fold_right]. fold (exactSubtotal l).
    remember (toZ (quantity item)) as q eqn:Dq.
    remember (toZ (unitAmount item)) as a eqn:Da.
    rewrite Eq, Ea. assert (0 <= q * a) by nia.
    rewrite mul_exact, add_exact by lia.
    rewrite IH by (lia || assumption). f_equal. lia.
Qed.

Lemma quantity_exact l : forall n,
  0 <= n -> Forall wholeItem l -> n + exactQuantity l < 2 ^ 53 ->
  fold_left (fun sum item => add sum (quantity item)) l (ofZ n)
  = ofZ (n + exactQuantity l).
Proof.
  induction l as [|item l IH]; intros n Hn Hl Hb.
  - simpl. now rewrite Z.add_0_r.
  - inversion Hl as [|? ? [[Hq Eq] _] Hl']; subst.
    pose proof (exactQuantity_nonneg Hl') as Hs.
    unfold exactQuantity in Hb. cbn [fold_right] in Hb. fold (exactQuantity l) in Hb.
    unfold exactQuantity at 1. cbn [fold_left fold_right]. fold (exactQuantity l).
    remember (toZ (quantity item)) as q eqn:Dq.
    rewrite Eq. rewrite add_exact by lia.
    rewrite IH by (lia || assumption). f_equal. lia.
Qed.

Lemma exactSubtotal_perm l l' : Permutation l l' -> exactSubtotal l = exactSubtotal l'.
Proof. induction 1; simpl; lia. Qed.

Lemma exactQuantity_perm l l' : Permutation l l' -> exactQuantity l = exactQuantity l'.
Proof. induction 1; simpl; lia. Qed.

Lemma totals_exact l :
  Forall wholeItem l -> exactSubtotal l < 2 ^ 53 -> exactQuantity l < 2 ^ 53 ->
  calculateTotals l
  = {| subtotal := ofZ (exactSubtotal l); lineItemCount := List.length l;
       totalQuantity := ofZ (exactQuantity l) |}.
Proof.
  intros Hl Hs Hq. unfold calculateTotals. change zero with (ofZ 0).
  rewrite subtotal_exact, quantity_exact by (assumption || lia). reflexivity.
Qed.

(** *** Binary fractions are added and multiplied exactly *)

Lemma round_aux_exact_over j sx m p k :
  0 <= k -> 0 <= j <= 1000 -> Zpos m = Zpos p * 2 ^ k ->
  Zpos (digits2_pos p) <= 53 -> 53 - Zpos (digits2_pos p) <= k ->
  binary_round_aux prec emax sx (Zpos m) (- k - j) loc_Exact = canonicalOver j sx p.
Proof.
  intros Hk Hj Hm Hd Hdk. unfold canonicalOver. set (d := Zpos (digits2_pos p)) in *.
  assert (Dm : Zpos (digits2_pos m) = d + k).
  { apply digits2_unique. rewrite Hm. pose proof (digits2_bounds p) as B. fold d in B.
    assert (E1 : 2 ^ (d + k - 1) = 2 ^ (d - 1) * 2 ^ k)
      by (rewrite <- Z.pow_add_r by lia; f_equal; lia).
    assert (E2 : 2 ^ (d + k) = 2 ^ d * 2 ^ k)
      by (rewrite <- Z.pow_add_r by lia; f_equal; lia).
    rewrite E1, E2.
    assert (0 < 2 ^ k) by (apply Z.pow_pos_nonneg; lia). nia. }
  set (c := Pos.shiftl p (Z.to_N (53 - d))).
  assert (Hc : Zpos c = Zpos p * 2 ^ (53 - d)).
  { unfold c. rewrite shiftl_value, Z2N.id by lia. reflexivity. }
  assert (Dc : Zpos (digits2_pos c) = 53).
  { apply digits2_unique. rewrite Hc. pose proof (digits2_bounds p) as B. fold d in B.
    assert (E1 : 2 ^ (53 - 1) = 2 ^ (d - 1) * 2 ^ (53 - d))
      by (rewrite <- Z.pow_add_r by lia; f_equal; lia).
    assert (E2 : 2 ^ 53 = 2 ^ d * 2 ^ (53 - d))
      by (rewrite <- Z.pow_add_r by lia; f_equal; lia).
    rewrite E1, E2.
    assert (0 < 2 ^ (53 - d)) by (apply Z.pow_pos_nonneg; lia). nia. }
  pose proof (digits2_bounds p) as Bp. fold d in Bp.
  assert (D1 : 1 <= d) by (unfold d; lia).
  assert (S1 : shr_fexp prec emax (Zpos m) (- k - j) loc_Exact
               = ({| shr_m := Zpos c; shr_r := false; shr_s := false |}, d - 53 - j)).
  { unfold shr_fexp. cbn [Zdigits2 shr_record_of_loc]. rewrite Dm.
    unfold fexp, emin, prec, emax.
    replace (Z.max (d + k + (- k - j) - 53) (3 - 1024 - 53) - (- k - j))
      with (d - 53 + k) by lia.
    destruct (d - 53 + k) as [|n|n] eqn:En; [| |lia]; unfold shr.
    - f_equal; [|lia]. f_equal. f_equal. apply Pos2Z.inj. rewrite Hm, Hc. f_equal. f_equal. lia.
    - f_equal; [|lia]. rewrite iter_pos_nat. apply shr_zeros.
      rewrite Hm, Hc, positive_nat_Z, <- Z.mul_assoc, <- Z.pow_add_r by lia.
      f_equal. f_equal. lia. }
  unfold binary_round_aux. rewrite S1. cbn [shr_m loc_of_shr_record round_nearest_even].
  assert (S2 : shr_fexp prec emax (Zpos c) (d - 53 - j) loc_Exact
               = ({| shr_m := Zpos c; shr_r := false; shr_s := false |}, d - 53 - j)).
  { unfold shr_fexp. cbn [Zdigits2 shr_record_of_loc]. rewrite Dc.
    unfold fexp, emin, prec, emax.
    replace (Z.max (53 + (d - 53 - j) - 53) (3 - 1024 - 53) - (d - 53 - j)) with 0 by lia.
    reflexivity. }
  rewrite S2. cbn [shr_m]. unfold prec, emax.
  replace (d - 53 - j <=? 1024 - 53) with true by (symmetry; apply Z.leb_le; lia).
  reflexivity.
Qed.

Lemma round_exact_over j sx m p k :
  0 <= k -> 0 <= j <= 1000 -> Zpos m = Zpos p * 2 ^ k -> Zpos p < 2 ^ 53 ->
  binary_round prec emax sx m (- k - j) = canonicalOver j sx p.
Proof.
  intros Hk Hj Hm Hp. apply digits2_le_53 in Hp.
  set (d := Zpos (digits2_pos p)) in *.
  assert (D1 : 1 <= d) by (unfold d; lia).
  assert (Dm : Zpos (digits2_pos m) = d + k).
  { apply digits2_unique. rewrite Hm. pose proof (digits2_bounds p) as B. fold d in B.
    assert (E1 : 2 ^ (d + k - 1) = 2 ^ (d - 1) * 2 ^ k)
      by (rewrite <- Z.pow_add_r by lia; f_equal; lia).
    assert (E2 : 2 ^ (d + k) = 2 ^ d * 2 ^ k)
      by (rewrite <- Z.pow_add_r by lia; f_equal; lia).
    rewrite E1, E2.
    assert (0 < 2 ^ k) by (apply Z.pow_pos_nonneg; lia). nia. }
  unfold binary_round. rewrite Dm. unfold fexp, emin, prec, emax, shl_align.
  replace (Z.max (d + k + (- k - j) - 53) (3 - 1024 - 53) - (- k - j))
    with (d - 53 + k) by lia.
  replace (Z.max (d + k + (- k - j) - 53) (3 - 1024 - 53)) with (- (53 - d) - j) by lia.
  destruct (d - 53 + k) as [|n|n] eqn:En.
  - apply round_aux_exact_over; fold d; lia || assumption.
  - apply round_aux_exact_over; fold d; lia || assumption.
  - apply round_aux_exact_over; fold d; try lia.
    change (Pos.iter xO m n) with (Pos.shiftl m (Npos n)).
    rewrite shiftl_value, Hm, <- Z.mul_assoc, <- Z.pow_add_r by lia.
    f_equal. f_equal. lia.
Qed.

Lemma fraction_pos j p :
  0 <= j <= 1000 -> Zpos p < 2 ^ 53 -> fraction j (Zpos p) = canonicalOver j false p.
Proof.
  intros Hj H. unfold fraction, binary_normalize.
  replace (- j) with (- 0 - j) by lia.
  apply (@round_exact_over j false p p 0); [lia | lia | lia | exact H].
Qed.

Lemma canonicalOver_value j sx p :
  Zpos p < 2 ^ 53 ->
  exists m e, canonicalOver j sx p = S754_finite sx m e /\ -52 <= e + j <= 0
              /\ Zpos m = Zpos p * 2 ^ (- (e + j))
              /\ e + j = Zpos (digits2_pos p) - 53.
Proof.
  intros H. apply digits2_le_53 in H. unfold canonicalOver.
  pose proof (digits2_bounds p). 
  do 2 eexists. split; [reflexivity|]. split; [lia|]. split; [|lia].
  rewrite shiftl_value, Z2N.id by lia. f_equal. f_equal. lia.
Qed.

Lemma numerator_fraction j n :
  0 <= j <= 1000 -> 0 <= n < 2 ^ 53 -> numerator j (fraction j n) = n.
Proof.
  intros Hj Hn. destruct n as [|p|p]; [reflexivity| |lia].
  rewrite fraction_pos by lia.
  destruct (@canonicalOver_value j false p ltac:(lia)) as (m & e & -> & He & Hm & _).
  cbn [numerator]. remember (- (e + j)) as k eqn:Ek.
  replace (e + j) with (- k) by lia.
  rewrite <- Z.shiftr_opp_r, Z.opp_involutive, Z.shiftr_div_pow2, Hm by lia.
  apply Z.div_mul. apply Z.pow_nonzero; lia.
Qed.

Lemma binaryFraction_fraction j n :
  0 <= j <= 1000 -> 0 <= n < 2 ^ 53 -> binaryFraction j (fraction j n).
Proof. intros Hj Hn. unfold binaryFraction. now rewrite numerator_fraction. Qed.

(** The sum of two fractions over the same power of two, when its
    numerator is below 2^53, is not rounded. *)
Lemma add_exact_over j a b :
  0 <= j <= 1000 -> 0 <= a -> 0 <= b -> a + b < 2 ^ 53 ->
  add (fraction j a) (fraction j b) = fraction j (a + b).
Proof.
  intros Hj Ha Hb Hab.
  destruct a as [|a|a]; [|destruct b as [|b|b]|]; try lia.
  - destruct b as [|b|b]; try lia; [reflexivity|].
    rewrite Z.add_0_l, (@fraction_pos j b) by lia. reflexivity.
  - rewrite Z.add_0_r, (@fraction_pos j a) by lia. reflexivity.
  - change (Z.pos a + Z.pos b) with (Z.pos (a + b)) in *.
    rewrite (@fraction_pos j a), (@fraction_pos j b), (@fraction_pos j (a + b)) by lia.
    destruct (@canonicalOver_value j false a ltac:(lia)) as (ma & ea & -> & Hea & Hma & _).
    destruct (@canonicalOver_value j false b ltac:(lia)) as (mb & eb & -> & Heb & Hmb & _).
    unfold add, SFadd. cbn [cond_Zopp].
    set (ez := Z.min ea eb).
    pose proof (@shl_align_value ma ea ez ltac:(lia)) as Xa.
    pose proof (@shl_align_value mb eb ez ltac:(lia)) as Xb.
    destruct (shl_align ma ea ez) as [xa ?], (shl_align mb eb ez) as [xb ?].
    cbn [fst] in *. change (Z.pos xa + Z.pos xb) with (Z.pos (xa + xb)).
    cbn [binary_normalize]. replace ez with (- (- (ez + j)) - j) at 1 by lia.
    apply round_exact_over; [lia|lia| |lia].
    rewrite !Pos2Z.inj_add, Xa, Xb, Hma, Hmb, <- !Z.mul_assoc, <- !Z.pow_add_r by lia.
    replace (- (ea + j) + (ea - ez)) with (- (ez + j)) by lia.
    replace (- (eb + j) + (eb - ez)) with (- (ez + j)) by lia. lia.
Qed.

(** Nor is the product of two fractions, over the product of their
    powers of two. *)
Lemma mul_exact_over j j' a b :
  0 <= j -> 0 <= j' -> j + j' <= 1000 ->
  0 <= a < 2 ^ 53 -> 0 <= b < 2 ^ 53 -> a * b < 2 ^ 53 ->
  mul (fraction j a) (fraction j' b) = fraction (j + j') (a * b).
Proof.
  intros Hj Hj' Hjj Ha Hb Hab.
  destruct a as [|a|a]; [|destruct b as [|b|b]|]; try lia.
  - destruct b as [|b|b]; try lia; [reflexivity|].
    rewrite Z.mul_0_l, (@fraction_pos j' b) by lia. reflexivity.
  - rewrite Z.mul_0_r, (@fraction_pos j a) by lia. reflexivity.
  - change (Z.pos a * Z.pos b) with (Z.pos (a * b)) in *.
    rewrite (@fraction_pos j a), (@fraction_pos j' b), (@fraction_pos (j + j') (a * b)) by lia.
    destruct (@canonicalOver_value j false a ltac:(lia)) as (ma & ea & -> & Hea & Hma & Ea).
    destruct (@canonicalOver_value j' false b ltac:(lia)) as (mb & eb & -> & Heb & Hmb & Eb).
    unfold mul, SFmul. cbn [xorb].
    replace (ea + eb) with (- (- (ea + j) + - (eb + j')) - (j + j')) by lia.
    pose proof (digits2_mul a b) as D.
    pose proof (proj1 (digits2_le_53 (a * b)) Hab) as D'.
    apply round_aux_exact_over; try lia.
    rewrite Pos2Z.inj_mul, Hma, Hmb, Z.pow_add_r by lia.
    rewrite Pos2Z.inj_mul. ring.
Qed.

Lemma subtotalNumerator_nonneg jq ju l :
  Forall (fractionItem jq ju) l -> 0 <= subtotalNumerator jq ju l.
Proof.
  induction 1 as [|item l [[Hq _] [Ha _]] _ IH]; simpl; [lia|]. nia.
Qed.

Lemma quantityNumerator_nonneg jq ju l :
  Forall (fractionItem jq ju) l -> 0 <= quantityNumerator jq l.
Proof.
  induction 1 as [|item l [[Hq _] _] _ IH]; simpl; lia.
Qed.

Lemma subtotal_exact_over jq ju l : forall n,
  0 <= jq -> 0 <= ju -> jq + ju <= 1000 ->
  0 <= n -> Forall (fractionItem jq ju) l -> n + subtotalNumerator jq ju l < 2 ^ 53 ->
  fold_left (fun sum item => add sum (mul (quantity item) (unitAmount item))) l
            (fraction (jq + ju) n)
  = fraction (jq + ju) (n + subtotalNumerator jq ju l).
Proof.
  induction l as [|item l IH]; intros n Hjq Hju Hj Hn Hl Hb.
  - simpl. now rewrite Z.add_0_r.
  - inversion Hl as [|? ? [[Hq Eq] [Ha Ea]] Hl']; subst.
    pose proof (subtotalNumerator_nonneg Hl') as Hs.
    unfold subtotalNumerator in Hb. cbn [fold_right] in Hb.
    fold (subtotalNumerator jq ju l) in Hb.
    unfold subtotalNumerator at 1. cbn [fold_left fold_right].
    fold (subtotalNumerator jq ju l).
    remember (numerator jq (quantity item)) as q eqn:Dq.
    remember (numerator ju (unitAmount item)) as a eqn:Da.
    rewrite Eq, Ea. assert (0 <= q * a) by nia.
    rewrite mul_exact_over, add_exact_over by lia.
    rewrite IH by (lia || assumption). f_equal. lia.
Qed.

Lemma quantity_exact_over jq ju l : forall n,
  0 <= jq <= 1000 ->
  0 <= n -> Forall (fractionItem jq ju) l -> n + quantityNumerator jq l < 2 ^ 53 ->
  fold_left (fun sum item => add sum (quantity item)) l (fraction jq n)
  = fraction jq (n + quantityNumerator jq l).
Proof.
  induction l as [|item l IH]; intros n Hjq Hn Hl Hb.
  - simpl. now rewrite Z.add_0_r.
  - inversion Hl as [|? ? [[Hq Eq] _] Hl']; subst.
    pose proof (quantityNumerator_nonneg Hl') as Hs.
    unfold quantityNumerator in Hb. cbn [fold_right] in Hb.
    fold (quantityNumerator jq l) in Hb.
    unfold quantityNumerator at 1. cbn [fold_left fold_right].
    fold (quantityNumerator jq l).
    remember (numerator jq (quantity item)) as q eqn:Dq.
    rewrite Eq. rewrite add_exact_over by lia.
    rewrite IH by (lia || assumption). f_equal. lia.
Qed.

Lemma subtotalNumerator_perm jq ju l l' :
  Permutation l l' -> subtotalNumerator jq ju l = subtotalNumerator jq ju l'.
Proof. induction 1; simpl; lia. Qed.

Lemma quantityNumerator_perm jq l l' :
  Permutation l l' -> quantityNumerator jq l = quantityNumerator jq l'.
Proof. induction 1; simpl; lia. Qed.

Lemma totals_exact_over jq ju l :
  0 <= jq -> 0 <= ju -> jq + ju <= 1000 ->
  Forall (fractionItem jq ju) l ->
  subtotalNumerator jq ju l < 2 ^ 53 -> quantityNumerator jq l < 2 ^ 53 ->
  calculateTotals l
  = {| subtotal := fraction (jq + ju) (subtotalNumerator jq ju l);
       lineItemCount := List.length l;
       totalQuantity := fraction jq (quantityNumerator jq l) |}.
Proof.
  intros Hjq Hju Hj Hl Hs Hq. unfold calculateTotals.
  change zero with (fraction (jq + ju) 0) at 1.
  rewrite subtotal_exact_over by (assumption || lia).
  change zero with (fraction jq 0).
  rewrite (@quantity_exact_over jq ju) by (assumption || lia). reflexivity.
Qed.

(** C5, as the code has it.  The line item count is the same for every
    order of the line items.  The subtotal and the total quantity are sums
    of Numbers, which are rounded, so they are the same for every order
    when nothing can be rounded: when the quantities and unit amounts are
    whole numbers and the exact subtotal and total quantity are below
    2^53 and, more generally, when the quantities are multiples of a power
    of two [2^(-jq)] and the unit amounts multiples of a power of two
    [2^(-ju)], as 0.5 and 0.25 are, and the numerators of the exact
    subtotal and total quantity are below 2^53. *)
Theorem totals_order_independent (l l' : list ParsedLineItem) :
  Permutation l l' ->
  lineItemCount (calculateTotals l) = lineItemCount (calculateTotals l')
  /\ (Forall wholeItem l -> exactSubtotal l < 2 ^ 53 -> exactQuantity l < 2 ^ 53 ->
      calculateTotals l = calculateTotals l')
  /\ (forall jq ju,
         0 <= jq -> 0 <= ju -> jq + ju <= 1000 ->
         Forall (fractionItem jq ju) l ->
         subtotalNumerator jq ju l < 2 ^ 53 -> quantityNumerator jq l < 2 ^ 53 ->
         calculateTotals l = calculateTotals l').
Proof.
  intros P. split; [apply (Permutation_length P)|]. split.
  - intros Hl Hs Hq.
    rewrite (totals_exact Hl Hs Hq), totals_exact.
    + now rewrite (exactSubtotal_perm P), (exactQuantity_perm P), (Permutation_length P).
    + exact (Permutation_Forall P Hl).
    + now rewrite <- (exactSubtotal_perm P).
    + now rewrite <- (exactQuantity_perm P).
  - intros jq ju Hjq Hju Hj Hl Hs Hq.
    rewrite (totals_exact_over Hjq Hju Hj Hl Hs Hq), (@totals_exact_over jq ju l').
    + now rewrite (subtotalNumerator_perm jq ju P), (quantityNumerator_perm jq P),
        (Permutation_length P).
    + assumption.
    + assumption.
    + assumption.
    + exact (Permutation_Forall P Hl).
    + now rewrite <- (subtotalNumerator_perm jq ju P).
    + now rewrite <- (quantityNumerator_perm jq P).
Qed.

(** C5, as stated, fails: 0.1 + 0.2 + 0.3 is 0.6000000000000001 and
    0.3 + 0.2 + 0.1 is 0.6. *)
Lemma totals_depend_on_order :
  Permutation [tenths 1; tenths 2; tenths 3] [tenths 3; tenths 2; tenths 1]
  /\ subtotal (calculateTotals [tenths 1; tenths 2; tenths 3])
     = ofDecimal false 6000000000000001 (-16)
  /\ subtotal (calculateTotals [tenths 3; tenths 2; tenths 1])
     = ofDecimal false 6 (-1)
  /\ calculateTotals [tenths 1; tenths 2; tenths 3]
     <> calculateTotals [tenths 3; tenths 2; tenths 1].
Proof.
  split.
  - apply Permutation_rev.
  - repeat split; try (vm_compute; reflexivity). vm_compute. discriminate.
Qed.

Lemma totals_order_independent_witness :
  calculateTotals [units 5 150; units 2 75]
  = calculateTotals [units 2 75; units 5 150]
  /\ calculateTotals [portions 1 2 3 9; portions 1 2 1 40]
     = calculateTotals [portions 1 2 1 40; portions 1 2 3 9].
Proof.
  split.
  - apply (proj1 (proj2 (@totals_order_independent
                           [units 5 150; units 2 75] [units 2 75; units 5 150]
                           (perm_swap _ _ _)))).
    + repeat constructor; vm_compute; congruence.
    + reflexivity.
    + reflexivity.
  - apply (proj2 (proj2 (@totals_order_independent
                           [portions 1 2 3 9; portions 1 2 1 40]
                           [portions 1 2 1 40; portions 1 2 3 9]
                           (perm_swap _ _ _))) 1 2); try lia.
    + repeat constructor; vm_compute; congruence.
    + reflexivity.
    + reflexivity.
Defined.

(** 0.5 and 0.25 are binary fractions; 1.5 at 2.25 each and 0.5 at 10 each
    come to 8.375. *)
Example portions_totals :
  binaryFraction 1 (parseFloat (u "0.5"))
  /\ binaryFraction 2 (parseFloat (u "0.25"))
  /\ quantity (portions 1 2 3 9) = parseFloat (u "1.5")
  /\ unitAmount (portions 1 2 3 9) = parseFloat (u "2.25")
  /\ subtotal (calculateTotals [portions 1 2 3 9; portions 1 2 1 40])
     = parseFloat (u "8.375").
Proof. repeat split; vm_compute; congruence. Qed.

End WholeNumbers.

(** * Further properties of the quote mapper *)

(** ** The validator accepts exactly what passes its checks *)

Section ValidatorExactness.

Lemma forallb_false_witness (p : char -> bool) s :
  forallb p s = false -> exists c, In c s /\ p c = false.
Proof.
  induction s as [|c s IH]; simpl; [discriminate|].
  destruct (p c) eqn:E; simpl.
  - intros H. destruct (IH H) as (x & Hx & Px). exists x. auto.
  - intros _. exists c. auto.
Qed.

Lemma blank_false s : blank s = false -> exists n, s = Some n /\ nonBlank n.
Proof.
  destruct s as [[|c n]|]; simpl; try discriminate.
  intros H. exists (c :: n). split; [reflexivity|].
  destruct (forallb isWhiteSpace (c :: n)) eqn:F.
  - apply trim_all_space in F. rewrite F in H. discriminate.
  - exact (forallb_false_witness _ _ F).
Qed.

Lemma notPositive_false v :
  notPositive v = false -> exists q, v = VNum q /\ leb q zero = false.
Proof. destruct v; simpl; try discriminate. eauto. Qed.

Lemma negative_false v :
  negative v = false -> exists a, v = VNum a /\ ltb a zero = false.
Proof. destruct v; simpl; try discriminate. eauto. Qed.

Lemma checkItem_nil item index :
  checkItem item index [] = [] <-> acceptedItem item.
Proof.
  unfold checkItem, pushIf, push. split.
  - intros H.
    destruct (blank (rawDescription item)) eqn:B,
      (notPositive (rawQuantity item)) eqn:Q,
      (negative (rawUnitAmount item)) eqn:A; try discriminate.
    constructor; [now apply blank_false | now apply notPositive_false
                 | now apply negative_false].
  - intros [(d & Ed & Hd) (q & Eq & Hq) (a & Ea & Ha)].
    rewrite Ed, Eq, Ea. cbn [notPositive negative].
    now rewrite (nonBlank_not_blank Hd), Hq, Ha.
Qed.

Lemma forEachFrom_nil items : forall index,
  forEachFrom index items [] = [] <-> Forall acceptedItem items.
Proof.
  induction items as [|item rest IH]; intros index.
  - split; constructor.
  - rewrite forEachFrom_cons. split.
    + intros H. apply app_eq_nil in H as [H1 H2].
      constructor; [now apply (checkItem_nil item index) | now apply (IH (S index))].
    + intros H. inversion H; subst.
      rewrite (proj2 (checkItem_nil item index)), (proj2 (IH (S index))); auto.
Qed.

Lemma lang_star_cls p s : lang (Star (Cls p)) s -> forallb p s = true.
Proof.
  intros H. remember (Star (Cls p)) as r eqn:Er.
  induction H as [| | | | | |r0 s1 s2 H1 _ H2 IH2]; try discriminate; [reflexivity|].
  injection Er as ->. inversion H1; subst. simpl.
  rewrite IH2 by reflexivity. now rewrite andb_true_r.
Qed.

Lemma lang_plus_cls_inv p s :
  lang (Plus (Cls p)) s -> s <> [] /\ forallb p s = true.
Proof.
  unfold Plus. intros H. inversion H as [| |? ? s1 s2 H1 H2| | | |]; subst.
  inversion H1; subst. apply lang_star_cls in H2. simpl.
  split; [discriminate|]. now rewrite H2, andb_true_r.
Qed.

Lemma emailPart_of_lang s : lang (Plus (Cls notSpaceAt)) s -> emailPart s.
Proof.
  intros H. apply lang_plus_cls_inv in H as [Hne Hall]. split; [exact Hne|].
  apply Forall_forall. intros c Hc. rewrite forallb_forall in Hall.
  specialize (Hall c Hc). unfold notSpaceAt, char_eqb in Hall.
  apply negb_true_iff, orb_false_iff in Hall as [Hw Hat].
  split; [exact Hw | now apply N.eqb_neq].
Qed.

(** The e-mail pattern accepts exactly the strings of the e-mail shape. *)
Lemma test_emailRegex_iff e : test emailRegex e = true <-> emailShape e.
Proof.
  split; [|apply test_emailRegex].
  intros H. apply test_lang in H. unfold emailRegex in H.
  inversion H as [| |? ? l r1 Hl H1| | | |]; subst; clear H.
  inversion H1 as [| |? ? at1 r2 Hat H2| | | |]; subst; clear H1.
  inversion H2 as [| |? ? d r3 Hd H3| | | |]; subst; clear H2.
  inversion H3 as [| |? ? dot t Hdot Ht| | | |]; subst; clear H3.
  apply lang_chr_inv in Hat as ->. apply lang_chr_inv in Hdot as ->.
  exists l, d, t. repeat split; try (now apply emailPart_of_lang).
Qed.

Lemma emailErrors_nil data :
  emailErrors data = [] <->
  (forall e, rawContactEmail data = Some e -> e <> [] -> emailShape e).
Proof.
  unfold emailErrors, given, pushIf, push.
  destruct (rawContactEmail data) as [[|c e]|].
  - split; [intros _ e [= <-] H; congruence | reflexivity].
  - destruct (test emailRegex (c :: e)) eqn:T; cbn [negb app]; split.
    + intros _ e' [= <-] _. now apply test_emailRegex_iff.
    + reflexivity.
    + discriminate.
    + intros H. specialize (H _ eq_refl ltac:(discriminate)).
      apply test_emailRegex_iff in H. congruence.
  - split; [intros _ e [=] | reflexivity].
Qed.

Lemma dateErrors_nil data :
  dateErrors data = [] <->
  (forall d, rawDate data = Some d -> d <> [] -> isDateShape d = true).
Proof.
  unfold dateErrors, given, pushIf, push.
  destruct (rawDate data) as [[|c d]|].
  - split; [intros _ d [= <-] H; congruence | reflexivity].
  - rewrite test_dateRegex.
    destruct (isDateShape (c :: d)) eqn:T; cbn [negb app]; split.
    + intros _ d' [= <-] _. exact T.
    + reflexivity.
    + discriminate.
    + intros H. specialize (H _ eq_refl ltac:(discriminate)). congruence.
  - split; [intros _ d [=] | reflexivity].
Qed.

(** No error at all, check by check. *)
Lemma no_errors_accepted data :
  errors (validateQuoteData data) = [] <-> accepted data.
Proof.
  rewrite errors_parts. split.
  - intros H. apply app_eq_nil in H as [Hn H]. apply app_eq_nil in H as [Hi H].
    apply app_eq_nil in H as [He Hd]. constructor.
    + unfold nameErrors, pushIf, push in Hn.
      destruct (blank (rawContactName data)) eqn:B; [discriminate|].
      now apply blank_false.
    + unfold itemsErrors in Hi.
      destruct (rawLineItems data) as [[|item rest]|]; try discriminate.
      exists (item :: rest). split; [reflexivity|]. split; [discriminate|].
      now apply (forEachFrom_nil (item :: rest) 0).
    + now apply emailErrors_nil.
    + now apply dateErrors_nil.
  - intros [(n & En & Hn) (items & Ei & Hne & Hitems) Hemail Hdate].
    rewrite (proj2 (emailErrors_nil data) Hemail), (proj2 (dateErrors_nil data) Hdate).
    unfold nameErrors, itemsErrors. rewrite En, Ei, (nonBlank_not_blank Hn).
    destruct items as [|item rest]; [congruence|].
    now rewrite (proj2 (forEachFrom_nil (item :: rest) 0) Hitems).
Qed.

Lemma valid_accepted data :
  valid (validateQuoteData data) = true <-> accepted data.
Proof. rewrite valid_iff_no_errors. apply no_errors_accepted. Qed.

(** X1.  [validateQuoteData] returns [valid = true] exactly for the
    requests that have a contact name that is not blank, at least one line
    item, in every item a description that is not blank, a number that is
    not [<= 0] as quantity and a number that is not [< 0] as unit amount,
    an e-mail address that is empty or of the shape [local@domain.tld] if
    there is one, and a date that is empty or of the shape [YYYY-MM-DD] if
    there is one. *)
Theorem validateQuoteData_accepts_exactly (data : RawQuoteInput) :
  valid (validateQuoteData data) = true <-> accepted data.
Proof. apply valid_accepted. Qed.

End ValidatorExactness.

(** ** Messages about line items are never misplaced *)

Section ItemMessages.

(** [showNat] prints the number it is given. *)
Lemma digitsOfPos_value fuel : forall n acc,
  (N.to_nat n < fuel)%nat ->
  fold_left (fun a c => (10 * a + (c - 48))%N) (digitsOfPos fuel n acc) 0%N
  = fold_left (fun a c => (10 * a + (c - 48))%N) acc n.
Proof.
  induction fuel as [|fuel IH]; intros n acc Hf; [lia|].
  cbn [digitsOfPos]. destruct (n <? 10)%N eqn:L.
  - apply N.ltb_lt in L. cbn [fold_left]. f_equal.
    rewrite N.mod_small by exact L. lia.
  - apply N.ltb_ge in L.
    assert (D : (n / 10 < n)%N) by (apply N.div_lt; lia).
    rewrite IH by lia. cbn [fold_left]. f_equal.
    pose proof (N.div_mod n 10%N ltac:(discriminate)) as E.
    revert E. generalize (n / 10)%N (n mod 10)%N. intros q r E. lia.
Qed.

Lemma showNat_value n : digitsValue (showNat n) = N.of_nat n.
Proof.
  unfold digitsValue, showNat. rewrite digitsOfPos_value; [reflexivity|].
  rewrite Nat2N.id. lia.
Qed.

Lemma showNat_inj n m : showNat n = showNat m -> n = m.
Proof.
  intros H. apply (f_equal digitsValue) in H.
  rewrite !showNat_value in H. now apply Nat2N.inj.
Qed.

Lemma span_showNat n rest :
  span isDigit (showNat n ++ 58%N :: rest) = (showNat n, 58%N :: rest).
Proof.
  apply span_app; [|reflexivity].
  apply forallb_forall. intros c Hc.
  exact (proj1 (Forall_forall _ _) (showNat_digits n) c Hc).
Qed.

(** Two item messages are equal only for the same position and text. *)
Lemma itemMessage_inj p p' what what' r r' :
  u what = 58%N :: r -> u what' = 58%N :: r' ->
  itemMessage p what = itemMessage p' what' -> p = p' /\ r = r'.
Proof.
  unfold itemMessage. intros E E' H. apply app_inv_head in H.
  rewrite E, E' in H. apply (f_equal (span isDigit)) in H.
  rewrite !span_showNat in H. injection H as H1 H2.
  split; [now apply showNat_inj | exact H2].
Qed.

Lemma blank_missingOrBlank s : blank s = true -> missingOrBlank s.
Proof.
  destruct s as [[|c s]|]; simpl; auto.
  intros H. apply str_eqb_nil in H. exact (trim_nil_all_space _ H).
Qed.

Lemma notPositive_true v : notPositive v = true -> notNumberOrNotPositive v.
Proof. destruct v; simpl; intros H; try (now left). right. eauto. Qed.

Lemma negative_true v : negative v = true -> notNumberOrNegative v.
Proof. destruct v; simpl; intros H; try (now left). right. eauto. Qed.

Lemma checkItem_In_inv item index msg :
  In msg (checkItem item index []) ->
  (msg = msgDescription index /\ blank (rawDescription item) = true)
  \/ (msg = msgQuantity index /\ notPositive (rawQuantity item) = true)
  \/ (msg = msgUnitAmount index /\ negative (rawUnitAmount item) = true).
Proof.
  unfold checkItem, pushIf, push.
  destruct (blank _), (notPositive _), (negative _); cbn [app In];
    intuition auto.
Qed.

Lemma forEachFrom_In_inv items : forall index msg,
  In msg (forEachFrom index items []) ->
  exists k item, nth_error items k = Some item
                 /\ In msg (checkItem item (index + k) []).
Proof.
  induction items as [|it rest IH]; intros index msg H; [destruct H|].
  rewrite forEachFrom_cons in H. apply in_app_or in H as [H|H].
  - exists 0, it. rewrite Nat.add_0_r. auto.
  - destruct (IH _ _ H) as (k & item & Hk & Hin).
    exists (S k), item. rewrite Nat.add_succ_r. auto.
Qed.

(** A message about an item is in the error list only as one of its
    line-item messages. *)
Lemma item_message_source data p what r :
  u what = 58%N :: r ->
  In (itemMessage p what) (errors (validateQuoteData data)) ->
  exists items k item,
    rawLineItems data = Some items /\ nth_error items k = Some item
    /\ In (itemMessage p what) (checkItem item k []).
Proof.
  intros E H. rewrite errors_parts, !in_app_iff in H.
  destruct H as [H|[H|[H|H]]].
  - exfalso. revert H. apply (not_In_by_head _ (nameErrors_heads data)). discriminate.
  - unfold itemsErrors in H. destruct (rawLineItems data) as [[|it rest]|].
    + destruct H as [H|[]]. discriminate.
    + apply forEachFrom_In_inv in H as (k & item & Hk & Hin).
      now exists (it :: rest), k, item.
    + destruct H as [H|[]]. discriminate.
  - exfalso. revert H. apply (not_In_by_head _ (emailErrors_heads data)). discriminate.
  - exfalso. revert H. apply (not_In_by_head _ (dateErrors_heads data)). discriminate.
Qed.

Ltac same_message H :=
  match type of H with
  | itemMessage ?p ?w = ?m =>
      unfold msgDescription, msgQuantity, msgUnitAmount, msgLineItem in H;
      fold (itemMessage p w) in H;
      match type of H with
      | _ = u _ ++ showNat ?n ++ u ?w' =>
          change (u "Line item " ++ showNat n ++ u w') with (itemMessage n w') in H;
          eapply itemMessage_inj in H; [|reflexivity|reflexivity]
      end
  end.

(** The three kinds of message, each with its check. *)
Lemma item_message_iff data p :
  (In (itemMessage p ": quantity must be a positive number")
      (errors (validateQuoteData data))
   <-> exists item, itemAt data p item /\ notNumberOrNotPositive (rawQuantity item))
  /\ (In (itemMessage p ": description is required")
         (errors (validateQuoteData data))
      <-> exists item, itemAt data p item /\ missingOrBlank (rawDescription item))
  /\ (In (itemMessage p ": unit amount must be a non-negative number")
         (errors (validateQuoteData data))
      <-> exists item, itemAt data p item /\ notNumberOrNegative (rawUnitAmount item)).
Proof.
  repeat split.
  - intros H. eapply item_message_source in H as (items & k & item & Ei & Hk & Hin);
      [|reflexivity].
    apply checkItem_In_inv in Hin as [[E _]|[[E Hc]|[E _]]]; same_message E;
      destruct E as [-> E']; try discriminate.
    exists item. split; [|now apply notPositive_true].
    exists items. replace (k + 1 - 1) with k by lia. repeat split; auto; lia.
  - intros (item & (items & Ei & Hp & Hk) & Hbad).
    destruct (checkItem_In item (p - 1)) as (_ & Hq & _).
    unfold msgQuantity, msgLineItem in Hq. replace (p - 1 + 1) with p in Hq by lia.
    eapply itemsErrors_In; [exact Ei | exact Hk |]. apply Hq, notPositive_spec, Hbad.
  - intros H. eapply item_message_source in H as (items & k & item & Ei & Hk & Hin);
      [|reflexivity].
    apply checkItem_In_inv in Hin as [[E Hc]|[[E _]|[E _]]]; same_message E;
      destruct E as [-> E']; try discriminate.
    exists item. split; [|now apply blank_missingOrBlank].
    exists items. replace (k + 1 - 1) with k by lia. repeat split; auto; lia.
  - intros (item & (items & Ei & Hp & Hk) & Hbad).
    destruct (checkItem_In item (p - 1)) as (Hd & _ & _).
    unfold msgDescription, msgLineItem in Hd. replace (p - 1 + 1) with p in Hd by lia.
    eapply itemsErrors_In; [exact Ei | exact Hk |]. apply Hd, missingOrBlank_blank, Hbad.
  - intros H. eapply item_message_source in H as (items & k & item & Ei & Hk & Hin);
      [|reflexivity].
    apply checkItem_In_inv in Hin as [[E _]|[[E _]|[E Hc]]]; same_message E;
      destruct E as [-> E']; try discriminate.
    exists item. split; [|now apply negative_true].
    exists items. replace (k + 1 - 1) with k by lia. repeat split; auto; lia.
  - intros (item & (items & Ei & Hp & Hk) & Hbad).
    destruct (checkItem_In item (p - 1)) as (_ & _ & Ha).
    unfold msgUnitAmount, msgLineItem in Ha. replace (p - 1 + 1) with p in Ha by lia.
    eapply itemsErrors_In; [exact Ei | exact Hk |]. apply Ha, negative_spec, Hbad.
Qed.

(** X2.  A message indexed to the position [p] is in the error list
    exactly when the request has an item at the 1-based position [p] that
    fails the check the message is about: no message is given for an item
    that passes, or under another position. *)
Theorem line_item_messages_exact (data : RawQuoteInput) (p : nat) :
  (In (itemMessage p ": quantity must be a positive number")
      (errors (validateQuoteData data))
   <-> exists item, itemAt data p item /\ notNumberOrNotPositive (rawQuantity item))
  /\ (In (itemMessage p ": description is required")
         (errors (validateQuoteData data))
      <-> exists item, itemAt data p item /\ missingOrBlank (rawDescription item))
  /\ (In (itemMessage p ": unit amount must be a non-negative number")
         (errors (validateQuoteData data))
      <-> exists item, itemAt data p item /\ notNumberOrNegative (rawUnitAmount item)).
Proof. apply item_message_iff. Qed.

Lemma itemAt_unique data p item item' :
  itemAt data p item -> itemAt data p item' -> item = item'.
Proof.
  intros (items & Ei & _ & Hk) (items' & Ei' & _ & Hk'). congruence.
Qed.

(** X3.  The numeric checks let [NaN] through, and [Infinity] as a
    quantity: an item whose quantity is [NaN] or [Infinity] gets no
    message about its quantity, and one whose unit amount is [NaN] or
    [Infinity] gets none about its unit amount. *)
Theorem nan_and_infinity_not_reported
  (data : RawQuoteInput) (p : nat) (item : RawLineItem) :
  itemAt data p item ->
  (rawQuantity item = VNum NaN \/ rawQuantity item = VNum (Infinity false) ->
   ~ In (itemMessage p ": quantity must be a positive number")
        (errors (validateQuoteData data)))
  /\ (rawUnitAmount item = VNum NaN \/ rawUnitAmount item = VNum (Infinity false) ->
      ~ In (itemMessage p ": unit amount must be a non-negative number")
           (errors (validateQuoteData data))).
Proof.
  intros Hat. destruct (item_message_iff data p) as (Hq & _ & Ha). split.
  - intros Hv Hin. apply Hq in Hin as (item' & Hat' & Hbad).
    rewrite <- (itemAt_unique Hat Hat') in Hbad.
    destruct Hbad as [Hn|(x & Ex & Hx)], Hv as [Hv|Hv]; rewrite Hv in *;
      try discriminate; injection Ex as <-; discriminate.
  - intros Hv Hin. apply Ha in Hin as (item' & Hat' & Hbad).
    rewrite <- (itemAt_unique Hat Hat') in Hbad.
    destruct Hbad as [Hn|(x & Ex & Hx)], Hv as [Hv|Hv]; rewrite Hv in *;
      try discriminate; injection Ex as <-; discriminate.
Qed.


Lemma nan_and_infinity_not_reported_witness :
  ~ In (itemMessage 1 ": quantity must be a positive number")
       (errors (validateQuoteData unbounded))
  /\ ~ In (itemMessage 1 ": unit amount must be a non-negative number")
          (errors (validateQuoteData unbounded)).
Proof.
  destruct (@nan_and_infinity_not_reported unbounded 1
              {| rawDescription := Some (u "Consulting"); rawQuantity := VNum NaN;
                 rawUnitAmount := VNum (Infinity false); rawAccountCode := None |})
    as [Hq Ha].
  - eexists. split; [reflexivity|]. split; [lia | reflexivity].
  - split; [apply Hq; now left | apply Ha; now right].
Defined.

End ItemMessages.

(** ** Mapping and validating *)

Section MapperComposition.

Lemma digitsOfPos_length fuel : forall n acc k,
  1 <= k -> (n < 10 ^ N.of_nat k)%N ->
  List.length (digitsOfPos fuel n acc) <= k + List.length acc.
Proof.
  induction fuel as [|fuel IH]; intros n acc k Hk Hn; cbn [digitsOfPos]; [lia|].
  destruct (n <? 10)%N eqn:L; [simpl; lia|].
  apply N.ltb_ge in L. destruct k as [|[|k]]; [lia| |].
  - change (10 ^ N.of_nat 1)%N with 10%N in Hn. lia.
  - specialize (IH (n / 10)%N ((48 + n mod 10)%N :: acc) (S k) ltac:(lia)).
    cbn [List.length] in IH. rewrite IH; [lia|].
    apply N.Div0.div_lt_upper_bound.
    rewrite Nat2N.inj_succ, N.pow_succ_r' in Hn. exact Hn.
Qed.

Lemma showNat_length n k :
  1 <= k -> n < 10 ^ k -> List.length (showNat n) <= k.
Proof.
  intros Hk Hn. unfold showNat.
  pose proof (@digitsOfPos_length (S n) (N.of_nat n) [] k Hk) as H.
  simpl List.length in H. rewrite Nat.add_0_r in H. apply H.
  change 10%N with (N.of_nat 10). rewrite <- Nat2N.inj_pow. lia.
Qed.

(** A number that fits is padded to the width exactly, with digits. *)
Lemma pad_exact width n :
  1 <= width -> n < 10 ^ width ->
  List.length (pad width n) = width /\ forallb isDigit (pad width n) = true.
Proof.
  intros Hw Hn. pose proof (showNat_length Hw Hn) as L. unfold pad. split.
  - rewrite length_app, repeat_length. unfold jsstring, char in *. clear Hn. lia.
  - rewrite forallb_app. apply andb_true_iff. split.
    + apply forallb_forall. intros c Hc. apply repeat_spec in Hc as ->. reflexivity.
    + apply forallb_forall. intros c Hc.
      exact (proj1 (Forall_forall _ _) (showNat_digits n) c Hc).
Qed.

Lemma isDateShape_head c l : isDateShape (c :: l) = true -> isDigit c = true.
Proof.
  do 9 (destruct l as [|? l]; [discriminate|]).
  destruct l; [|discriminate]. cbn [isDateShape]. intros H.
  repeat match goal with
         | H : _ && _ = true |- _ => apply andb_true_iff in H as [H _]
         end.
  exact H.
Qed.

(** The day of an ISO string has the date shape exactly in the years 0 to
    9999. *)
Lemma isoDay_shape now :
  calendarDay now ->
  (isDateShape (isoDay now) = true <-> (0 <= year now <= 9999)%Z).
Proof.
  intros [Hm Hd]. unfold isoDay, isoYear. change (u "-") with [45%N].
  destruct ((0 <=? year now)%Z && (year now <=? 9999)%Z) eqn:Y.
  - apply andb_true_iff in Y as [Y1 Y2]. apply Z.leb_le in Y1, Y2.
    split; [lia|]. intros _.
    assert (P4 : 10 ^ 4 = Z.to_nat 10000) by (vm_compute; reflexivity).
    destruct (@pad_exact 4 (Z.to_nat (year now)) ltac:(lia)
                ltac:(rewrite P4; lia)) as [L4 D4].
    destruct (@pad_exact 2 (month now) ltac:(lia)
                ltac:(change (10 ^ 2) with 100; lia)) as [L2 D2].
    destruct (@pad_exact 2 (day now) ltac:(lia)
                ltac:(change (10 ^ 2) with 100; lia)) as [L2' D2'].
    destruct (pad 4 _) as [|y1 [|y2 [|y3 [|y4 [|? ?]]]]]; try discriminate.
    destruct (pad 2 (month now)) as [|m1 [|m2 [|? ?]]]; try discriminate.
    destruct (pad 2 (day now)) as [|d1 [|d2 [|? ?]]]; try discriminate.
    cbn [forallb] in D4, D2, D2'. cbn [app isDateShape].
    repeat match goal with
           | H : _ && _ = true |- _ => apply andb_true_iff in H as [? H]
           end.
    repeat match goal with H : isDigit _ = true |- _ => rewrite H; clear H end.
    reflexivity.
  - split.
    + intros H. cbn [app] in H. apply isDateShape_head in H.
      destruct (year now <? 0)%Z; discriminate.
    + intros [Y1 Y2]. apply andb_false_iff in Y as [Y|Y];
        apply Z.leb_gt in Y; lia.
Qed.

Lemma nonBlank_trim s : nonBlank s -> nonBlank (trim s).
Proof.
  intros H. pose proof (nonBlank_not_blank H) as B.
  pose proof (trim_headFree s) as F.
  destruct s as [|a s]; [destruct H as (c & [] & _)|]. cbn [blank] in B.
  destruct (trim (a :: s)) as [|c t]; [discriminate|].
  exists c. split; [now left | exact F].
Qed.

Lemma emailPart_head p : emailPart p -> exists c r, p = c :: r /\ isWhiteSpace c = false.
Proof.
  intros [Hne Hall]. destruct p as [|c r]; [congruence|].
  inversion Hall as [|? ? [Hc _] _]; subst. eauto.
Qed.

Lemma emailPart_last p : emailPart p -> headFree isWhiteSpace (rev p).
Proof.
  intros [Hne Hall]. destruct (rev p) as [|c r] eqn:E; [exact I|]. simpl.
  assert (Hin : In c p) by (apply in_rev; rewrite E; now left).
  exact (proj1 (proj1 (Forall_forall _ _) Hall c Hin)).
Qed.

(** An address of the e-mail shape has no white space to trim. *)
Lemma emailShape_trimmed e : emailShape e -> trim e = e.
Proof.
  intros (l & d & t & -> & Hl & _ & Ht). apply trim_fixed.
  - destruct (emailPart_head Hl) as (c & r & -> & Hc). exact Hc.
  - pose proof (emailPart_last Ht) as F. destruct Ht as [Hne _].
    rewrite rev_app_distr. cbn [rev]. rewrite rev_app_distr. cbn [rev].
    destruct (rev t) as [|c r] eqn:E.
    + apply (f_equal (@rev char)) in E. rewrite rev_involutive in E. now subst.
    + assert (F' : headFree isWhiteSpace (c :: r)) by (rewrite <- E; exact F).
      exact F'.
Qed.

Lemma acceptedItem_mapped item :
  acceptedItem (rawItem item) ->
  acceptedItem
    (rawItem {| description := trim (description item);
                quantity := quantity item;
                unitAmount := unitAmount item;
                accountCode := Some (orElse (accountCode item) (u "200")) |}).
Proof.
  intros [(d & Ed & Hd) Hq Ha]. cbn in Ed. injection Ed as <-.
  constructor; cbn; [|exact Hq|exact Ha].
  eexists. split; [reflexivity | now apply nonBlank_trim].
Qed.

(** What is left to check of a mapped request is its date. *)
Lemma mapped_accepted now r :
  accepted (rawInput r) ->
  (accepted (rawInput (toQuoteData now r))
   <-> isDateShape (orElse (date r) (isoDay now)) = true).
Proof.
  intros [(n & En & Hn) (items & Ei & Hne & Hitems) Hemail Hdate].
  cbn in En, Ei, Hemail, Hdate. injection En as <-. injection Ei as <-.
  assert (Hout : rawDate (rawInput (toQuoteData now r))
                 = Some (orElse (date r) (isoDay now))).
  { cbn. now rewrite isoString_day. }
  split.
  - intros [_ _ _ Hd]. apply (Hd _ Hout).
    apply orElse_not_nil, isoDay_not_nil.
  - intros Hshape. constructor.
    + eexists. split; [reflexivity|]. cbn. now apply nonBlank_trim.
    + eexists. split; [reflexivity|]. cbn [toQuoteData lineItems]. split.
      * destruct (lineItems r); [now destruct Hne | discriminate].
      * rewrite map_map. rewrite Forall_map in *.
        eapply Forall_impl; [|exact Hitems]. intros item. apply acceptedItem_mapped.
    + cbn. intros e He Hne'. destruct (contactEmail r) as [e0|]; [|discriminate].
      cbn in He. injection He as <-.
      assert (e0 <> []) by (intros ->; now apply Hne').
      rewrite emailShape_trimmed; now apply Hemail.
    + intros d Ed _. rewrite Hout in Ed. now injection Ed as <-.
Qed.

(** X5.  A valid request stays valid when mapped by [toQuoteData], except
    for its date: mapped on a calendar day, the result is valid exactly
    when the request has a date of its own or the year of the day is
    between 0 and 9999 (the day of a later year is written with a sign and
    six digits, which the date check refuses). *)
Theorem toQuoteData_keeps_validity (now : Date) (r : ParsedQuoteInput) :
  calendarDay now ->
  valid (validateQuoteData (rawInput r)) = true ->
  (valid (validateQuoteData (rawInput (toQuoteData now r))) = true
   <-> present (date r) \/ (0 <= year now <= 9999)%Z).
Proof.
  intros Hday Hvalid. apply valid_accepted in Hvalid.
  rewrite valid_accepted, (mapped_accepted now Hvalid).
  destruct Hvalid as [_ _ _ Hdate]. cbn in Hdate.
  unfold orElse, given. destruct (date r) as [[|c d]|] eqn:E.
  - rewrite (isoDay_shape Hday). split; [auto|].
    intros [(s & [= <-] & Hs)|H]; [congruence | exact H].
  - split; [intros _; left; exists (c :: d); split; [reflexivity | discriminate]|].
    intros _. apply Hdate; [reflexivity | discriminate].
  - rewrite (isoDay_shape Hday). split; [auto|].
    intros [(s & [=] & _)|H]. exact H.
Qed.

Lemma toQuoteData_keeps_validity_witness :
  valid (validateQuoteData (rawInput (toQuoteData someDay acme))) = true.
Proof.
  apply (proj2 (@toQuoteData_keeps_validity someDay acme
                  ltac:(split; simpl; lia) eq_refl)).
  right. simpl. lia.
Defined.

Lemma fold_left_mapped (A B C : Type) (f : A -> C -> A) (g : B -> C) l : forall a,
  fold_left f (map g l) a = fold_left (fun x y => f x (g y)) l a.
Proof. induction l as [|b l IH]; intros a; simpl; [reflexivity | apply IH]. Qed.

(** X6.  [toQuoteData] changes neither the number of line items nor
    their quantities and unit amounts: the totals of the mapped request
    are those of the request. *)
Theorem toQuoteData_keeps_totals (now : Date) (r : ParsedQuoteInput) :
  calculateTotals (lineItems (toQuoteData now r)) = calculateTotals (lineItems r).
Proof.
  unfold calculateTotals. cbn [toQuoteData lineItems].
  rewrite !fold_left_mapped, length_map. reflexivity.
Qed.

End MapperComposition.

(** ** Totals: what is exact, and what [NaN] does *)

Section TotalsFacts.

Open Scope Z_scope.

(** X7.  On whole numbers [calculateTotals] is exact: when every
    quantity and unit amount is a non-negative integer below 2^53 and the
    sums of the products and of the quantities, computed on the integers,
    are below 2^53, the subtotal and the total quantity are these sums,
    with no rounding. *)
Theorem calculateTotals_exact (l : list ParsedLineItem) :
  Forall wholeItem l -> exactSubtotal l < 2 ^ 53 -> exactQuantity l < 2 ^ 53 ->
  whole (subtotal (calculateTotals l))
  /\ toZ (subtotal (calculateTotals l)) = exactSubtotal l
  /\ whole (totalQuantity (calculateTotals l))
  /\ toZ (totalQuantity (calculateTotals l)) = exactQuantity l.
Proof.
  intros Hl Hs Hq. rewrite (totals_exact Hl Hs Hq). cbn [subtotal totalQuantity].
  pose proof (exactSubtotal_nonneg Hl). pose proof (exactQuantity_nonneg Hl).
  repeat split; try (apply whole_ofZ; lia); apply toZ_ofZ; lia.
Qed.

Lemma calculateTotals_exact_witness :
  toZ (subtotal (calculateTotals [units 5 150; units 2 75])) = 900
  /\ toZ (totalQuantity (calculateTotals [units 5 150; units 2 75])) = 7.
Proof.
  destruct (@calculateTotals_exact [units 5 150; units 2 75]) as (_ & Hs & _ & Hq).
  - repeat constructor; vm_compute; congruence.
  - reflexivity.
  - reflexivity.
  - split; [exact Hs | exact Hq].
Defined.

Lemma add_nan_l y : add NaN y = NaN.
Proof. reflexivity. Qed.

Lemma add_nan_r x : add x NaN = NaN.
Proof. destruct x; reflexivity. Qed.

Lemma mul_nan_l y : mul NaN y = NaN.
Proof. reflexivity. Qed.

Lemma mul_nan_r x : mul x NaN = NaN.
Proof. destruct x; reflexivity. Qed.

Lemma isNaN_eq x : isNaN x = true -> x = NaN.
Proof. destruct x; try discriminate; reflexivity. Qed.

(** Once [NaN], a sum stays [NaN]. *)
Lemma fold_nan (A : Type) (f : A -> number) l :
  fold_left (fun sum item => add sum (f item)) l NaN = NaN.
Proof. induction l as [|a l IH]; simpl; [reflexivity | exact IH]. Qed.

Lemma fold_nan_term (A : Type) (f : A -> number) l item :
  In item l -> f item = NaN -> forall acc,
  fold_left (fun sum item => add sum (f item)) l acc = NaN.
Proof.
  intros Hin Hf. induction l as [|a l IH]; intros acc; [destruct Hin|].
  simpl. destruct Hin as [-> | Hin].
  - rewrite Hf, add_nan_r. apply fold_nan.
  - now apply IH.
Qed.

(** X8.  One [NaN] spoils the totals: if the quantity of some line item
    is [NaN], the subtotal and the total quantity are [NaN]; if its unit
    amount is, the subtotal is. *)
Theorem calculateTotals_nan (l : list ParsedLineItem) (item : ParsedLineItem) :
  In item l ->
  (isNaN (quantity item) = true ->
   isNaN (subtotal (calculateTotals l)) = true
   /\ isNaN (totalQuantity (calculateTotals l)) = true)
  /\ (isNaN (unitAmount item) = true ->
      isNaN (subtotal (calculateTotals l)) = true).
Proof.
  intros Hin. unfold calculateTotals. cbn [subtotal totalQuantity]. split.
  - intros Hq. apply isNaN_eq in Hq. split.
    + rewrite (@fold_nan_term _ (fun it => mul (quantity it) (unitAmount it)) l item);
        [reflexivity | exact Hin | now rewrite Hq].
    + rewrite (@fold_nan_term _ quantity l item); [reflexivity | exact Hin | exact Hq].
  - intros Ha. apply isNaN_eq in Ha.
    rewrite (@fold_nan_term _ (fun it => mul (quantity it) (unitAmount it)) l item);
      [reflexivity | exact Hin | now rewrite Ha, mul_nan_r].
Qed.

Lemma calculateTotals_nan_witness :
  isNaN (subtotal (calculateTotals
                     [units 5 150;
                      {| description := u "hours"; quantity := NaN;
                         unitAmount := ofZ 75; accountCode := None |}])) = true.
Proof.
  apply (proj1 (@calculateTotals_nan
                  [units 5 150;
                   {| description := u "hours"; quantity := NaN;
                      unitAmount := ofZ 75; accountCode := None |}]
                  {| description := u "hours"; quantity := NaN;
                     unitAmount := ofZ 75; accountCode := None |}
                  ltac:(right; left; reflexivity)) eq_refl).
Defined.

End TotalsFacts.

(** ** The parsers: what they overlook, and what they guarantee *)

Section ParserFacts.

(** X9.  [parseCurrency] removes a [$], [€] or [,] wherever it stands:
    the text with one of them put in at any place is parsed like the text
    without it (so [1,5] is 15). *)
Theorem parseCurrency_ignores_marks (a b : jsstring) (c : char) :
  currencyMark c = true ->
  outcome (parseCurrency (Text (a ++ c :: b)))
  = outcome (parseCurrency (Text (a ++ b))).
Proof.
  intros Hc. unfold parseCurrency, removeAll.
  rewrite !filter_app. cbn [filter]. rewrite Hc. cbn [negb].
  destruct (isNaN _); reflexivity.
Qed.

Lemma parseCurrency_ignores_marks_witness :
  outcome (parseCurrency (Text (u "1,5"))) = Some (ofZ 15).
Proof.
  exact (eq_trans (@parseCurrency_ignores_marks (u "1") (u "5") 44%N eq_refl)
                  eq_refl).
Defined.

Lemma positive_of_not_leb x :
  isNaN x = false -> leb x zero = false -> ltb zero x = true.
Proof.
  unfold leb, ltb, SFleb, SFltb, zero.
  destruct x as [s|s| |s m e]; try destruct s; simpl; congruence.
Qed.

(** X10.  What [parseQuantity] returns for a text without [/] is a number
    [> 0] (possibly [Infinity], never [NaN]), which the quantity check of
    the validator lets through. *)
Theorem parseQuantity_plain_is_positive (s : jsstring) (x : number) :
  includes 47%N s = false ->
  parseQuantity (Text s) = Ok x ->
  ltb zero x = true /\ isNaN x = false /\ notPositive (VNum x) = false.
Proof.
  intros Hinc. unfold parseQuantity. rewrite Hinc.
  destruct (isNaN (parseFloat (trim s))) eqn:N; [discriminate|].
  destruct (leb (parseFloat (trim s)) zero) eqn:L; [discriminate|].
  cbn [orb]. intros [= <-]. auto using positive_of_not_leb.
Qed.

Lemma parseQuantity_plain_is_positive_witness :
  ltb zero (ofDecimal false 25 (-1)) = true.
Proof.
  apply (@parseQuantity_plain_is_positive (u " 2.5 hours") (ofDecimal false 25 (-1))
           eq_refl eq_refl).
Defined.

Lemma includes_false_units c s :
  includes c s = false -> Forall (fun x => char_eqb x c = false) s.
Proof.
  unfold includes. induction s as [|x s IH]; simpl; [constructor|].
  intros H. apply orb_false_iff in H as [Hx Hs].
  constructor; [|now apply IH]. unfold char_eqb in *. now rewrite N.eqb_sym.
Qed.

(** No part of a split holds the separator. *)
Lemma split_parts_free sep s :
  Forall (fun p => includes sep p = false) (split sep s).
Proof.
  induction s as [|x s IH]; simpl; [now constructor|].
  destruct (char_eqb x sep) eqn:E; [now constructor|].
  pose proof (split_not_nil sep s) as Hne.
  destruct (split sep s) as [|p ps]; [congruence|].
  inversion IH; subst. constructor; [|assumption].
  unfold includes in *. simpl. unfold char_eqb in *.
  rewrite N.eqb_sym, E. assumption.
Qed.

(** X11.  Of a text with more than one [/], [parseQuantity] reads the
    first two parts only: what follows the second [/] changes nothing (so
    [1/2/3] is 0.5). *)
Theorem parseQuantity_first_two_parts (s a b : jsstring) (rest : list jsstring) :
  split 47%N s = a :: b :: rest ->
  outcome (parseQuantity (Text s))
  = outcome (parseQuantity (Text (a ++ 47%N :: b))).
Proof.
  intros Hs. pose proof (split_parts_free 47%N s) as F. rewrite Hs in F.
  inversion F as [|? ? Fa F']; subst. inversion F' as [|? ? Fb _]; subst.
  assert (Hs' : split 47%N (a ++ 47%N :: b) = [a; b]).
  { rewrite split_first by (now apply includes_false_units).
    now rewrite (includes_false_split _ _ Fb). }
  unfold parseQuantity.
  rewrite (split_two_includes _ _ Hs), (split_two_includes _ _ Hs'), Hs, Hs'.
  cbn [map firstTwo].
  destruct (isNaN _ || isNaN _ || eqb _ zero); reflexivity.
Qed.

Lemma parseQuantity_first_two_parts_witness :
  outcome (parseQuantity (Text (u "1/2/3"))) = Some (ofDecimal false 5 (-1)).
Proof.
  exact (eq_trans
           (@parseQuantity_first_two_parts (u "1/2/3") (u "1") (u "2") [u "3"] eq_refl)
           eq_refl).
Defined.

End ParserFacts.

(** * The summary *)

Section DigitFacts.

Import QuoteSummary.

Lemma digitsOfPos_acc fuel : forall n acc,
  digitsOfPos fuel n acc = digitsOfPos fuel n [] ++ acc.
Proof.
  induction fuel as [|fuel IH]; intros n acc; cbn [digitsOfPos]; [reflexivity|].
  destruct (n <? 10)%N; [reflexivity|].
  rewrite IH, (IH _ [_]), <- app_assoc. reflexivity.
Qed.

(** Enough fuel is enough. *)
Lemma digitsOfPos_fuel f1 : forall f2 n acc,
  (n < 2 ^ N.of_nat f1)%N -> (n < 2 ^ N.of_nat f2)%N ->
  digitsOfPos (S f1) n acc = digitsOfPos (S f2) n acc.
Proof.
  induction f1 as [|f1 IH]; intros f2 n acc H1 H2.
  - change (2 ^ N.of_nat 0)%N with 1%N in H1.
    assert (n = 0%N) by lia. subst n. reflexivity.
  - cbn [digitsOfPos]. destruct (n <? 10)%N eqn:L; [reflexivity|].
    apply N.ltb_ge in L.
    assert (Hhalf : forall f, (n < 2 ^ N.of_nat (S f))%N -> (n / 10 < 2 ^ N.of_nat f)%N).
    { intros f Hf. rewrite Nat2N.inj_succ, N.pow_succ_r' in Hf.
      apply N.Div0.div_lt_upper_bound. lia. }
    destruct f2 as [|f2].
    + change (2 ^ N.of_nat 0)%N with 1%N in H2. lia.
    + change (digitsOfPos (S f1) (n / 10) ((48 + n mod 10)%N :: acc)
              = digitsOfPos (S f2) (n / 10) ((48 + n mod 10)%N :: acc)).
      apply IH; apply Hhalf; assumption.
Qed.

Lemma digits_fuel n f acc :
  (n < 2 ^ N.of_nat f)%N -> digitsOfPos (S f) n acc = digits n ++ acc.
Proof.
  intros H. unfold digits. rewrite (digitsOfPos_acc _ n acc).
  f_equal. apply digitsOfPos_fuel; [exact H|].
  rewrite N2Nat.id. apply N.size_gt.
Qed.

Lemma digits_mul10 n : (0 < n)%N -> digits (10 * n) = digits n ++ [48%N].
Proof.
  intros Hn. unfold digits at 1. cbn [digitsOfPos].
  assert (L : (10 * n <? 10)%N = false) by (apply N.ltb_ge; lia).
  rewrite L. rewrite N.mul_comm, N.Div0.mod_mul, N.div_mul by discriminate.
  pose proof (N.size_gt (n * 10)) as G.
  destruct (N.to_nat (N.size (n * 10))) as [|f] eqn:F.
  - assert (N.size (n * 10) = 0%N) by lia.
    rewrite H in G. change (2 ^ 0)%N with 1%N in G. lia.
  - apply digits_fuel.
    assert (E : N.size (n * 10) = N.of_nat (S f)) by lia.
    rewrite E, Nat2N.inj_succ, N.pow_succ_r' in G. lia.
Qed.

Lemma digits_not_nil n : digits n <> [].
Proof. apply digitsOfPos_not_nil. Qed.

(** The digits are those [showNat] gives. *)
Lemma digits_showNat n : digits n = showNat (N.to_nat n).
Proof.
  unfold digits, showNat. rewrite N2Nat.id. apply digitsOfPos_fuel.
  - rewrite N2Nat.id. apply N.size_gt.
  - rewrite N2Nat.id. apply N.pow_gt_lin_r. reflexivity.
Qed.

Lemma digitsValue_zeros k ds :
  digitsValue (repeat 48%N k ++ ds) = digitsValue ds.
Proof.
  unfold digitsValue. rewrite fold_left_app. f_equal.
  induction k as [|k IH]; [reflexivity | exact IH].
Qed.

(** The parts before and after the point. *)
Lemma withPoint_parts n :
  exists a b,
    withPoint n = a ++ u "." ++ b
    /\ a <> [] /\ List.length b = 2
    /\ Forall (fun c => isDigit c = true) (a ++ b)
    /\ digitsValue (a ++ b) = n.
Proof.
  unfold withPoint.
  set (m := if (List.length (digits n) <=? 2)%nat
            then repeat 48%N (3 - List.length (digits n)) ++ digits n
            else digits n).
  assert (H : 3 <= List.length m
              /\ Forall (fun c => isDigit c = true) m
              /\ digitsValue m = n).
  { assert (Hd : Forall (fun c => isDigit c = true) (digits n))
      by (rewrite digits_showNat; apply showNat_digits).
    assert (Hv : digitsValue (digits n) = n)
      by (rewrite digits_showNat, showNat_value; apply N2Nat.id).
    subst m. destruct (List.length (digits n) <=? 2)%nat eqn:L.
    - apply Nat.leb_le in L. split; [|split].
      + rewrite length_app, repeat_length. unfold jsstring, char in *. lia.
      + apply Forall_app. split; [|exact Hd].
        apply Forall_forall. intros c Hc. apply repeat_spec in Hc. now subst c.
      + now rewrite digitsValue_zeros.
    - apply Nat.leb_gt in L. auto. }
  destruct H as (Hlen & Hdig & Hval).
  exists (firstn (List.length m - 2) m), (skipn (List.length m - 2) m).
  rewrite firstn_skipn. repeat split; try assumption.
  - intros E. apply (f_equal (@List.length _)) in E.
    rewrite length_firstn in E. simpl in E. unfold jsstring, char in *. lia.
  - rewrite length_skipn. unfold jsstring, char in *. lia.
Qed.

Lemma withPoint_whole v : withPoint (100 * v) = digits v ++ u ".00".
Proof.
  destruct (N.eq_dec v 0) as [->|Hv]; [reflexivity|].
  unfold withPoint.
  replace (100 * v)%N with (10 * (10 * v))%N by lia.
  rewrite !digits_mul10 by lia.
  pose proof (digits_not_nil v) as Hne.
  rewrite <- app_assoc. cbn [app]. unfold jsstring, char.
  match goal with |- context [(?k <=? 2)%nat] =>
    assert (Hl : k = List.length (digits v) + 2)
      by (rewrite length_app; reflexivity);
    rewrite Hl
  end.
  assert (Hk : (List.length (digits v) + 2 <=? 2)%nat = false).
  { apply Nat.leb_gt. destruct (digits v); [congruence | simpl; lia]. }
  rewrite Hk, Hl, Nat.add_sub.
  rewrite firstn_app, skipn_app, Nat.sub_diag, firstn_all, skipn_all.
  cbn [firstn skipn app]. now rewrite app_nil_r.
Qed.

End DigitFacts.

Section AmountFacts.

Import QuoteSummary.

Open Scope Z_scope.

Variable toString : number -> jsstring.

(** A whole number is shown as its digits and [.00]. *)
Lemma toFixed2_ofZ n : 0 <= n < 2 ^ 53 -> toFixed2 toString (ofZ n) = shown n.
Proof.
  intros Hn. destruct n as [|p|p]; [reflexivity| |lia].
  rewrite ofZ_pos by lia.
  destruct (@canonical_value false p ltac:(lia)) as (m & e & -> & He & Hm & _).
  cbn [toFixed2 app].
  assert (P : 0 < 2 ^ (- e)) by (apply Z.pow_pos_nonneg; lia).
  assert (L : atLeast1e21 m e = false).
  { unfold atLeast1e21. destruct (0 <=? e) eqn:E0.
    - apply Z.leb_le in E0. assert (e = 0) by lia. subst e.
      apply Z.leb_gt. rewrite Hm. change (2 ^ (- 0)) with 1. lia.
    - apply Z.leb_gt. rewrite Hm. apply Z.mul_lt_mono_pos_r; lia. }
  rewrite L.
  assert (H : hundredths m e = (100 * Npos p)%N).
  { unfold hundredths. destruct (0 <=? e) eqn:E0.
    - apply Z.leb_le in E0. assert (e = 0) by lia. subst e.
      rewrite Hm. change (2 ^ (- 0)) with 1. change (2 ^ 0) with 1. lia.
    - replace (1 - e) with (Z.succ (- e)) by lia.
      rewrite Z.pow_succ_r, Hm by lia.
      replace (200 * (Zpos p * 2 ^ (- e)) + 2 ^ (- e))
        with (2 ^ (- e) * (200 * Zpos p + 1)) by ring.
      rewrite (Z.mul_comm 2), Z.div_mul_cancel_l by lia.
      replace ((200 * Zpos p + 1) / 2) with (100 * Zpos p); [lia|].
      apply Z.div_unique with (r := 1); lia. }
  rewrite H, withPoint_whole. reflexivity.
Qed.

Lemma hundredths_nearest m e : nearestHundredths (Z.of_N (hundredths m e)) m e.
Proof.
  unfold hundredths, nearestHundredths. destruct (0 <=? e) eqn:E0.
  - apply Z.leb_le in E0.
    assert (P : 0 < 2 ^ e) by (apply Z.pow_pos_nonneg; lia).
    rewrite Z2N.id by nia.
    rewrite (Z.max_l 0 (- e)), (Z.max_r 0 e) by lia.
    change (2 ^ 0) with 1. lia.
  - apply Z.leb_gt in E0.
    assert (P : 0 < 2 ^ (- e)) by (apply Z.pow_pos_nonneg; lia).
    rewrite (Z.max_r 0 (- e)), (Z.max_l 0 e) by lia. change (2 ^ 0) with 1.
    replace (1 - e) with (Z.succ (- e)) by lia. rewrite Z.pow_succ_r by lia.
    remember (2 ^ (- e)) as D eqn:ED.
    pose proof (Z.div_mod (200 * Zpos m + D) (2 * D) ltac:(lia)) as E.
    pose proof (Z.mod_pos_bound (200 * Zpos m + D) (2 * D) ltac:(lia)) as B.
    assert (N0 : 0 <= (200 * Zpos m + D) / (2 * D))
      by (apply Z.div_pos; lia).
    rewrite Z2N.id by exact N0.
    remember ((200 * Zpos m + D) / (2 * D)) as n.
    remember ((200 * Zpos m + D) mod (2 * D)) as r.
    split; nia.
Qed.

(** X17.  What the summary shows of a finite amount below 10^21: a [-]
    if its sign is negative, then digits, a point and two digits more, and
    these digits read as hundredths are the amount nearest to the Number
    (the larger one of two).  It is the Number that is rounded, not the
    decimal it was written as. *)
Theorem amounts_shown_to_the_nearest_cent s m e :
  atLeast1e21 m e = false ->
  exists a b,
    toFixed2 toString (S754_finite s m e) = (if s then u "-" else []) ++ a ++ u "." ++ b
    /\ a <> [] /\ List.length b = 2%nat
    /\ Forall (fun c => isDigit c = true) (a ++ b)
    /\ nearestHundredths (Z.of_N (digitsValue (a ++ b))) m e.
Proof.
  intros L. cbn [toFixed2]. rewrite L.
  destruct (withPoint_parts (hundredths m e)) as (a & b & -> & Ha & Hb & Hd & Hv).
  exists a, b. rewrite Hv. repeat split; try assumption; apply hundredths_nearest.
Qed.

Lemma toFixed2_whole x : whole x -> toFixed2 toString x = shown (toZ x).
Proof. intros [Hb Hx]. rewrite Hx at 1. now apply toFixed2_ofZ. Qed.

End AmountFacts.

Section SummaryFacts.

Import QuoteSummary.

Open Scope Z_scope.

Variable toString : number -> jsstring.

Lemma addItem_whole item index summary :
  wholeItem item -> toZ (quantity item) * toZ (unitAmount item) < 2 ^ 53 ->
  addItem toString item index summary
  = summary ++ wholeLines toString (S index) item.
Proof.
  intros [[Hq Eq] [Ha Ea]] Hp. unfold addItem, wholeLines.
  rewrite (toFixed2_whole toString (conj Ha Ea)).
  replace (mul (quantity item) (unitAmount item))
    with (ofZ (toZ (quantity item) * toZ (unitAmount item)))
    by (rewrite <- mul_exact by assumption; now rewrite <- Eq, <- Ea).
  rewrite toFixed2_ofZ by nia.
  rewrite Nat.add_1_r, <- !app_assoc. reflexivity.
Qed.

Lemma forEachItem_whole items : forall index summary,
  Forall wholeItem items -> exactSubtotal items < 2 ^ 53 ->
  forEachItem toString index items summary
  = summary
    ++ List.concat (map (fun entry => wholeLines toString (fst entry) (snd entry))
                   (combine (seq (S index) (List.length items)) items)).
Proof.
  induction items as [|item rest IH]; intros index summary Hall Hb.
  - simpl. now rewrite app_nil_r.
  - inversion Hall as [|? ? Hitem Hrest]; subst.
    pose proof (exactSubtotal_nonneg Hrest) as Hs.
    unfold exactSubtotal in Hb; cbn [fold_right] in Hb; fold (exactSubtotal rest) in Hb.
    pose proof Hitem as [[Hq _] [Ha _]].
    cbn [forEachItem List.length seq combine map List.concat fst snd].
    rewrite addItem_whole; [|exact Hitem | nia].
    rewrite IH by (assumption || nia).
    now rewrite <- app_assoc.
Qed.

(** X16.  On whole numbers the summary is exact: when every quantity and
    unit amount is a non-negative integer below 2^53 and the sum of the
    products, computed on the integers, is below 2^53, [formatQuoteSummary]
    gives the summary computed on the integers, with every unit amount,
    line total and the subtotal shown as the digits of that integer and
    [.00], the items numbered from 1 in their order, and the lines for the
    e-mail address, the reference and the date there for a non-empty
    string only. *)
Theorem summary_exact_on_whole_numbers (input : ParsedQuoteInput) :
  Forall wholeItem (lineItems input) ->
  exactSubtotal (lineItems input) < 2 ^ 53 ->
  formatQuoteSummary toString input = wholeSummary toString input.
Proof.
  intros Hall Hb. pose proof (exactSubtotal_nonneg Hall) as Hs.
  unfold formatQuoteSummary, wholeSummary, optionalPart.
  rewrite !forEachItem_whole by assumption.
  unfold calculateTotals. cbn [subtotal]. change zero with (ofZ 0).
  rewrite subtotal_exact by (assumption || lia).
  rewrite toFixed2_ofZ by lia. cbn [Z.add].
  destruct (given (contactEmail input)), (given (reference input)),
    (given (date input)); rewrite <- ?app_assoc, ?app_nil_r; reflexivity.
Qed.

(** X18.  The summary does not check the numbers: with a [NaN] as the
    quantity or the unit amount of some item, the subtotal is shown as
    [NaN]. *)
Theorem summary_shows_nan (input : ParsedQuoteInput) (item : ParsedLineItem) :
  In item (lineItems input) ->
  isNaN (quantity item) = true \/ isNaN (unitAmount item) = true ->
  exists before,
    formatQuoteSummary toString input
    = before ++ lineFeed ++ u "Subtotal: $NaN"
      ++ optionalPart (lineFeed ++ u "Reference: ") (reference input) []
      ++ optionalPart (lineFeed ++ u "Date: ") (date input) [].
Proof.
  intros Hin Hnan.
  assert (E : subtotal (calculateTotals (lineItems input)) = NaN).
  { unfold calculateTotals. cbn [subtotal].
    apply (@fold_nan_term _ (fun it => mul (quantity it) (unitAmount it)) _ item Hin).
    destruct Hnan as [H|H]; apply isNaN_eq in H; rewrite H;
      [apply mul_nan_l | apply mul_nan_r]. }
  unfold formatQuoteSummary, optionalPart. rewrite E. cbn [toFixed2].
  match goal with |- context [forEachItem toString 0 ?l ?s] =>
    exists (forEachItem toString 0 l s)
  end.
  destruct (given (reference input)), (given (date input));
    rewrite <- ?app_assoc, ?app_nil_r; reflexivity.
Qed.

End SummaryFacts.

Section SummaryWitnesses.

Import QuoteSummary.

Lemma summary_exact_on_whole_numbers_witness :
  formatQuoteSummary wholeToString acme = wholeSummary wholeToString acme.
Proof.
  apply summary_exact_on_whole_numbers.
  - repeat constructor; vm_compute; congruence.
  - reflexivity.
Defined.

Lemma amounts_shown_to_the_nearest_cent_witness :
  exists a b,
    toFixed2 wholeToString onePointOhOhFive = [] ++ a ++ u "." ++ b
    /\ a <> [] /\ List.length b = 2
    /\ Forall (fun c => isDigit c = true) (a ++ b)
    /\ nearestHundredths (Z.of_N (digitsValue (a ++ b))) 4526117625507348 (-52).
Proof.
  exact (@amounts_shown_to_the_nearest_cent wholeToString false
           4526117625507348 (-52) eq_refl).
Defined.

Lemma summary_shows_nan_witness :
  exists before,
    formatQuoteSummary wholeToString spoiled
    = before ++ lineFeed ++ u "Subtotal: $NaN"
      ++ optionalPart (lineFeed ++ u "Reference: ") (reference spoiled) []
      ++ optionalPart (lineFeed ++ u "Date: ") (date spoiled) [].
Proof.
  apply (@summary_shows_nan wholeToString spoiled
           {| description := u "hours"; quantity := NaN;
              unitAmount := ofZ 75; accountCode := None |}).
  - right. left. reflexivity.
  - left. reflexivity.
Defined.

(** 1.005 is shown as 1.00: the Number nearest to 1.005 is below it. *)
Example onePointOhOhFive_shown :
  parseFloat (u "1.005") = onePointOhOhFive
  /\ toFixed2 wholeToString onePointOhOhFive = u "1.00".
Proof. split; vm_compute; reflexivity. Qed.

End SummaryWitnesses.

(** * The authorization callback *)

Section HandlerFacts.

Import OAuthHelper.

Variable TokenSet : Type.
Implicit Types (w : World TokenSet) (req : Request).

Ltac runs w req :=
  unfold onRequest, answer, saveTokens, parse;
  destruct (parsed req) as [reqUrl|e0] eqn:Hparse;
  [ cbn [bind]; destruct (isCallback reqUrl) eqn:Hpath;
    [ destruct (truthy (code reqUrl)) eqn:Hcode;
      [ destruct (apiCallback w) as [tokens|e1] eqn:Hapi;
        [ destruct (updateTenants w) as [[[|first others]|]|e2] eqn:Hten;
          [ | destruct (writeFile w) as [[]|e3] eqn:Hwrite | | ]
        | ]
      | ]
    | ]
  | ];
  cbn [bind emit call tryCatch throw fst snd app negb].

(** A request asks for one thing. *)
Lemma asks_one req b :
  asksCallback req b -> forall reqUrl,
  parsed req = inl reqUrl -> isCallback reqUrl = true /\ truthy (code reqUrl) = b.
Proof.
  intros (o & Ho & Hp & Hc) reqUrl E. rewrite E in Ho. injection Ho as <-. auto.
Qed.

Lemma asks_parsed req reqUrl :
  parsed req = inl reqUrl -> isCallback reqUrl = true ->
  asksCallback req (truthy (code reqUrl)).
Proof. intros E Hp. exists reqUrl. auto. Qed.





End HandlerFacts.

Section HandlerWitnesses.

Import OAuthHelper.



End HandlerWitnesses.

(** * The test script *)

Section ScriptFacts.

Import TestScript.

Variable toString : number -> jsstring.
Variables Thrown QuoteResult : Type.
Implicit Types (w : World Thrown QuoteResult).

Lemma sampleQuote_valid loaded :
  calendarDay loaded ->
  (valid (validateQuoteData (rawInput (sampleQuote loaded))) = true
   <-> (0 <= year loaded <= 9999)%Z).
Proof.
  intros Hday. rewrite valid_accepted, <- (isoDay_shape Hday). split.
  - intros [_ _ _ Hd]. apply Hd; [cbn; now rewrite isoString_day | apply isoDay_not_nil].
  - intros Hd. split.
    + eexists. split; [reflexivity|]. exists 84%N. split; [now left | reflexivity].
    + exists (map rawItem (lineItems (sampleQuote loaded))).
      split; [reflexivity|]. split; [discriminate|].
      cbn [sampleQuote lineItems map].
      repeat (apply Forall_cons;
              [split; cbn; eexists; (split; [reflexivity|]);
               [exists 101%N; (split; [|reflexivity]); cbn; tauto
               | vm_compute; reflexivity | vm_compute; reflexivity]|]).
      apply Forall_nil.
    + intros e [= <-] _.
      apply test_emailRegex_iff. vm_compute. reflexivity.
    + intros d [= <-] _. now rewrite isoString_day.
Qed.

Lemma sampleQuote_mapped now loaded :
  toQuoteData now (sampleQuote loaded) = sampleSent loaded.
Proof.
  unfold toQuoteData, sampleSent. cbn [sampleQuote contactName contactEmail lineItems
    reference termsAndConditions date option_map map description quantity unitAmount
    accountCode].
  rewrite !isoString_day.
  assert (D : forall b, orElse (Some (isoDay loaded)) b = isoDay loaded).
  { intros b. unfold orElse, given. pose proof (isoDay_not_nil loaded).
    destruct (isoDay loaded); [congruence | reflexivity]. }
  rewrite D. reflexivity.
Qed.

Ltac script w :=
  unfold testQuoteCreation;
  destruct (valid (validateQuoteData (rawInput (sampleQuote (loaded w))))) eqn:Hvalid;
  cbn [negb];
  [ destruct (newService w) as [[]|e1] eqn:Hnew;
    [ destruct (initialize w) as [[]|e2] eqn:Hinit;
      [ rewrite ?sampleQuote_mapped;
        destruct (createQuote w (sampleSent (loaded w))) as [r|e3] eqn:Hcreate
      | ]
    | ]
  | ].

(** X19.  Every run of the test script ends with one exit, with the code
    0 or 1.  On a calendar day, the code is 0 exactly when the year is
    between 0 and 9999 (so that the date of the sample has the shape the
    validator asks for) and every call to the Xero service succeeds. *)
Theorem test_passes_when_all_steps_do w :
  calendarDay (loaded w) ->
  (exists before code,
      testQuoteCreation toString w = before ++ [Exit code]
      /\ exits (testQuoteCreation toString w) = [code]
      /\ (code = 0 \/ code = 1))
  /\ (exits (testQuoteCreation toString w) = [0]
      <-> (0 <= year (loaded w) <= 9999)%Z
          /\ newService w = inl tt /\ initialize w = inl tt
          /\ exists r, createQuote w (sampleSent (loaded w)) = inl r).
Proof.
  intros Hday. split.
  - script w; cbn [exits flat_map app];
      match goal with |- context [Exit ?c] =>
        match goal with |- exists _ _, ?t = _ /\ _ =>
          exists (removelast t), c
        end
      end; repeat split; auto.
  - rewrite <- (sampleQuote_valid Hday). split.
    + script w; cbn [exits flat_map app]; intros H; try discriminate.
      repeat split. eauto.
    + intros (Hv & Hn & Hi & r & Hc). unfold testQuoteCreation.
      rewrite Hv, Hn, Hi, sampleQuote_mapped, Hc. reflexivity.
Qed.

(** X20.  The test script sends one quote at most, and only after the
    sample passed validation and the service was set up; what is sent is
    the sample with the default account code on every item, whatever the
    time of the call, and it passes validation as well. *)
Theorem quote_sent_after_connecting w :
  List.length (sent (testQuoteCreation toString w)) <= 1
  /\ (forall q, In q (sent (testQuoteCreation toString w)) ->
        q = sampleSent (loaded w)
        /\ valid (validateQuoteData (rawInput (sampleQuote (loaded w)))) = true
        /\ valid (validateQuoteData (rawInput q)) = true
        /\ newService w = inl tt /\ initialize w = inl tt).
Proof.
  split.
  - script w; cbn [sent flat_map app List.length]; lia.
  - intros q. script w; cbn [sent flat_map app In]; intros H;
      try contradiction; destruct H as [<-|[]]; repeat split; try assumption.
    all: rewrite <- (sampleQuote_mapped (called w)).
    all: apply valid_accepted, mapped_accepted; [now apply valid_accepted|].
    all: apply valid_accepted in Hvalid; destruct Hvalid as [_ _ _ Hd].
    all: cbn [sampleQuote date]; rewrite isoString_day.
    all: assert (D : forall b, orElse (Some (isoDay (loaded w))) b = isoDay (loaded w))
           by (intros b; unfold orElse, given; pose proof (isoDay_not_nil (loaded w));
               destruct (isoDay (loaded w)); [congruence | reflexivity]).
    all: rewrite D; apply Hd; [cbn; now rewrite isoString_day | apply isoDay_not_nil].
Qed.

End ScriptFacts.

Section ScriptWitnesses.

Import TestScript.

Lemma test_passes_when_all_steps_do_witness :
  exits (testQuoteCreation wholeToString readyWorld) = [0].
Proof.
  apply (proj2 (@test_passes_when_all_steps_do wholeToString jsstring jsstring
                  readyWorld ltac:(split; simpl; lia))).
  split; [simpl; lia|]. split; [reflexivity|]. split; [reflexivity|].
  now exists (u "QU-0001").
Defined.

End ScriptWitnesses.
